(** * noctilucence: the geometry kernel, scene nodes and the replay engine

    A shallow embedding of the Python sources

      - [animator/funcs.py]            ([span], [dist_to_poly]),
      - [animator/entities/entity.py]  ([Entity]: [gpos], [gori], [move],
                                        [add_components]),
      - [animator/entities/primatives.py] ([Polygon.get_points]),
      - [animator/entities/contour2d.py]  ([segments], [jagged_points]),
      - [animator/scene.py]            ([Scene]),
      - [animator/animation.py]        ([pause], [sweep_cmd], [set_cmd],
                                        [slide]),
      - [projects/001_2d_flatness_calc/flatness_visualizer_2d.py]
                                        ([calc_flatness]).

    Numbers are IEEE-754 binary64 values (Rocq's primitive [float]), the
    numbers numpy and Python compute with; Leibniz equality on [float] is
    equality of the bit patterns (all NaNs being one value), numpy's [==]
    is [PrimFloat.eqb].  Python exceptions are the [Raise] results of an
    error monad; objects that are shared and mutated live in an explicit
    store. *)

From Stdlib Require Import ZArith List String Bool Lia.
From Stdlib Require Import Floats.
From stdpp Require Import gmap strings.

Local Open Scope Z_scope.

(* ===================================================================== *)
(** ** Python values shared by all modules *)
(* ===================================================================== *)

(** A dictionary key: the sources key entities by string aliases, and
    [Scene.reset] indexes the same dictionaries by integers. *)
Inductive key : Type :=
| KStr (s : string)
| KInt (i : Z).

(** The exceptions the modelled code can raise.  [Dangling] is the
    model's own: a reference to no object, which Python cannot hold. *)
Inductive exn : Type :=
| KeyError (k : key)
| ValueError (msg : string)
| UnboundLocalError (var : string)
| NameError (var : string)
| IndexError
| ZeroDivisionError
| RecursionError
| Dangling.

Inductive result (A : Type) : Type :=
| Ok (a : A)
| Raise (e : exn).
Arguments Ok {A} a.
Arguments Raise {A} e.

#[global] Instance result_ret : MRet result := fun A a => Ok a.
#[global] Instance result_bind : MBind result := fun A B k r =>
  match r with
  | Ok a => k a
  | Raise e => Raise e
  end.

(** Code that mutates a state [S] and may raise: the state as the call
    leaves it, also when it raises. *)
Definition stateM (S A : Type) : Type := S -> S * result A.

#[global] Instance stateM_ret (S : Type) : MRet (stateM S) :=
  fun A a s => (s, Ok a).
#[global] Instance stateM_bind (S : Type) : MBind (stateM S) :=
  fun A B k m s =>
    match m s with
    | (s', Ok a) => k a s'
    | (s', Raise e) => (s', Raise e)
    end.

(** A computation that leaves the state alone. *)
Definition lift {S A : Type} (r : result A) : stateM S A := fun s => (s, r).

(** [raise e]. *)
Definition raise {S A : Type} (e : exn) : stateM S A := fun s => (s, Raise e).

(** [range(a, b)] over the integers. *)
Definition range (a b : Z) : list Z := seqZ a (b - a).

(* ===================================================================== *)
(** ** numpy on binary64 *)
(* ===================================================================== *)

Module Np.

Local Open Scope float_scope.

(** An integer as a double, correctly rounded for every integer. *)
Definition of_Z (z : Z) : float :=
  SF2Prim (binary_normalize prec emax z 0 false).

Definition of_nat (n : nat) : float := of_Z (Z.of_nat n).

(** [np.pi]. *)
Definition pi : float := 0x1.921fb54442d18p+1.

(** [np.inf]. *)
Definition inf : float := infinity.

(** [np.linspace(start, stop, n)]: [n] samples, the first [start], sample
    [i] at [i * step + start] with [step = (stop - start) / (n - 1)], the
    last one set to [stop].  (numpy computes sample 0 as
    [0 * step + start]; for the finite non-zero steps of the calls in
    [funcs.span] that is [start].) *)
Definition linspace (start stop : float) (n : nat) : list float :=
  match n with
  | O => []
  | S O => [start]
  | S (S k as m) =>
      let step := (stop - start) / of_nat m in
      start :: List.map (fun i => of_nat i * step + start) (seq 1 k) ++ [stop]
  end.

(** A shape (2) array. *)
Definition vec2 : Type := float * float.

(** [np.dot] on shape (2): the products summed left to right. *)
Definition dot2 (a b : vec2) : float := fst a * fst b + snd a * snd b.

(** [np.array_equal] on shape (2): every component [==]. *)
Definition array_equal (a b : vec2) : bool :=
  (fst a =? fst b) && (snd a =? snd b).

(** [np.cumsum]. *)
Fixpoint cumsum_from (acc : float) (l : list float) : list float :=
  match l with
  | [] => []
  | x :: l' => (acc + x) :: cumsum_from (acc + x) l'
  end.
Definition cumsum (l : list float) : list float :=
  match l with
  | [] => []
  | x :: l' => x :: cumsum_from x l'
  end.

(** [np.argmax] and [np.argmin] on a non-empty array: the first extreme
    element, or the first NaN. *)
Fixpoint argmax_from (mp : float) (best i : nat) (l : list float) : nat :=
  match l with
  | [] => best
  | x :: l' =>
      if negb (x <=? mp) then
        if is_nan x then i else argmax_from x i (S i) l'
      else argmax_from mp best (S i) l'
  end.
Definition argmax (l : list float) : nat :=
  match l with
  | [] => O
  | x :: l' => if is_nan x then O else argmax_from x O 1 l'
  end.

Fixpoint argmin_from (mp : float) (best i : nat) (l : list float) : nat :=
  match l with
  | [] => best
  | x :: l' =>
      if negb (mp <=? x) then
        if is_nan x then i else argmin_from x i (S i) l'
      else argmin_from mp best (S i) l'
  end.
Definition argmin (l : list float) : nat :=
  match l with
  | [] => O
  | x :: l' => if is_nan x then O else argmin_from x O 1 l'
  end.

(** [np.max] and [np.min] (NaN propagates), on a non-empty array. *)
Definition max (l : list float) : float := List.nth (argmax l) l nan.
Definition min (l : list float) : float := List.nth (argmin l) l nan.

End Np.


(* ===================================================================== *)
(** ** animator/entities/entity.py: scene nodes *)
(* ===================================================================== *)

Module EntityModel.

Import Np.
Local Open Scope float_scope.

(** A shape (3) array and a shape (3, 3) array (its three rows). *)
Record vec3 : Type := V3 { vx : float; vy : float; vz : float }.
Record mat3 : Type := M3 { row0 : vec3; row1 : vec3; row2 : vec3 }.

Definition zero3 : vec3 := V3 0 0 0.
Definition identity3 : mat3 := M3 (V3 1 0 0) (V3 0 1 0) (V3 0 0 1).

Definition vadd (a b : vec3) : vec3 := V3 (vx a + vx b) (vy a + vy b) (vz a + vz b).
Definition vsub (a b : vec3) : vec3 := V3 (vx a - vx b) (vy a - vy b) (vz a - vz b).
Definition vdiv (a : vec3) (k : float) : vec3 := V3 (vx a / k) (vy a / k) (vz a / k).

(** [np.dot] on shape (3): the products summed left to right. *)
Definition dot3 (a b : vec3) : float := vx a * vx b + vy a * vy b + vz a * vz b.

(** [np.linalg.norm]. *)
Definition norm3 (a : vec3) : float := PrimFloat.sqrt (dot3 a a).

Definition col (m : mat3) (j : nat) : vec3 :=
  match j with
  | O => V3 (vx (row0 m)) (vx (row1 m)) (vx (row2 m))
  | S O => V3 (vy (row0 m)) (vy (row1 m)) (vy (row2 m))
  | _ => V3 (vz (row0 m)) (vz (row1 m)) (vz (row2 m))
  end.

(** [m[:, j] = v]. *)
Definition set_col (m : mat3) (j : nat) (v : vec3) : mat3 :=
  let upd (r : vec3) (x : float) : vec3 :=
    match j with
    | O => V3 x (vy r) (vz r)
    | S O => V3 (vx r) x (vz r)
    | _ => V3 (vx r) (vy r) x
    end in
  M3 (upd (row0 m) (vx v)) (upd (row1 m) (vy v)) (upd (row2 m) (vz v)).

(** [m @ v] and [a @ b]. *)
Definition mat_vec (m : mat3) (v : vec3) : vec3 :=
  V3 (dot3 (row0 m) v) (dot3 (row1 m) v) (dot3 (row2 m) v).
Definition mat_mul (a b : mat3) : mat3 :=
  let r (x : vec3) := V3 (dot3 x (col b 0)) (dot3 x (col b 1)) (dot3 x (col b 2)) in
  M3 (r (row0 a)) (r (row1 a)) (r (row2 a)).

(** An object reference. *)
Definition loc : Type := positive.

(** [Entity.attributes], the default attributes of [Entity.__init__]:
    [parent] and [components] hold references to other entities. *)
Record Entity : Type := mkEntity {
  opacity : float;
  visible : bool;
  color : list Z;
  size : Z;
  parent : option loc;
  pos : vec3;
  ori : mat3;
  components : list loc
}.

Definition with_parent (p : option loc) (e : Entity) : Entity :=
  mkEntity (opacity e) (visible e) (color e) (size e) p (pos e) (ori e) (components e).
Definition with_pos (v : vec3) (e : Entity) : Entity :=
  mkEntity (opacity e) (visible e) (color e) (size e) (parent e) v (ori e) (components e).
Definition with_ori (m : mat3) (e : Entity) : Entity :=
  mkEntity (opacity e) (visible e) (color e) (size e) (parent e) (pos e) m (components e).
Definition with_components (cs : list loc) (e : Entity) : Entity :=
  mkEntity (opacity e) (visible e) (color e) (size e) (parent e) (pos e) (ori e) cs.

(** The heap of entity objects. *)
Abbreviation heap := (gmap loc Entity).

Definition deref (h : heap) (l : loc) : result Entity :=
  match h !! l with
  | Some e => Ok e
  | None => Raise Dangling
  end.

(** [sys.getrecursionlimit()], the depth of calls the interpreter
    allows.  The frames of the callers count towards it, so a recursion
    has fewer nested calls left than this, by the depth of the place it is
    called from; [gpos] and [gori] below are given the whole limit, and
    [gpos_from] and [gori_from] say what they do with any number of calls
    left. *)
Definition recursion_limit : nat := 1000.

(** [Entity.gpos(self, local_pos)], the recursive call with [local_pos]
    given. *)
Fixpoint gpos_from (depth : nat) (h : heap) (self : loc) (local_pos : vec3)
  : result vec3 :=
  match depth with
  | O => Raise RecursionError
  | S d =>
      e ← deref h self;
      match parent e with
      | None => Ok local_pos
      | Some p =>
          pe ← deref h p;
          gpos_from d h p (vadd (pos pe) (mat_vec (ori pe) local_pos))
      end
  end.

(** [Entity.gpos(self)]: [local_pos] is [None], so it starts from
    [self.pos()]. *)
Definition gpos (h : heap) (self : loc) : result vec3 :=
  e ← deref h self;
  gpos_from recursion_limit h self (pos e).

(** [Entity.gori(self)]. *)
Fixpoint gori_from (depth : nat) (h : heap) (self : loc) : result mat3 :=
  match depth with
  | O => Raise RecursionError
  | S d =>
      e ← deref h self;
      match parent e with
      | None => Ok identity3
      | Some p =>
          g ← gori_from d h p;
          Ok (mat_mul (ori e) g)
      end
  end.

Definition gori (h : heap) (self : loc) : result mat3 :=
  gori_from recursion_limit h self.

(** [Entity.move(self, pos, dpos, ori, dori)]; [dori] is a pyquaternion
    [Quaternion], given by its [rotate] method. *)
Definition move (e : Entity) (new_pos dpos : option vec3) (new_ori : option mat3)
    (dori : option (vec3 -> vec3)) : Entity :=
  let e1 :=
    match new_pos, dpos with
    | Some p, _ => with_pos p e
    | None, Some d => with_pos (vadd (pos e) d) e
    | None, None => e
    end in
  match new_ori, dori with
  | Some m, _ => with_ori m e1
  | None, Some q =>
      let m0 := set_col (ori e1) 0 (q (col (ori e1) 0)) in
      let m1 := set_col m0 1 (q (col m0 1)) in
      let m2 := set_col m1 2 (q (col m1 2)) in
      with_ori m2 e1
  | None, None => e1
  end.

(** An argument of [add_components]: an [Entity], an iterable of
    arguments, or any other value (a number, [None], ...), given by its
    text. *)
Inductive arg : Type :=
| AEntity (l : loc)
| AIterable (xs : list arg)
| AOther (repr : string).

(** The [else] branch of [add_components] on an [Entity]:
    [self.attributes["components"].append(arg)] and
    [arg.attributes["parent"] = self]. *)
Definition attach (self : loc) (l : loc) (h : heap) : heap :=
  let h1 := alter (fun e => with_components (components e ++ [l]) e) self h in
  alter (with_parent (Some self)) l h1.

(** [Entity.add_components(self, *args)], one argument: the heap as the
    call leaves it, and the exception when it raises. *)
Fixpoint add_component (self : loc) (a : arg) (h : heap) : heap * option exn :=
  match a with
  | AIterable xs =>
      (fix each (xs : list arg) (h : heap) : heap * option exn :=
         match xs with
         | [] => (h, None)
         | x :: xs' =>
             match add_component self x h with
             | (h', None) => each xs' h'
             | (h', Some e) => (h', Some e)
             end
         end) xs h
  | AEntity l => (attach self l h, None)
  | AOther repr => (h, Some (ValueError (repr ++ " is not an Entity.")))
  end.

(** The arguments of a call in the order [add_components] reaches them:
    the entities and the other values at the leaves of the nested
    iterables. *)
Fixpoint leaves (a : arg) : list (loc + string) :=
  match a with
  | AEntity l => [inl l]
  | AIterable xs =>
      (fix each (xs : list arg) : list (loc + string) :=
         match xs with
         | [] => []
         | x :: xs' => leaves x ++ each xs'
         end) xs
  | AOther repr => [inr repr]
  end.

(** Attaching the entities [ls] one after the other. *)
Definition attach_all (self : loc) (ls : list loc) (h : heap) : heap :=
  List.fold_left (fun h l => attach self l h) ls h.

(** The nodes are attached until the first value that is no entity is
    reached, which raises. *)
Fixpoint attach_leaves (self : loc) (ls : list (loc + string)) (h : heap)
  : heap * option exn :=
  match ls with
  | [] => (h, None)
  | inl l :: ls' => attach_leaves self ls' (attach self l h)
  | inr repr :: _ => (h, Some (ValueError (repr ++ " is not an Entity.")))
  end.

(** [Entity.add_components(self, *args)]. *)
Definition add_components (self : loc) (args : list arg) (h : heap)
  : heap * option exn :=
  add_component self (AIterable args) h.

(** The root-frame reading of the specification: a node without a parent
    has global position 0 and global orientation identity. *)
Definition root_frame_globals : Prop :=
  forall (h : heap) (l : loc) (e : Entity),
    h !! l = Some e -> parent e = None ->
    gpos h l = Ok zero3 /\ gori h l = Ok identity3.


(** [Polygon.get_points(self)[0]]: the global [x, y, 0] of every
    component. *)
Fixpoint points_of (h : heap) (cs : list loc) : result (list vec3) :=
  match cs with
  | [] => Ok []
  | c :: cs' =>
      g ← gpos h c;
      rest ← points_of h cs';
      Ok (V3 (vx g) (vy g) 0 :: rest)
  end.

Definition get_points (h : heap) (poly : loc) : result (list vec3) :=
  e ← deref h poly;
  points_of h (components e).

(** A point entity with the default attributes. *)
Definition point_at (x y z : float) : Entity :=
  mkEntity 1 true [255; 255; 255]%Z 1%Z None (V3 x y z) identity3 [].

(** A heap with a parent [1] and a loose node [2]. *)
Definition two_nodes : heap :=
  list_to_map [(1%positive, point_at 0 0 0); (2%positive, point_at 1 1 0)].

(** The unit square centred at the origin (polygon [1] with the
    vertices [2..5]), a point outside it at [(2, 0)] and a point inside
    at [(0.25, 0)]. *)
Definition unit_square : heap :=
  attach_all 1%positive [2; 3; 4; 5]%positive
    (list_to_map
       [(1%positive, point_at 0 0 0);
        (2%positive, point_at (-0.5) (-0.5) 0); (3%positive, point_at 0.5 (-0.5) 0);
        (4%positive, point_at 0.5 0.5 0); (5%positive, point_at (-0.5) 0.5 0);
        (6%positive, point_at 2 0 0); (7%positive, point_at 0.25 0 0)]).

Definition square_vertices : list vec3 :=
  [V3 (-0.5) (-0.5) 0; V3 0.5 (-0.5) 0; V3 0.5 0.5 0; V3 (-0.5) 0.5 0].

End EntityModel.

(* ===================================================================== *)
(** ** animator/funcs.py: [span] and [dist_to_poly] *)
(* ===================================================================== *)

Module Funcs.

Import Np EntityModel.
Local Open Scope float_scope.

Section Span.

(** [np.cos] and [np.exp] are the platform's libm; the model takes them as
    parameters. *)
Variable np_cos : float -> float.
Variable np_exp : float -> float.

(** The distribution shape before its end points are rounded
    ([span], the branches on [profile]). *)
Definition profile_shape (profile : string) (n_elems : nat) : list float :=
  if String.eqb profile "linear" then
    linspace 0 1 n_elems
  else if String.eqb profile "quadratic" then
    List.map (fun x => x * x) (linspace 0 1 n_elems)
  else if String.eqb profile "neg_quadratic" then
    List.map (fun x => 1 - x * x) (linspace 1 0 n_elems)
  else if String.eqb profile "sinusoid" then
    List.map (fun x => 0.5 - np_cos x / 2) (linspace 0 pi n_elems)
  else
    List.map (fun x => 1 / (1 + np_exp (-10 * x))) (linspace (-0.5) 0.5 n_elems).

(** [shape -= shape[0]; shape *= 1.0 / shape[-1]]. *)
Definition round_end_points (shape : list float) : list float :=
  let s0 := List.hd 0 shape in
  let shifted := List.map (fun x => x - s0) shape in
  let r := 1 / List.last shifted 0 in
  List.map (fun x => x * r) shifted.

(** [start + np.outer(shape, end - start)]: one row per element of
    [shape]; a scalar [start] is the vector of length one. *)
Definition outer_from (start end_ : list float) (shape : list float)
  : list (list float) :=
  let delta := List.map (fun p => snd p - fst p) (List.combine start end_) in
  List.map (fun s => List.map (fun p => fst p + s * snd p) (List.combine start delta))
           shape.

Definition span (start end_ : list float) (n_elems : Z) (profile : string)
  : list (list float) :=
  let shape :=
    if (n_elems <=? 1)%Z then [1]
    else round_end_points (profile_shape profile (Z.to_nat n_elems)) in
  outer_from start end_ shape.

(** The first and last coefficient of the rounded shape of [profile]:
    what [round_end_points] makes of the profile's two end samples. *)
Definition end_coefficients (profile : string) : float * float :=
  let sh := round_end_points (profile_shape profile 2) in
  (List.hd 0 sh, List.last sh 0).

End Span.

(** The first two lines of [dist_to_poly]: [a = dir / np.linalg.norm(dir)]
    and [n = np.array([-a[1], a[0], 0])]. *)
Definition ray_axis (dir : vec3) : vec3 := vdiv dir (norm3 dir).
Definition ray_normal (dir : vec3) : vec3 :=
  V3 (- vy (ray_axis dir)) (vx (ray_axis dir)) 0.

(** One pass of the loop of [dist_to_poly] over the edge [start -> end_]:
    the state is [(min_line_fwd_dist, inside_factor)]. *)
Definition edge_step (a n pg : vec3) (st : float * float) (edge : vec3 * vec3)
  : float * float :=
  let start := fst edge in
  let end_ := snd edge in
  let norm_start := dot3 n (vsub start pg) in
  let norm_end := dot3 n (vsub end_ pg) in
  let ax_start := dot3 a (vsub start pg) in
  let ax_end := dot3 a (vsub end_ pg) in
  if 0 <? norm_start * norm_end then st
  else
    let fwd_dist :=
      ax_start + ((0 - norm_start) / (norm_end - norm_start) * (ax_end - ax_start)) in
    if fwd_dist <? 0 then (fst st, -1)
    else if fwd_dist <? fst st then (fwd_dist, snd st)
    else st.

(** The edges [vertices[i] -> vertices[(i+1) % len(vertices)]]. *)
Definition edges (vertices : list vec3) : list (vec3 * vec3) :=
  match vertices with
  | [] => []
  | v0 :: rest => List.combine vertices (rest ++ [v0])
  end.

(** [dist_to_poly(poly, point, dir)].  [point.gpos()] is evaluated inside
    the loop only, so it is not called for a polygon without vertices. *)
Definition dist_to_poly (h : heap) (poly point : loc) (dir : vec3) : result float :=
  let a := ray_axis dir in
  let n := ray_normal dir in
  vertices ← get_points h poly;
  match vertices with
  | [] => Ok (1 * inf)
  | _ =>
      pg ← gpos h point;
      let st := List.fold_left (edge_step a n pg) (edges vertices) (inf, 1) in
      Ok (snd st * fst st)
  end.

(** The five profile names. *)
Definition profiles : list string :=
  ["linear"; "quadratic"; "neg_quadratic"; "sinusoid"; "sigmoid"]%string.

(** End-point exactness of [span] as the specification words it, for
    given libm functions: first row [start], last row [end], bit for
    bit. *)
Definition span_end_points_exact (np_cos np_exp : float -> float) : Prop :=
  forall (start end_ : float) (n : Z) (profile : string),
    (1 < n)%Z -> In profile profiles ->
    List.hd [] (span np_cos np_exp [start] [end_] n profile) = [start]
    /\ List.last (span np_cos np_exp [start] [end_] n profile) [] = [end_].

(** The forward distance of every edge that [dist_to_poly] takes for a
    crossing, in the order of the edges. *)
Definition crossing (n pg : vec3) (edge : vec3 * vec3) : bool :=
  negb (0 <? dot3 n (vsub (fst edge) pg) * dot3 n (vsub (snd edge) pg)).
Definition fwd_dist (a n pg : vec3) (edge : vec3 * vec3) : float :=
  let norm_start := dot3 n (vsub (fst edge) pg) in
  let norm_end := dot3 n (vsub (snd edge) pg) in
  let ax_start := dot3 a (vsub (fst edge) pg) in
  let ax_end := dot3 a (vsub (snd edge) pg) in
  ax_start + ((0 - norm_start) / (norm_end - norm_start) * (ax_end - ax_start)).
Definition crossings (a n pg : vec3) (vertices : list vec3) : list float :=
  List.map (fwd_dist a n pg) (List.filter (crossing n pg) (edges vertices)).

(** The least of a list of distances, [inf] for none. *)
Definition least (ds : list float) : float :=
  List.fold_left (fun m d => if d <? m then d else m) ds inf.

Definition negative (d : float) : bool := d <? 0.

(** The return value the docstring of [dist_to_poly] describes, from the
    forward distances of the crossings: the least distance that is not
    negative ([inf] when there is none), negated when some crossing lies
    behind the point. *)
Definition signed_distance (ds : list float) : float :=
  (if List.existsb negative ds then -1 else 1)
  * least (List.filter (fun d => negb (negative d)) ds).

(** The last clause of the return contract as the specification words
    it: [+infinity] whenever no crossing has a forward distance that is
    not negative. *)
Definition inf_without_forward_crossing : Prop :=
  forall (h : heap) (poly point : loc) (dir : vec3) (vertices : list vec3) (pg : vec3),
    get_points h poly = Ok vertices -> gpos h point = Ok pg ->
    List.filter (fun d => 0 <=? d)
      (crossings (ray_axis dir) (ray_normal dir) pg vertices) = [] ->
    dist_to_poly h poly point dir = Ok inf.

End Funcs.

(* ===================================================================== *)
(** ** animator/entities/contour2d.py: jagged contours *)
(* ===================================================================== *)

Module Contour.

Import Np.
Local Open Scope float_scope.

(** A contour: [Contour2D] over its component contours, [LineContour2D],
    [ArcContour2D]; each with its attributes [jaggedness], [n_points] and
    [seed].  ([CirContour2D] is the arc from [pi/4] to [9*pi/4].) *)
Inductive Contour2D : Type :=
| Contour (jaggedness : float) (n_points seed : Z) (contours : list Contour2D)
| LineContour (jaggedness : float) (n_points seed : Z) (start end_ : vec2)
| ArcContour (jaggedness : float) (n_points seed : Z) (ctr : vec2)
    (rad ang1 ang2 : float).

Definition get_jaggedness (c : Contour2D) : float :=
  match c with
  | Contour j _ _ _ | LineContour j _ _ _ _ | ArcContour j _ _ _ _ _ _ => j
  end.
Definition get_seed (c : Contour2D) : Z :=
  match c with
  | Contour _ _ s _ | LineContour _ _ s _ _ | ArcContour _ _ s _ _ _ _ => s
  end.

Section Random.

(** numpy's global generator and libm, as parameters: the generator's
    state, [np.random.seed] (the state a seed sets, or the exception for a
    seed it refuses), and the two draws, each from a state to the values
    drawn and the state left. *)
Variable rng : Type.
Variable np_random_seed : Z -> result rng.
Variable np_random_dirichlet : list float -> stateM rng (list float).
Variable np_random_uniform : float -> float -> nat -> stateM rng (list float).
Variable np_cos : float -> float.
Variable np_sin : float -> float.

(** [np.random.seed(seed)] on the global generator. *)
Definition seed_global (seed : Z) : stateM rng unit :=
  fun g =>
    match np_random_seed seed with
    | Ok g' => (g', Ok tt)
    | Raise e => (g, Raise e)
    end.

(** [spaces = np.hstack([0, np.random.dirichlet(10 * np.ones(n_points - 1))])];
    [np.ones] raises on a negative length. *)
Definition spaces (n_points : Z) : stateM rng (list float) :=
  if (n_points - 1 <? 0)%Z then raise (ValueError "negative dimensions are not allowed")
  else
    d ← np_random_dirichlet (List.repeat (10 * 1) (Z.to_nat (n_points - 1)));
    mret (0 :: d).

(** [LineContour2D.segments]; [np.linspace(normal, normal, n_points)] is
    [n_points] copies of [normal]. *)
Definition line_segments (n_points seed : Z) (start end_ : vec2)
  : stateM rng (list vec2 * list vec2) :=
  _ ← seed_global seed;
  sp ← spaces n_points;
  let d : vec2 := (fst end_ - fst start, snd end_ - snd start) in
  let points := List.map (fun c => (fst start + c * fst d, snd start + c * snd d))
                         (cumsum sp) in
  let len := PrimFloat.sqrt (dot2 d d) in
  let normal : vec2 := (dot2 (0, -1) d / len, dot2 (1, 0) d / len) in
  mret (points, List.repeat normal (Z.to_nat n_points)).

(** [ArcContour2D.segments]. *)
Definition arc_segments (n_points seed : Z) (ctr : vec2) (rad ang1 ang2 : float)
  : stateM rng (list vec2 * list vec2) :=
  _ ← seed_global seed;
  sp ← spaces n_points;
  let angs := List.map (fun c => ang1 + (ang2 - ang1) * c) (cumsum sp) in
  let normals := List.map (fun a => (np_cos a, np_sin a)) angs in
  let points := List.map (fun n : vec2 => (fst ctr + rad * fst n, snd ctr + rad * snd n))
                         normals in
  mret (points, normals).

(** [segments]: [Contour2D.segments] stacks the segments of the
    components, the two subclasses override it. *)
Fixpoint segments (c : Contour2D) : stateM rng (list vec2 * list vec2) :=
  match c with
  | Contour _ _ _ contours =>
      (fix each (cs : list Contour2D) (points normals : list vec2)
         : stateM rng (list vec2 * list vec2) :=
         match cs with
         | [] => mret (points, normals)
         | contour :: cs' =>
             pn ← segments contour;
             each cs' (points ++ fst pn) (normals ++ snd pn)
         end) contours [] []
  | LineContour _ n_points seed start end_ => line_segments n_points seed start end_
  | ArcContour _ n_points seed ctr rad ang1 ang2 =>
      arc_segments n_points seed ctr rad ang1 ang2
  end.

(** [offsets[0] = [0]; offsets[-1] = [0]]. *)
Definition zero_ends (offsets : list float) : result (list float) :=
  match offsets with
  | [] => Raise IndexError
  | _ :: rest =>
      let o1 := 0 :: rest in
      Ok (List.removelast o1 ++ [0])
  end.

(** [points + offsets * normals], row by row. *)
Fixpoint offset_points (points : list vec2) (offsets : list float) (normals : list vec2)
  : result (list vec2) :=
  match points, offsets, normals with
  | [], [], [] => Ok []
  | p :: ps, o :: os, n :: ns =>
      rest ← offset_points ps os ns;
      Ok ((fst p + o * fst n, snd p + o * snd n) :: rest)
  | _, _, _ => Raise (ValueError "operands could not be broadcast together")
  end.

(** [Contour2D.jagged_points]. *)
Definition jagged_points (c : Contour2D) : stateM rng (list vec2) :=
  _ ← seed_global (get_seed c);
  pn ← segments c;
  offsets ← np_random_uniform (- get_jaggedness c) (get_jaggedness c)
                              (List.length (fst pn));
  lift (o ← zero_ends offsets; offset_points (fst pn) o (snd pn)).

End Random.

End Contour.

(* ===================================================================== *)
(** ** projects/001_2d_flatness_calc/flatness_visualizer_2d.py *)
(* ===================================================================== *)

Module Flatness.

Import Np.
Local Open Scope float_scope.

(** The variables of [calc_flatness] that live across the passes of its
    [while] loop.  [p0_dir] and [p1_dir] are assigned inside the [for]
    loop only: [None] is the unbound local variable. *)
Record roll : Type := mkRoll {
  p0 : vec2;
  p1 : vec2;
  p0_slope : vec2;
  p1_slope : vec2;
  p0_dir : option vec2;
  p1_dir : option vec2;
  flatness_step_vals : list float;
  slope_vals : list vec2;
  p0_vals : list vec2;
  p1_vals : list vec2
}.

(** The arrays one pass of the [for] loop fills. *)
Record tables : Type := mkTables {
  t_p0_dir : option vec2;
  t_p1_dir : option vec2;
  p0_dirs : list vec2;
  p0_dot_prods : list float;
  p1_dirs : list vec2;
  p1_dot_prods : list float
}.

(** The unit vector from [p] to [point]: [x ** 2] is [x * x], [** .5]
    the square root. *)
Definition direction (p point : vec2) : vec2 :=
  let dist :=
    PrimFloat.sqrt ((fst point - fst p) * (fst point - fst p)
                    + (snd point - snd p) * (snd point - snd p)) in
  ((fst point - fst p) / dist, (snd point - snd p) / dist).

(** Reading a local variable. *)
Definition local (name : string) (v : option vec2) : result vec2 :=
  match v with
  | Some d => Ok d
  | None => Raise (UnboundLocalError name)
  end.

(** The body of [for i in range(np.size(points, 0))] at [point]. *)
Definition assess (r : roll) (t : tables) (point : vec2) : result tables :=
  (* Assess p0 *)
  let '(dir0, dirs0) :=
    if negb (array_equal point (p0 r))
    then (Some (direction (p0 r) point), p0_dirs t ++ [direction (p0 r) point])
    else (t_p0_dir t, p0_dirs t ++ [(0, 0)]) in
  d0 ← local "p0_dir" dir0;
  let dots0 := p0_dot_prods t ++ [dot2 (p0_slope r) d0] in
  (* Assess p1 *)
  let '(dir1, dirs1) :=
    if negb (array_equal point (p1 r))
    then (Some (direction (p1 r) point), p1_dirs t ++ [direction (p1 r) point])
    else (t_p1_dir t, p1_dirs t ++ [(0, 0)]) in
  d1 ← local "p1_dir" dir1;
  let dots1 := p1_dot_prods t ++ [dot2 (p1_slope r) d1] in
  Ok (mkTables dir0 dir1 dirs0 dots0 dirs1 dots1).

Fixpoint assess_all (r : roll) (t : tables) (points : list vec2) : result tables :=
  match points with
  | [] => Ok t
  | point :: rest => t' ← assess r t point; assess_all r t' rest
  end.

Definition neg2 (v : vec2) : vec2 := (- fst v, - snd v).
Definition nth2 (i : nat) (l : list vec2) : vec2 := List.nth i l (nan, nan).

(** One pass of the [while] loop. *)
Definition roll_once (points : list vec2) (r : roll) : result roll :=
  t ← assess_all r (mkTables (p0_dir r) (p1_dir r) [] [] [] []) points;
  let p0_max_dp := max (p0_dot_prods t) in
  let p0_max_dp_index := argmax (p0_dot_prods t) in
  let p1_max_dp := max (p1_dot_prods t) in
  let p1_max_dp_index := argmax (p1_dot_prods t) in
  let '(q0, q1, s0, s1) :=
    if p1_max_dp <=? p0_max_dp then
      let s := nth2 p0_max_dp_index (p0_dirs t) in
      (nth2 p0_max_dp_index points, p1 r, s, neg2 s)
    else
      let s := nth2 p1_max_dp_index (p1_dirs t) in
      (p0 r, nth2 p1_max_dp_index points, neg2 s, s) in
  let p01 : vec2 := (fst q1 - fst q0, snd q1 - snd q0) in
  let flat_normal : vec2 := (- snd s0, fst s0) in
  let flatness_step_val := abs (dot2 p01 flat_normal) in
  Ok (mkRoll q0 q1 s0 s1 (t_p0_dir t) (t_p1_dir t)
        (flatness_step_vals r ++ [flatness_step_val])
        (slope_vals r ++ [s0]) (p0_vals r ++ [q0]) (p1_vals r ++ [q1])).

(** The test of the [while] loop. *)
Definition rolling (points : list vec2) (n0 n1 : nat) (r : roll) : bool :=
  negb (array_equal (p0 r) (nth2 n1 points))
  && negb (array_equal (p1 r) (nth2 n0 points)).

(** The [while] loop, for at most [fuel] passes: [None] when the loop is
    still running after them. *)
Fixpoint roll_around (fuel : nat) (points : list vec2) (n0 n1 : nat) (r : roll)
  : option (result roll) :=
  if rolling points n0 n1 r then
    match fuel with
    | O => None
    | S f =>
        match roll_once points r with
        | Ok r' => roll_around f points n0 n1 r'
        | Raise e => Some (Raise e)
        end
    end
  else Some (Ok r).

(** The state before the loop. *)
Definition start_roll (points : list vec2) : result (nat * nat * roll) :=
  match points with
  | [] => Raise (ValueError "attempt to get argmin of an empty sequence")
  | _ =>
      let n0 := argmin (List.map snd points) in
      let n1 := argmax (List.map snd points) in
      Ok (n0, n1,
          mkRoll (nth2 n0 points) (nth2 n1 points) (1, 0) (-1, 0)
                 None None [] [] [] [])
  end.

(** [calc_flatness(points, data=True)], the loop run for at most [fuel]
    passes. *)
Definition calc_flatness_data (fuel : nat) (points : list vec2)
  : option (result (float * roll)) :=
  match start_roll points with
  | Raise e => Some (Raise e)
  | Ok (n0, n1, r) =>
      match roll_around fuel points n0 n1 r with
      | None => None
      | Some (Raise e) => Some (Raise e)
      | Some (Ok r') =>
          match flatness_step_vals r' with
          | [] => Some (Raise (ValueError "zero-size array to reduction operation minimum"))
          | vals => Some (Ok (min vals, r'))
          end
      end
  end.

(** General position, as the specification asks for it: the points are
    pairwise distinct and no three of them lie on a line. *)
Fixpoint distinct_points (points : list vec2) : bool :=
  match points with
  | [] => true
  | p :: rest => List.forallb (fun q => negb (array_equal p q)) rest && distinct_points rest
  end.

Definition collinear (p q r : vec2) : bool :=
  (fst q - fst p) * (snd r - snd p) - (snd q - snd p) * (fst r - fst p) =? 0.

Fixpoint no_three_collinear (points : list vec2) : bool :=
  match points with
  | [] => true
  | p :: rest =>
      (fix pairs (l : list vec2) : bool :=
         match l with
         | [] => true
         | q :: l' => List.forallb (fun r => negb (collinear p q r)) l' && pairs l'
         end) rest
      && no_three_collinear rest
  end.

Definition general_position (points : list vec2) : bool :=
  distinct_points points && no_three_collinear points.

(** [calc_flatness(points)]. *)
Definition calc_flatness (fuel : nat) (points : list vec2) : option (result float) :=
  match calc_flatness_data fuel points with
  | None => None
  | Some (Raise e) => Some (Raise e)
  | Some (Ok (flatness, _)) => Some (Ok flatness)
  end.

(** The rectangle of the specification. *)
Definition rectangle : list vec2 := [(0, 0); (10, 0); (10, 1); (0, 1)].

(** Four points in general position: no two equal, no three on a line;
    all the coordinates are small integers. *)
Definition kite : list vec2 := [(2, 1); (0, 0); (1, 5); (4, 3)].

(** The anchors and slopes of [calc_flatness] on [kite] after its second
    pass: [p0] has rolled onto [points[0]] and stays there with slope
    [(0, 0)]. *)
Definition stuck (vals : list float) (slopes p0s p1s : list vec2) : roll :=
  mkRoll (2, 1) (1, 5) (0, 0) (-0, -0)
         (Some (direction (2, 1) (4, 3))) (Some (direction (1, 5) (4, 3)))
         vals slopes p0s p1s.

End Flatness.

(* ===================================================================== *)
(** ** animator/scene.py: the scene and its script *)
(* ===================================================================== *)

Module SceneModel.

Import Np EntityModel.

Definition key_eqb (a b : key) : bool :=
  match a, b with
  | KStr s, KStr t => String.eqb s t
  | KInt i, KInt j => Z.eqb i j
  | _, _ => false
  end.

(** A Python [dict] from aliases to entities, in insertion order.  The
    entities of a scene are held by value: each alias owns its entity, so
    [deepcopy] of an entity is the entity. *)
Definition dict : Type := list (key * Entity).

Fixpoint dict_get (k : key) (d : dict) : option Entity :=
  match d with
  | [] => None
  | (k', v) :: d' => if key_eqb k k' then Some v else dict_get k d'
  end.

(** [d[k] = v]. *)
Fixpoint dict_set (k : key) (v : Entity) (d : dict) : dict :=
  match d with
  | [] => [(k, v)]
  | (k', v') :: d' =>
      if key_eqb k k' then (k', v) :: d' else (k', v') :: dict_set k v d'
  end.

(** [d.update(new)]. *)
Definition dict_update (d new : dict) : dict :=
  List.fold_left (fun acc kv => dict_set (fst kv) (snd kv) acc) new d.

Definition deepcopy (e : Entity) : Entity := e.
Definition deepcopy_dict (d : dict) : dict :=
  List.map (fun kv => (fst kv, deepcopy (snd kv))) d.

(** What [print] writes. *)
Inductive line : Type :=
| Failed                       (* FAILED to execute instruction *)
| FrameNo (i : Z)              (* frame no:  i *)
| Elapsed (t : float)          (* time:  t *)
| Instruction (text : string)  (* instruction:  "text" *)
| Blank
| Getting (i end_frame : Z).   (* Getting frame no i of end_frame *)

(** The attributes of a [Scene].  [entities] is a reference to a [dict]
    object ([__init__] stores the object it is given), [entities_init] is
    the scene's own copy. *)
Record Scene : Type := mkScene {
  width : Z;
  height : Z;
  resolution : float;
  entities : loc;
  entities_init : dict;
  background : list Z;
  origin : Z * Z;
  script : gmap Z (list string);
  current_frame : Z;
  fps : Z
}.

Definition with_script (s : gmap Z (list string)) (sc : Scene) : Scene :=
  mkScene (width sc) (height sc) (resolution sc) (entities sc) (entities_init sc)
          (background sc) (origin sc) s (current_frame sc) (fps sc).
Definition with_current_frame (n : Z) (sc : Scene) : Scene :=
  mkScene (width sc) (height sc) (resolution sc) (entities sc) (entities_init sc)
          (background sc) (origin sc) (script sc) n (fps sc).
Definition with_entities_init (d : dict) (sc : Scene) : Scene :=
  mkScene (width sc) (height sc) (resolution sc) (entities sc) d
          (background sc) (origin sc) (script sc) (current_frame sc) (fps sc).

(** The [dict] objects of the program, by reference. *)
Abbreviation store := (gmap loc dict).

(** The object that [def __init__(..., entities={}, ...)] creates once,
    when the class is defined, and binds to the parameter in every call
    that leaves [entities] out. *)
Definition entities_default : loc := 1%positive.

(** The store when the class has just been defined. *)
Definition initial_store : store := {[ entities_default := [] ]}.

(** The state a method of a scene runs in: the [dict] objects, the scene
    itself, and the output written so far. *)
Record pystate : Type := mkState {
  dicts : store;
  self : Scene;
  stdout : list line
}.

(** [self.entities], dereferenced. *)
Definition the_entities (st : pystate) : dict := dicts st !!! entities (self st).

Definition set_entities (d : dict) (st : pystate) : pystate :=
  mkState (<[entities (self st) := d]> (dicts st)) (self st) (stdout st).
Definition set_self (sc : Scene) (st : pystate) : pystate :=
  mkState (dicts st) sc (stdout st).

(** [Scene.add_instruction]. *)
Definition add_instruction (frame_no : Z) (instruction : string) (sc : Scene) : Scene :=
  let slot := match script sc !! frame_no with
              | Some l => l
              | None => []
              end in
  with_script (<[frame_no := slot ++ [instruction]]> (script sc)) sc.

(** [Scene.__init__]: [None] for a parameter left out. *)
Definition Scene_init (w : store) (width height : Z) (resolution : float) (fps : Z)
    (entities : option loc) (background : option (list Z)) : Scene :=
  let el := match entities with
            | Some l => l
            | None => entities_default
            end in
  let bg := match background with
            | Some b => b
            | None => [0; 0; 0]
            end in
  add_instruction 0 EmptyString
    (mkScene width height resolution el (deepcopy_dict (w !!! el)) bg
             (width / 2, height / 2) ∅ 0 fps).

(** [Scene.add_entities]. *)
Definition add_entities (new_entities : dict) : stateM pystate unit :=
  fun st =>
    let st1 := set_entities (dict_update (the_entities st) new_entities) st in
    (set_self (with_entities_init
                 (dict_update (entities_init (self st1)) (deepcopy_dict new_entities))
                 (self st1)) st1,
     Ok tt).

(** The loop of [Scene.reset]:
    [self.entities[i] = deepcopy(self.entities_init[i])]. *)
Fixpoint reset_each (indices : list Z) : stateM pystate unit :=
  match indices with
  | [] => mret tt
  | i :: rest =>
      fun st =>
        match dict_get (KInt i) (entities_init (self st)) with
        | None => (st, Raise (KeyError (KInt i)))
        | Some e =>
            reset_each rest (set_entities (dict_set (KInt i) (deepcopy e) (the_entities st)) st)
        end
  end.

(** [Scene.reset]. *)
Definition reset : stateM pystate unit :=
  fun st =>
    match reset_each (range 0 (Z.of_nat (List.length (the_entities st)))) st with
    | (st', Ok _) => (set_self (with_current_frame 0 (self st')) st', Ok tt)
    | (st', Raise e) => (st', Raise e)
    end.

(** A scene created empty, as the specification words it: no registered
    entity and no scheduled instruction, whatever was constructed and
    populated before (the store [w]) and whatever the arguments are. *)
Definition created_empty : Prop :=
  forall (w : store) (width height : Z) (resolution : float) (fps : Z)
         (background : option (list Z)),
    let sc := Scene_init w width height resolution fps None background in
    w !!! entities sc = [] /\ script sc = ∅.

Section Replay.

(** Python's [exec] on an instruction of the script: what the snippet
    does to the entities of the scene, and the exception when it raises. *)
Variable exec : string -> dict -> dict * option exn.

(** The rasterization backend: the blank image with its background, and
    [Entity.add_to_image], which draws the entity on the image or raises
    (the [draw_self] of a contour raises where its [jagged_points]
    does). *)
Variable image : Type.
Variable blank_image : Z -> Z -> list Z -> image.
Variable add_to_image : Entity -> float -> Z * Z -> image -> result image.

(** The entities and the output: what replaying the script changes. *)
Definition world : Type := dict * list line.

(** [print("time: ", i / self.fps)]. *)
Definition elapsed (i fps : Z) : result float :=
  if fps =? 0 then Raise ZeroDivisionError
  else Ok (of_Z i / of_Z fps)%float.

(** [try: exec(instruction)] with its [except] clause, at frame [i]. *)
Definition execute (fps i : Z) (instruction : string) : stateM world unit :=
  fun w =>
    match exec instruction (fst w) with
    | (d, None) => ((d, snd w), Ok tt)
    | (d, Some e) =>
        match elapsed i fps with
        | Raise e' => ((d, snd w ++ [Failed; FrameNo i]), Raise e')
        | Ok t =>
            ((d, snd w ++ [Failed; FrameNo i; Elapsed t; Instruction instruction; Blank]),
             Raise e)
        end
    end.

(** [for instruction in self.script[i]]. *)
Fixpoint execute_all (fps i : Z) (instructions : list string) : stateM world unit :=
  match instructions with
  | [] => mret tt
  | instruction :: rest =>
      _ ← execute fps i instruction;
      execute_all fps i rest
  end.

(** [for i in range(self.current_frame, frame_no)], over the frames
    [frames]. *)
Fixpoint replay (script : gmap Z (list string)) (fps : Z) (frames : list Z)
  : stateM world unit :=
  match frames with
  | [] => mret tt
  | i :: rest =>
      _ ← match script !! i with
          | Some instructions => execute_all fps i instructions
          | None => mret tt
          end;
      replay script fps rest
  end.

(** The loop of [set_frame_no] on the entities of the scene. *)
Definition replay_scene (frame_no : Z) : stateM pystate unit :=
  fun st =>
    let sc := self st in
    match replay (script sc) (fps sc) (range (current_frame sc) frame_no)
                 (the_entities st, stdout st) with
    | ((d, out), r) => (mkState (<[entities sc := d]> (dicts st)) sc out, r)
    end.

(** [Scene.set_frame_no]; with [display] the method reads [img], which it
    never binds. *)
Definition set_frame_no (frame_no : Z) (display : bool) : stateM pystate unit :=
  fun st =>
    (_ ← (if frame_no <? current_frame (self st) then reset else mret tt);
     _ ← replay_scene frame_no;
     _ ← (fun st' => (set_self (with_current_frame frame_no (self st')) st', Ok tt));
     if display then raise (NameError "img") else mret tt) st.

(** [for alias, entity in self.entities.items():
    entity.add_to_image(img, self.resolution, self.origin)]: the entities
    [d] drawn on [img] in the order of the dict; the first exception ends
    the loop. *)
Fixpoint draw_all (resolution : float) (origin : Z * Z) (d : dict) (img : image)
  : result image :=
  match d with
  | [] => Ok img
  | (_, entity) :: rest =>
      img' ← add_to_image entity resolution origin img;
      draw_all resolution origin rest img'
  end.

(** [Scene.capture_frame]. *)
Definition capture_frame (st : pystate) : result image :=
  let sc := self st in
  draw_all (resolution sc) (origin sc) (the_entities st)
           (blank_image (height sc) (width sc) (background sc)).


(** [max(self.script.keys())]. *)
Definition last_frame (script : gmap Z (list string)) : result Z :=
  match List.map fst (map_to_list script) with
  | [] => Raise (ValueError "max() arg is an empty sequence")
  | k :: ks => Ok (List.fold_left Z.max ks k)
  end.

(** The loop of [get_frames]. *)
Fixpoint frames_loop (indices : list Z) (end_frame : Z) (status : bool)
    (frames : list image) : stateM pystate (list image) :=
  match indices with
  | [] => mret frames
  | i :: rest =>
      _ ← (fun st =>
             if status && ((i mod 10 =? 0) || (i =? end_frame))
             then (mkState (dicts st) (self st) (stdout st ++ [Getting i end_frame]), Ok tt)
             else (st, Ok tt));
      _ ← set_frame_no i false;
      img ← (fun st => (st, capture_frame st));
      frames_loop rest end_frame status (frames ++ [img])
  end.

(** [Scene.get_frames]: [None] for [end_frame] left out. *)
Definition get_frames (start_frame : Z) (end_frame : option Z) (status : bool)
  : stateM pystate (list image) :=
  fun st =>
    match (match end_frame with
           | Some e => Ok e
           | None => last_frame (script (self st))
           end) with
    | Raise e => (st, Raise e)
    | Ok e => frames_loop (range start_frame (e + 1)) e status [] st
    end.

End Replay.

(** The meaning of the instructions that [animation.slide] writes,
    [self.entities['alias'].move(dpos=[x, y, z])]: a [KeyError] for an
    alias that is not registered. *)
Definition slide_instruction (alias : string) (dpos : vec3) : dict -> dict * option exn :=
  fun d =>
    match dict_get (KStr alias) d with
    | None => (d, Some (KeyError (KStr alias)))
    | Some e => (dict_set (KStr alias) (move e None (Some dpos) None None) d, None)
    end.

(** Two instruction texts and the empty instruction, as [exec] runs
    them; the table has no other text. *)
Definition slide_disk : string := "self.entities['disk'].move(dpos=[1.0, 0.0, 0.0])".
Definition slide_ghost : string := "self.entities['ghost'].move(dpos=[1.0, 0.0, 0.0])".

Definition py_exec (instruction : string) : dict -> dict * option exn :=
  if String.eqb instruction EmptyString then fun d => (d, None)
  else if String.eqb instruction slide_disk then slide_instruction "disk" (V3 1 0 0)
  else if String.eqb instruction slide_ghost then slide_instruction "ghost" (V3 1 0 0)
  else fun d => (d, Some (ValueError "instruction outside the model")).

(** The disk of [projects/000_template_ani]. *)
Definition disk : Entity :=
  mkEntity 1 true [200; 50; 50] 1 None zero3 identity3 [].

(** [scene = Scene(1920, 1080, 272., 60)] and
    [scene.add_entities({"disk": disk})], when the class has just been
    defined. *)
Definition template_scene : pystate :=
  fst (add_entities [(KStr "disk", disk)]
         (mkState initial_store (Scene_init initial_store 1920 1080 272%float 60 None None) [])).

(** The template scene with one relative move at frame 0:
    [scene.add_instruction(0, "self.entities['disk'].move(dpos=[1.0, 0.0, 0.0])")]. *)
Definition sliding_scene : pystate :=
  set_self (add_instruction 0 slide_disk (self template_scene)) template_scene.

(** The scene after [set_frame_no(1)]: the disk has moved. *)
Definition sliding_scene_at_1 : pystate :=
  fst (set_frame_no py_exec 1 false sliding_scene).

(** The same scene with an instruction for an alias that is not
    registered at frame 5:
    [scene.add_instruction(5, "self.entities['ghost'].move(dpos=[1.0, 0.0, 0.0])")]. *)
Definition ghost_scene : pystate :=
  set_self (add_instruction 5 slide_ghost (self sliding_scene)) sliding_scene.

(** A stand-in for the rasterization backend: an image is the list of
    the entities drawn on it, in the order they were drawn; every entity
    can be drawn. *)
Definition display_list : Type := list Entity.
Definition no_entity (height width : Z) (background : list Z) : display_list := [].
Definition draw_entity (e : Entity) (resolution : float) (origin : Z * Z)
    (img : display_list) : result display_list := Ok (img ++ [e]).




Definition still_ghost_scene : pystate :=
  let st :=
    fst (add_entities [(KStr "disk", disk)]
           (mkState initial_store
                    (Scene_init initial_store 1920 1080 272%float 0 None None) [])) in
  set_self (add_instruction 5 slide_ghost (self st)) st.

End SceneModel.

(* ===================================================================== *)
(** * Scenes: what [reset] and another script make of a scene *)
(* ===================================================================== *)

Module SceneOps.

Import Np EntityModel SceneModel.

(** What the loop of [reset] makes of the entities [d], over the indices
    it has passed. *)
Definition restored (init : dict) (indices : list Z) (d : dict) : dict :=
  List.fold_left
    (fun d i => match dict_get (KInt i) init with
                | Some e => dict_set (KInt i) e d
                | None => d
                end) indices d.

(** The state [st] with another script. *)
Definition rescript (s' : gmap Z (list string)) (st : pystate) : pystate :=
  set_self (with_script s' (self st)) st.

(** A scene whose one entity is registered under the integer 0, moved
    away from its snapshot. *)
Definition numbered_scene : pystate :=
  mkState {[ 2%positive := [(KInt 0, move disk None (Some (V3 1 0 0)) None None)] ]}
          (mkScene 640 480 1 2%positive [(KInt 0, disk)] [0; 0; 0] (320, 240)
                   {[ 0 := [EmptyString] ]} 3 60)
          [].

End SceneOps.

(* ===================================================================== *)
(** * The rest of [Entity] and its constructors *)
(* ===================================================================== *)

Module EntityOps.

Import Np EntityModel.
Local Open Scope float_scope.

(** [Entity.get_opacity(self)]: the product of the opacities up the
    chain of parents, the entity's own first. *)
Fixpoint get_opacity_from (depth : nat) (h : heap) (self : loc) : result float :=
  match depth with
  | O => Raise RecursionError
  | S d =>
      e ← deref h self;
      match parent e with
      | None => Ok (opacity e)
      | Some p =>
          g ← get_opacity_from d h p;
          Ok (opacity e * g)
      end
  end.

Definition get_opacity (h : heap) (self : loc) : result float :=
  get_opacity_from recursion_limit h self.

(** [Entity.__init__]: the new object [self] gets the attributes
    [attrs] with an empty list of components, and then
    [self.add_components(components)]. *)
Definition Entity_init (self : loc) (attrs : Entity) (components : arg) (h : heap)
  : heap * option exn :=
  add_components self [components] (<[self := with_components [] attrs]> h).

(** [Contour2D.__init__] is [super().__init__(components=contours, ...)];
    [LineContour2D.__init__] and [ArcContour2D.__init__] are
    [super().__init__([self], ...)]. *)
Definition Contour2D_init (self : loc) (attrs : Entity) (contours : list arg) (h : heap)
  : heap * option exn :=
  Entity_init self attrs (AIterable contours) h.

Definition LineContour2D_init (self : loc) (attrs : Entity) (h : heap)
  : heap * option exn :=
  Contour2D_init self attrs [AEntity self] h.

Definition ArcContour2D_init (self : loc) (attrs : Entity) (h : heap)
  : heap * option exn :=
  Contour2D_init self attrs [AEntity self] h.




(** A node below a parent below a root, every one at its own place. *)
Definition three_deep : heap :=
  attach_all 2%positive [3%positive]
    (attach_all 1%positive [2%positive]
       (list_to_map
          [(1%positive, point_at 1 2 3); (2%positive, point_at 10 20 30);
           (3%positive, point_at 100 200 300)])).

End EntityOps.

(* ===================================================================== *)
(** * Contours: what their segments are made of *)
(* ===================================================================== *)

Module ContourOps.

Import Np Contour.
Local Open Scope float_scope.

(** A contour with a line or an arc somewhere below it (or that is
    one). *)
Fixpoint has_segment (c : Contour2D) : bool :=
  match c with
  | Contour _ _ _ contours => List.existsb has_segment contours
  | LineContour _ _ _ _ _ | ArcContour _ _ _ _ _ _ _ => true
  end.

(** The number of points the lines and arcs of a contour are divided
    into: the sum of their [n_points]. *)
Fixpoint total_points (c : Contour2D) : Z :=
  match c with
  | Contour _ _ _ contours =>
      List.fold_right (fun c acc => total_points c + acc)%Z 0%Z contours
  | LineContour _ n_points _ _ _ | ArcContour _ n_points _ _ _ _ _ => n_points
  end.

(** Every line and arc of the contour has at least one point and a seed
    that [accepted] holds of. *)
Fixpoint segments_ok (accepted : Z -> bool) (c : Contour2D) : bool :=
  match c with
  | Contour _ _ _ contours => List.forallb (segments_ok accepted) contours
  | LineContour _ n_points seed _ _ | ArcContour _ n_points seed _ _ _ _ =>
      (1 <=? n_points)%Z && accepted seed
  end.

Section Stack.

Variable rng : Type.
Variable np_random_seed : Z -> result rng.
Variable np_random_dirichlet : list float -> stateM rng (list float).
Variable np_cos : float -> float.
Variable np_sin : float -> float.

(** The loop of [Contour2D.segments] from the arrays [points] and
    [normals] stacked so far. *)
Fixpoint stack (cs : list Contour2D) (points normals : list vec2)
  : stateM rng (list vec2 * list vec2) :=
  match cs with
  | [] => mret (points, normals)
  | contour :: cs' =>
      pn ← segments rng np_random_seed np_random_dirichlet np_cos np_sin contour;
      stack cs' (points ++ fst pn) (normals ++ snd pn)
  end.

End Stack.

(** Two runs that end the same way: with the same value in the same
    state of the generator, or with the same exception. *)
Definition same_outcome {S A : Type} (r1 r2 : S * result A) : Prop :=
  match r1 with
  | (s, Ok v) => r2 = (s, Ok v)
  | (_, Raise e) => exists s', r2 = (s', Raise e)
  end.

(** A generator for the examples: it has one state, accepts the seeds
    numpy accepts, and draws a constant. *)
Definition toy_seed (s : Z) : result unit :=
  if ((0 <=? s) && (s <? 2 ^ 32))%Z then Ok tt
  else Raise (ValueError "Seed must be between 0 and 2**32 - 1").
Definition toy_dirichlet (alpha : list float) : stateM unit (list float) :=
  fun g => (g, Ok (List.map (fun _ => 1 / of_nat (List.length alpha)) alpha)).
Definition toy_uniform (lo hi : float) (k : nat) : stateM unit (list float) :=
  fun g => (g, Ok (List.repeat ((lo + hi) / 2) k)).

(** A line of four points and an arc of three, in a contour. *)
Definition two_segments (seed : Z) : Contour2D :=
  Contour 4 2 seed
    [LineContour 3 4 0 (100, -50) (300, -50);
     ArcContour 5 3 7 (300, -100) 50 0 1].

End ContourOps.

(* ===================================================================== *)
(** * [animation]: writing the script *)
(* ===================================================================== *)

Module Animation.

Import Np EntityModel Funcs SceneModel.

(** A Python number: an [int] or a [float]. *)
Inductive pynum : Type :=
| PInt (z : Z)
| PFloat (x : float).

(** What a call of this module comes to: it returns, it raises one of
    the exceptions of the scene, or it raises [OverflowError]. *)
Inductive outcome (A : Type) : Type :=
| Done (a : A)
| Fails (e : exn)
| Overflows (msg : string).
Arguments Done {A} a.
Arguments Fails {A} e.
Arguments Overflows {A} msg.

#[global] Instance outcome_ret : MRet outcome := fun A a => Done a.
#[global] Instance outcome_bind : MBind outcome := fun A B k r =>
  match r with
  | Done a => k a
  | Fails e => Fails e
  | Overflows msg => Overflows msg
  end.

Definition of_result {A : Type} (r : result A) : outcome A :=
  match r with
  | Ok a => Done a
  | Raise e => Fails e
  end.

(** [int(x)] on a float: the integer part, towards zero. *)
Definition int_of_float (x : float) : outcome Z :=
  match Prim2SF x with
  | S754_nan => Fails (ValueError "cannot convert float NaN to integer")
  | S754_infinity _ => Overflows "cannot convert float infinity to integer"
  | S754_zero _ => Done 0
  | S754_finite s m e =>
      let magnitude := if 0 <=? e then Z.pos m * 2 ^ e else Z.pos m / 2 ^ (- e) in
      Done (if s then - magnitude else magnitude)
  end.

(** The float of an [int], as the product of a float and an [int] takes
    it. *)
Definition float_of_int (z : Z) : outcome float :=
  if is_infinity (of_Z z) then Overflows "int too large to convert to float"
  else Done (of_Z z).

(** [t * scene.fps], for an [int] or a [float] [t]. *)
Definition times (t : pynum) (fps : Z) : outcome pynum :=
  match t with
  | PInt z => Done (PInt (z * fps))
  | PFloat x => f ← float_of_int fps; Done (PFloat (x * f)%float)
  end.

(** [int(v)]. *)
Definition py_int (v : pynum) : outcome Z :=
  match v with
  | PInt z => Done z
  | PFloat x => int_of_float x
  end.

(** [nframes = max(1, int(duration * scene.fps))]. *)
Definition nframes (duration : pynum) (fps : Z) : outcome Z :=
  v ← times duration fps;
  k ← py_int v;
  Done (Z.max 1 k).

(** [t_start == -1]. *)
Definition appends (t_start : pynum) : bool :=
  match t_start with
  | PInt z => z =? -1
  | PFloat x => (x =? -1)%float
  end.

(** [frame_start]: [max(scene.script.keys())] to append, else
    [int(t_start * scene.fps)]. *)
Definition frame_start (sc : Scene) (t_start : pynum) : outcome Z :=
  if appends t_start then of_result (last_frame (script sc))
  else v ← times t_start (fps sc); py_int v.

(** [animation.pause]. *)
Definition pause (sc : Scene) (duration : pynum) : outcome Scene :=
  n ← nframes duration (fps sc);
  m ← of_result (last_frame (script sc));
  Done (add_instruction (m + n) EmptyString sc).

(** [for i in range(nframes): scene.add_instruction(frame_start + i, cmd)]. *)
Definition sweep (fs : Z) (cmd : string) (indices : list Z) (sc : Scene) : Scene :=
  List.fold_left (fun sc i => add_instruction (fs + i) cmd sc) indices sc.

(** [animation.sweep_cmd] and [animation.set_cmd]. *)
Definition sweep_cmd (sc : Scene) (duration : pynum) (cmd : string) (t_start : pynum)
  : outcome Scene :=
  n ← nframes duration (fps sc);
  fs ← frame_start sc t_start;
  Done (sweep fs cmd (range 0 n) sc).

Definition set_cmd (sc : Scene) (cmd : string) (t_start : pynum) : outcome Scene :=
  sweep_cmd sc (PInt (-1)) cmd t_start.

Section Slide.

(** libm, and the text of the instruction
    [self.entities["alias"].move(dpos=[...])] for an alias and a list of
    floats. *)
Variable np_cos : float -> float.
Variable np_exp : float -> float.
Variable move_dpos : string -> list float -> string.

(** [values[i] - values[i-1]]. *)
Definition row_sub (a b : list float) : list float :=
  List.map (fun p => (fst p - snd p)%float) (List.combine a b).

(** The loop of [slide] from the index [i], [prev] being [values[i-1]]
    and [rows] the rows from [values[i]] on. *)
Fixpoint slide_steps (fs i : Z) (alias : string) (prev : list float)
    (rows : list (list float)) (sc : Scene) : Scene :=
  match rows with
  | [] => sc
  | cur :: rest =>
      slide_steps fs (i + 1) alias cur rest
        (add_instruction (fs + i) (move_dpos alias (row_sub cur prev)) sc)
  end.

(** [animation.slide]; [slide_disp] has three components, as [np.zeros(3)]
    has. *)
Definition slide (sc : Scene) (duration : pynum) (entity_alias : string)
    (slide_disp : vec3) (profile : string) (t_start : pynum) : outcome Scene :=
  n ← nframes duration (fps sc);
  let values :=
    span np_cos np_exp [0; 0; 0]%float [vx slide_disp; vy slide_disp; vz slide_disp]
         n profile in
  fs ← frame_start sc t_start;
  match values with
  | [] => Done sc
  | [v] => Done (add_instruction fs (move_dpos entity_alias v) sc)
  | v0 :: rest => Done (slide_steps fs 1 entity_alias v0 rest sc)
  end.

End Slide.

(** The scene of [projects/000_template_ani] as [Scene(...)] and
    [add_entities] leave it. *)
Definition template : Scene := self template_scene.

(** A stand-in for the text of a move. *)
Definition move_text (alias : string) (dpos : list float) : string :=
  ("move " ++ alias)%string.

End Animation.

(* ===================================================================== *)
(** * Properties *)
(* ===================================================================== *)

(** ** [span]: the end points *)

Section SpanFacts.

Import Np EntityModel Funcs.
Local Open Scope float_scope.

Lemma hd_map_nonempty {A B : Type} (f : A -> B) (l : list A) (d : A) (d' : B) :
  l <> [] -> List.hd d' (List.map f l) = f (List.hd d l).
Proof. destruct l as [|x l]; [congruence | reflexivity]. Qed.

Lemma last_map_nonempty {A B : Type} (f : A -> B) (l : list A) (d : A) (d' : B) :
  l <> [] -> List.last (List.map f l) d' = f (List.last l d).
Proof.
  induction l as [|x l IH]; [congruence |].
  intros _. destruct l as [|y l]; [reflexivity |].
  change (List.last (List.map f (y :: l)) d' = f (List.last (y :: l) d)).
  apply IH. discriminate.
Qed.

Lemma linspace_nonempty (a b : float) (n : nat) :
  (2 <= n)%nat -> linspace a b n <> [].
Proof. destruct n as [|[|k]]; [lia | lia | discriminate]. Qed.

Lemma linspace_hd (a b d : float) (n : nat) :
  (2 <= n)%nat -> List.hd d (linspace a b n) = a.
Proof. destruct n as [|[|k]]; [lia | lia | reflexivity]. Qed.

Lemma linspace_last (a b d : float) (n : nat) :
  (2 <= n)%nat -> List.last (linspace a b n) d = b.
Proof.
  destruct n as [|[|k]]; [lia | lia | intros _].
  unfold linspace. rewrite app_comm_cons. apply List.last_last.
Qed.

Section Libm.

Variable np_cos : float -> float.
Variable np_exp : float -> float.

Lemma profile_shape_nonempty (profile : string) (n : nat) :
  (2 <= n)%nat -> profile_shape np_cos np_exp profile n <> [].
Proof.
  intros Hn. pose proof (linspace_nonempty 0 1 n Hn).
  pose proof (linspace_nonempty 1 0 n Hn).
  pose proof (linspace_nonempty 0 pi n Hn).
  pose proof (linspace_nonempty (-0.5) 0.5 n Hn).
  unfold profile_shape.
  repeat match goal with |- context [String.eqb ?a ?b] => destruct (String.eqb a b) end;
    try assumption;
    intros E; apply List.map_eq_nil in E; contradiction.
Qed.

(** The two end samples of a profile do not depend on the number of
    samples. *)
Lemma profile_shape_ends (profile : string) (n : nat) :
  (2 <= n)%nat ->
  List.hd 0 (profile_shape np_cos np_exp profile n)
  = List.hd 0 (profile_shape np_cos np_exp profile 2)
  /\ List.last (profile_shape np_cos np_exp profile n) 0
     = List.last (profile_shape np_cos np_exp profile 2) 0.
Proof.
  intros Hn. unfold profile_shape.
  repeat match goal with |- context [String.eqb ?a ?b] => destruct (String.eqb a b) end;
    repeat match goal with
      | |- context [List.hd _ (List.map ?f (linspace ?a ?b n))] =>
          rewrite (hd_map_nonempty f (linspace a b n) 0)
            by (apply linspace_nonempty; exact Hn)
      | |- context [List.last (List.map ?f (linspace ?a ?b n)) _] =>
          rewrite (last_map_nonempty f (linspace a b n) 0)
            by (apply linspace_nonempty; exact Hn)
      end;
    rewrite ?linspace_hd, ?linspace_last by exact Hn;
    split; reflexivity.
Qed.

Lemma round_end_points_ends (shape : list float) :
  shape <> [] ->
  List.hd 0 (round_end_points shape)
  = (List.hd 0 shape - List.hd 0 shape)
    * (1 / (List.last shape 0 - List.hd 0 shape))
  /\ List.last (round_end_points shape) 0
     = (List.last shape 0 - List.hd 0 shape)
       * (1 / (List.last shape 0 - List.hd 0 shape)).
Proof.
  intros Hne. unfold round_end_points.
  assert (Hs : List.map (fun x => x - List.hd 0 shape) shape <> []).
  { intros E. apply List.map_eq_nil in E. contradiction. }
  rewrite (hd_map_nonempty _ _ 0 0 Hs), (last_map_nonempty _ _ 0 0 Hs).
  rewrite (hd_map_nonempty _ _ 0 0 Hne), (last_map_nonempty _ _ 0 0 Hne).
  split; reflexivity.
Qed.

(** With more than one sample the rounded shape starts and ends with the
    coefficients of the profile. *)
Lemma rounded_shape_ends (profile : string) (n : nat) :
  (2 <= n)%nat ->
  List.hd 0 (round_end_points (profile_shape np_cos np_exp profile n))
  = fst (end_coefficients np_cos np_exp profile)
  /\ List.last (round_end_points (profile_shape np_cos np_exp profile n)) 0
     = snd (end_coefficients np_cos np_exp profile).
Proof.
  intros Hn. unfold end_coefficients. cbn [fst snd].
  destruct (round_end_points_ends _ (profile_shape_nonempty profile n Hn)) as [-> ->].
  destruct (round_end_points_ends _ (profile_shape_nonempty profile 2 (le_n 2)))
    as [-> ->].
  destruct (profile_shape_ends profile n Hn) as [-> ->].
  split; reflexivity.
Qed.

Lemma outer_from_row (start end_ : list float) (s : float) :
  List.map (fun p => fst p + s * snd p)
    (List.combine start
       (List.map (fun p => snd p - fst p) (List.combine start end_)))
  = zip_with (fun a b => a + s * (b - a)) start end_.
Proof.
  revert end_. induction start as [|a start IH]; intros [|b end_]; try reflexivity.
  cbn. f_equal. apply IH.
Qed.

Lemma outer_from_rows (start end_ shape : list float) :
  outer_from start end_ shape
  = List.map (fun s => zip_with (fun a b => a + s * (b - a)) start end_) shape.
Proof.
  unfold outer_from. apply List.map_ext. intros s. apply outer_from_row.
Qed.

(** The rounded shape of the three algebraic profiles runs from [0] to
    [1], whatever libm is. *)
Lemma end_coefficients_algebraic (profile : string) :
  In profile ["linear"; "quadratic"; "neg_quadratic"]%string ->
  end_coefficients np_cos np_exp profile = (0, 1).
Proof.
  intros [<- | [<- | [<- | []]]]; reflexivity.
Qed.

(** So does the sinusoid, for a cosine that is exact at [0] and at
    [np.pi]. *)
Lemma end_coefficients_sinusoid :
  np_cos 0 = 1 -> np_cos pi = -1 ->
  end_coefficients np_cos np_exp "sinusoid" = (0, 1).
Proof.
  intros H0 Hpi. unfold end_coefficients, profile_shape, round_end_points.
  cbn. rewrite H0, Hpi. reflexivity.
Qed.

(** And the sigmoid, for the values glibc's [exp] takes at [5] and
    [-5]. *)
Lemma end_coefficients_sigmoid :
  np_exp 5 = 0x1.28d389970338fp+7 -> np_exp (-5) = 0x1.b993fe00d5376p-8 ->
  end_coefficients np_cos np_exp "sigmoid" = (0, 1).
Proof.
  intros H5 Hm5. unfold end_coefficients, profile_shape, round_end_points.
  cbn. change (-10 * -0.5) with 5. change (-10 * 0.5) with (-5).
  rewrite H5, Hm5. reflexivity.
Qed.

(** C2, as amended.  For more than one sample and a profile whose
    rounded shape runs from 0 to 1 (the three algebraic profiles always,
    [end_coefficients_algebraic]), the first row of [span] is
    [start + 0 * (end - start)] and the last row is
    [start + 1 * (end - start)], computed in binary64: the rows the
    specification calls [start] and [end], up to the rounding of these
    two expressions. *)
Theorem span_end_points (start end_ : list float) (n_elems : Z) (profile : string) :
  (1 < n_elems)%Z ->
  List.length start = List.length end_ ->
  end_coefficients np_cos np_exp profile = (0, 1) ->
  List.hd [] (span np_cos np_exp start end_ n_elems profile)
  = zip_with (fun a b => a + 0 * (b - a)) start end_
  /\ List.last (span np_cos np_exp start end_ n_elems profile) []
     = zip_with (fun a b => a + 1 * (b - a)) start end_.
Proof.
  intros Hn _ Hc. unfold span.
  destruct (Z.leb_spec n_elems 1) as [Hle | _]; [lia |].
  assert (Hn2 : (2 <= Z.to_nat n_elems)%nat) by lia.
  set (shape := round_end_points (profile_shape np_cos np_exp profile (Z.to_nat n_elems))).
  assert (Hne : shape <> []).
  { unfold shape, round_end_points. intros E.
    apply List.map_eq_nil in E. apply List.map_eq_nil in E.
    exact (profile_shape_nonempty profile _ Hn2 E). }
  destruct (rounded_shape_ends profile _ Hn2) as [Hhd Hlast].
  fold shape in Hhd, Hlast. rewrite Hc in Hhd, Hlast. cbn [fst snd] in Hhd, Hlast.
  rewrite outer_from_rows.
  rewrite (hd_map_nonempty _ shape 0 [] Hne), (last_map_nonempty _ shape 0 [] Hne).
  rewrite Hhd, Hlast. split; reflexivity.
Qed.

End Libm.

(** The amended claim at work: five samples of the quadratic profile
    between two vectors (libm is not consulted for this profile). *)
Lemma span_end_points_witness :
  List.hd [] (span (fun _ => nan) (fun _ => nan) [0; 2] [10; 4] 5 "quadratic")
  = [0; 2]
  /\ List.last (span (fun _ => nan) (fun _ => nan) [0; 2] [10; 4] 5 "quadratic") []
     = [10; 4].
Proof.
  exact (span_end_points (fun _ => nan) (fun _ => nan) [0; 2] [10; 4] 5 "quadratic"
           eq_refl eq_refl eq_refl).
Defined.

(** C2 as stated fails: between [start = 1] and [end = 2^-60] the linear
    profile with two samples is [[1], [0]], because [2^-60 - 1] rounds
    to [-1]; the last element is [0], not [end].  No choice of libm
    functions makes the end points exact for every input. *)
Lemma span_end_points_not_exact :
  ~ exists np_cos np_exp : float -> float, span_end_points_exact np_cos np_exp.
Proof.
  intros (c & e & H).
  destruct (H 1 0x1p-60 2%Z "linear"%string) as [_ Hlast].
  - reflexivity.
  - left. reflexivity.
  - vm_compute in Hlast. discriminate Hlast.
Qed.

End SpanFacts.

(** ** Scene nodes: global frames and attaching children *)

Section EntityFacts.

Import Np EntityModel.
Local Open Scope float_scope.

Lemma deref_some (h : heap) (l : loc) (e : Entity) :
  h !! l = Some e -> deref h l = Ok e.
Proof. intros Hl. unfold deref. rewrite Hl. reflexivity. Qed.

Lemma gpos_from_root (d : nat) (h : heap) (l : loc) (e : Entity) (v : vec3) :
  h !! l = Some e -> parent e = None ->
  gpos_from (S d) h l v = Ok v.
Proof.
  intros Hl Hp. cbn [gpos_from]. rewrite (deref_some h l e Hl).
  change (match parent e with
          | Some p => pe ← deref h p; gpos_from d h p (vadd (pos pe) (mat_vec (ori pe) v))
          | None => Ok v
          end = Ok v).
  rewrite Hp. reflexivity.
Qed.

Lemma gori_from_root (d : nat) (h : heap) (l : loc) (e : Entity) :
  h !! l = Some e -> parent e = None ->
  gori_from (S d) h l = Ok identity3.
Proof.
  intros Hl Hp. cbn [gori_from]. rewrite (deref_some h l e Hl).
  change (match parent e with
          | Some p => g ← gori_from d h p; Ok (mat_mul (ori e) g)
          | None => Ok identity3
          end = Ok identity3).
  rewrite Hp. reflexivity.
Qed.

(** C7, as amended.  For a node without a parent [gpos] returns the
    node's own stored position, whatever it is, and [gori] returns the
    identity, whatever the stored orientation is. *)
Theorem root_globals (h : heap) (l : loc) (e : Entity) :
  h !! l = Some e -> parent e = None ->
  gpos h l = Ok (pos e) /\ gori h l = Ok identity3.
Proof.
  intros Hl Hp. split.
  - unfold gpos. rewrite (deref_some h l e Hl).
    change recursion_limit with (S 999).
    exact (gpos_from_root 999 h l e (pos e) Hl Hp).
  - unfold gori. change recursion_limit with (S 999).
    exact (gori_from_root 999 h l e Hl Hp).
Qed.

Lemma root_globals_witness :
  gpos {[ 1%positive := point_at 1 2 3 ]} 1%positive = Ok (V3 1 2 3)
  /\ gori {[ 1%positive := point_at 1 2 3 ]} 1%positive = Ok identity3.
Proof.
  exact (root_globals {[ 1%positive := point_at 1 2 3 ]} 1%positive (point_at 1 2 3)
           eq_refl eq_refl).
Defined.

(** C7 as stated fails: the root node at [1, 2, 3] has global position
    [1, 2, 3], not the zero vector. *)
Lemma root_position_not_zero : ~ root_frame_globals.
Proof.
  intros H.
  assert (Hl : ({[ 1%positive := point_at 1 2 3 ]} : heap) !! 1%positive
               = Some (point_at 1 2 3)) by reflexivity.
  destruct (H _ _ _ Hl eq_refl) as [Hpos _].
  vm_compute in Hpos. discriminate Hpos.
Qed.

(** Global position composes along the chain of parents: three nested
    nodes at local [1, 0, 0] put the leaf at [3, 0, 0]. *)
Example gpos_three_nested :
  let h : heap :=
    attach 2%positive 3%positive
      (attach 1%positive 2%positive
         (list_to_map [(1%positive, point_at 1 0 0); (2%positive, point_at 1 0 0);
                       (3%positive, point_at 1 0 0)])) in
  gpos h 3%positive = Ok (V3 3 0 0).
Proof. vm_compute. reflexivity. Qed.

(** [add_components] on one argument does what [attach_leaves] does on
    its leaves. *)
Lemma attach_leaves_app (self : loc) (l1 l2 : list (loc + string)) (h : heap) :
  attach_leaves self (l1 ++ l2) h
  = match attach_leaves self l1 h with
    | (h', None) => attach_leaves self l2 h'
    | (h', Some e) => (h', Some e)
    end.
Proof.
  revert h. induction l1 as [|[l | r] l1 IH]; intros h; cbn; [reflexivity | apply IH | reflexivity].
Qed.

Lemma add_component_leaves (self : loc) (a : arg) :
  forall h, add_component self a h = attach_leaves self (leaves a) h.
Proof.
  revert a. fix IH 1. intros [l | xs | repr] h; [reflexivity | | reflexivity].
  cbn [add_component leaves]. revert h.
  induction xs as [|x xs IHxs]; intros h; [reflexivity |].
  rewrite attach_leaves_app, <- (IH x h).
  destruct (add_component self x h) as [h' [e |]]; [reflexivity | apply IHxs].
Qed.

Lemma attach_leaves_entities (self : loc) (good : list loc) (rest : list (loc + string))
    (h : heap) :
  attach_leaves self (List.map inl good ++ rest) h
  = attach_leaves self rest (attach_all self good h).
Proof.
  revert h. induction good as [|l good IH]; intros h; [reflexivity | apply IH].
Qed.



(** Nothing is mutated when the offending value comes first. *)
Corollary add_components_rejects_first (self : loc) (args : list arg) (h : heap)
    (bad : string) (rest : list (loc + string)) :
  leaves (AIterable args) = inr bad :: rest ->
  add_components self args h = (h, Some (ValueError (bad ++ " is not an Entity."))).
Proof.
  intros Hl. unfold add_components. rewrite add_component_leaves, Hl. reflexivity.
Qed.

(** Without such a value every entity is attached and nothing is raised. *)
Lemma add_components_accepts (self : loc) (args : list arg) (h : heap) (good : list loc) :
  leaves (AIterable args) = List.map inl good ->
  add_components self args h = (attach_all self good h, None).
Proof.
  intros Hl. unfold add_components.
  rewrite add_component_leaves, Hl, <- (app_nil_r (List.map inl good)).
  rewrite attach_leaves_entities. reflexivity.
Qed.


End EntityFacts.

(** ** [dist_to_poly]: the return contract *)

Section DistFacts.

Import Np EntityModel Funcs.
Local Open Scope float_scope.

Lemma sign_absorbed (b : bool) : (if b then (-1) else (-1)) = (-1)%float.
Proof. destruct b; reflexivity. Qed.

Lemma edge_step_cases (a n pg : vec3) (st : float * float) (e : vec3 * vec3) :
  edge_step a n pg st e
  = if crossing n pg e then
      if negative (fwd_dist a n pg e) then (fst st, -1)
      else if fwd_dist a n pg e <? fst st then (fwd_dist a n pg e, snd st)
      else st
    else st.
Proof.
  unfold edge_step, crossing, negative, fwd_dist.
  destruct (0 <? dot3 n (vsub (fst e) pg) * dot3 n (vsub (snd e) pg)); reflexivity.
Qed.

(** The loop of [dist_to_poly] keeps the least forward distance that is
    not negative and remembers whether a negative one was met. *)
Lemma fold_edge_step (a n pg : vec3) (es : list (vec3 * vec3)) (m s : float) :
  List.fold_left (edge_step a n pg) es (m, s)
  = (List.fold_left (fun m d => if d <? m then d else m)
       (List.filter (fun d => negb (negative d))
          (List.map (fwd_dist a n pg) (List.filter (crossing n pg) es))) m,
     if List.existsb negative
          (List.map (fwd_dist a n pg) (List.filter (crossing n pg) es))
     then -1 else s).
Proof.
  revert m s. induction es as [|e es IH]; intros m s; [reflexivity |].
  cbn [List.fold_left List.filter]. rewrite edge_step_cases. cbn [fst snd].
  destruct (crossing n pg e).
  - cbn [List.map List.filter List.existsb].
    destruct (negative (fwd_dist a n pg e)); cbn [negb orb].
    + rewrite IH, sign_absorbed. reflexivity.
    + cbn [List.fold_left].
      destruct (fwd_dist a n pg e <? m); rewrite IH; reflexivity.
  - apply IH.
Qed.

(** C4, as amended.  [dist_to_poly] returns the least forward distance
    that is not negative among the crossings, negated when some crossing
    has a negative forward distance; so it returns [+infinity] when no
    edge crosses the ray at all, and [-infinity] when edges cross it but
    only behind the point. *)
Theorem dist_to_poly_contract (h : heap) (poly point : loc) (dir : vec3)
    (vertices : list vec3) (pg : vec3) :
  get_points h poly = Ok vertices -> vertices <> [] -> gpos h point = Ok pg ->
  let ds := crossings (ray_axis dir) (ray_normal dir) pg vertices in
  dist_to_poly h poly point dir = Ok (signed_distance ds)
  /\ (ds = [] -> dist_to_poly h poly point dir = Ok inf)
  /\ (ds <> [] -> List.forallb negative ds = true ->
      dist_to_poly h poly point dir = Ok neg_infinity).
Proof.
  intros Hv Hne Hp ds.
  assert (E : dist_to_poly h poly point dir = Ok (signed_distance ds)).
  { unfold dist_to_poly. rewrite Hv. cbn [mbind result_bind].
    destruct vertices as [|v0 vs]; [congruence |].
    rewrite Hp. cbn [mbind result_bind].
    rewrite fold_edge_step. cbn [fst snd]. reflexivity. }
  split; [exact E |]. split.
  - intros Hd. rewrite E, Hd. reflexivity.
  - intros Hd Hall. rewrite E. unfold signed_distance.
    assert (Hex : List.existsb negative ds = true).
    { destruct ds as [|d ds']; [congruence |].
      cbn in Hall |- *. apply andb_prop in Hall as [-> _]. reflexivity. }
    assert (Hf : List.filter (fun d => negb (negative d)) ds = []).
    { clear Hex Hd E. induction ds as [|d ds' IH]; [reflexivity |].
      cbn in Hall |- *. apply andb_prop in Hall as [-> Hall]. cbn. exact (IH Hall). }
    rewrite Hex, Hf. reflexivity.
Qed.

(** From [(2, 0)] heading away from the square, both crossings lie
    behind the point: the result is [-infinity]. *)
Lemma dist_to_poly_contract_witness :
  dist_to_poly unit_square 1%positive 6%positive (V3 1 0 0) = Ok neg_infinity.
Proof.
  refine (proj2 (proj2 (dist_to_poly_contract unit_square 1%positive 6%positive (V3 1 0 0)
                          square_vertices (V3 2 0 0) _ _ _)) _ _).
  - vm_compute. reflexivity.
  - discriminate.
  - vm_compute. reflexivity.
  - vm_compute. discriminate.
  - vm_compute. reflexivity.
Defined.

(** The examples of the specification: [1.5] towards the square from
    [(2, 0)], a negative distance from inside. *)
Example dist_to_poly_towards :
  dist_to_poly unit_square 1%positive 6%positive (V3 (-1) 0 0) = Ok 1.5.
Proof. vm_compute. reflexivity. Qed.

Example dist_to_poly_inside :
  dist_to_poly unit_square 1%positive 7%positive (V3 (-1) 0 0) = Ok (-0.75).
Proof. vm_compute. reflexivity. Qed.

(** C4 as stated fails in its last clause: from [(2, 0)] heading away
    from the square no crossing lies ahead, and the result is
    [-infinity], not [+infinity]. *)
Lemma dist_to_poly_behind_not_inf : ~ inf_without_forward_crossing.
Proof.
  intros H.
  assert (Hv : get_points unit_square 1%positive = Ok square_vertices)
    by (vm_compute; reflexivity).
  assert (Hp : gpos unit_square 6%positive = Ok (V3 2 0 0))
    by (vm_compute; reflexivity).
  specialize (H unit_square 1%positive 6%positive (V3 1 0 0) _ _ Hv Hp).
  assert (Hd : dist_to_poly unit_square 1%positive 6%positive (V3 1 0 0)
               = Ok neg_infinity) by (vm_compute; reflexivity).
  rewrite Hd in H.
  assert (Hinf : @Ok float neg_infinity = Ok inf) by (apply H; vm_compute; reflexivity).
  vm_compute in Hinf. discriminate Hinf.
Qed.

End DistFacts.

(** ** Jagged contours: the same seed, the same points *)

Section ContourFacts.

Import Np Contour.
Local Open Scope float_scope.

Variable rng : Type.
Variable np_random_seed : Z -> result rng.
Variable np_random_dirichlet : list float -> stateM rng (list float).
Variable np_random_uniform : float -> float -> nat -> stateM rng (list float).
Variable np_cos : float -> float.
Variable np_sin : float -> float.

Local Abbreviation jagged :=
  (jagged_points rng np_random_seed np_random_dirichlet np_random_uniform np_cos np_sin).

(** What [jagged_points] returns does not depend on the state the global
    generator is in when it is called: the call seeds it first. *)
Lemma jagged_points_ignores_generator (c : Contour2D) (g1 g2 : rng) :
  snd (jagged c g1) = snd (jagged c g2).
Proof.
  unfold jagged_points, seed_global, mbind, stateM_bind.
  destruct (np_random_seed (get_seed c)); reflexivity.
Qed.

(** C9.  Evaluating [jagged_points] a second time, in whatever state the
    first evaluation (and anything that drew from the generator in
    between) left the generator, returns the same points, bit for bit;
    the same exception when it raises. *)
Theorem jagged_points_deterministic (c : Contour2D) (g g' : rng) :
  snd (jagged c g') = snd (jagged c g)
  /\ snd (jagged c (fst (jagged c g))) = snd (jagged c g).
Proof.
  split; apply jagged_points_ignores_generator.
Qed.

End ContourFacts.

(** ** [calc_flatness]: the loop that rolls around the points *)

Section FlatnessFacts.

Import Np Flatness.
Local Open Scope float_scope.

(** C3.  On the rectangle [calc_flatness] does not return 1: the point
    with the least [y] is [points[0]], so the first pass of the [for]
    loop takes the [else] branch for [p0] and then reads [p0_dir], which
    no pass has assigned yet. *)
Theorem calc_flatness_rectangle (fuel : nat) :
  calc_flatness (S fuel) rectangle = Some (Raise (UnboundLocalError "p0_dir")).
Proof. reflexivity. Qed.

(** The same for every point set whose lowest point comes first, as soon
    as the loop is entered: the first pass reads [p0_dir] unbound. *)
Lemma assess_anchor_first (r : roll) (point : vec2) (rest : list vec2) :
  array_equal point (p0 r) = true -> p0_dir r = None ->
  assess_all r (mkTables (p0_dir r) (p1_dir r) [] [] [] []) (point :: rest)
  = Raise (UnboundLocalError "p0_dir").
Proof.
  intros Heq Hdir. cbn [assess_all]. unfold assess. cbn [p0_dirs t_p0_dir].
  rewrite Heq, Hdir. reflexivity.
Qed.

Lemma calc_flatness_lowest_first (fuel : nat) (point : vec2) (rest : list vec2) :
  let points := point :: rest in
  let n1 := argmax (List.map snd points) in
  argmin (List.map snd points) = O ->
  array_equal point point = true ->
  rolling points O n1
    (mkRoll point (nth2 n1 points) (1, 0) (-1, 0) None None [] [] [] []) = true ->
  calc_flatness (S fuel) points = Some (Raise (UnboundLocalError "p0_dir")).
Proof.
  cbv zeta. intros Hmin Hrefl Hroll.
  unfold calc_flatness, calc_flatness_data, start_roll.
  rewrite Hmin. change (nth2 0 (point :: rest)) with point.
  cbn [roll_around]. rewrite Hroll. unfold roll_once.
  rewrite (assess_anchor_first
             (mkRoll point (nth2 (argmax (List.map snd (point :: rest))) (point :: rest))
                     (1, 0) (-1, 0) None None [] [] [] [])
             point rest Hrefl eq_refl).
  reflexivity.
Qed.

Lemma stuck_rolls_on (vals : list float) (slopes p0s p1s : list vec2) :
  rolling kite 1 2 (stuck vals slopes p0s p1s) = true
  /\ roll_once kite (stuck vals slopes p0s p1s)
     = Ok (stuck (vals ++ [0]) (slopes ++ [(0, 0)]) (p0s ++ [(2, 1)]) (p1s ++ [(1, 5)])).
Proof. split; vm_compute; reflexivity. Qed.

Lemma stuck_forever (fuel : nat) :
  forall (vals : list float) (slopes p0s p1s : list vec2),
    roll_around fuel kite 1 2 (stuck vals slopes p0s p1s) = None.
Proof.
  induction fuel as [|fuel IH]; intros vals slopes p0s p1s;
    destruct (stuck_rolls_on vals slopes p0s p1s) as [Hc Hr];
    cbn [roll_around]; rewrite Hc; [reflexivity |].
  rewrite Hr. apply IH.
Qed.

(** The first pass moves [p0] onto [points[0]], the second one leaves it
    there and sets the slopes to zero. *)
Lemma kite_gets_stuck :
  exists (vals : list float) (slopes p0s p1s : list vec2) (r1 : roll),
    roll_once kite (mkRoll (0, 0) (1, 5) (1, 0) (-1, 0) None None [] [] [] []) = Ok r1
    /\ rolling kite 1 2 r1 = true
    /\ roll_once kite r1 = Ok (stuck vals slopes p0s p1s).
Proof.
  do 5 eexists. split; [vm_compute; reflexivity |].
  split; [vm_compute; reflexivity |].
  match goal with
  | |- ?l = _ => let v := eval vm_compute in l in change l with v
  end.
  unfold stuck.
  match goal with
  | |- context [direction ?a ?b] =>
      let v := eval vm_compute in (direction a b) in change (direction a b) with v
  end.
  match goal with
  | |- context [direction ?a ?b] =>
      let v := eval vm_compute in (direction a b) in change (direction a b) with v
  end.
  reflexivity.
Qed.

(** C10.  On [kite], a point set in general position, the loop of
    [calc_flatness] never stops: however many passes it is given, it is
    still running after them.  In the second pass the entry of
    [p0_dot_prods] for [p0] itself is computed from the direction left in
    [p0_dir] by the pass before, and it is the largest. *)
Theorem calc_flatness_kite_diverges :
  general_position kite = true
  /\ forall fuel : nat, calc_flatness fuel kite = None.
Proof.
  split; [vm_compute; reflexivity |].
  intros fuel.
  assert (H : roll_around fuel kite 1 2
                (mkRoll (0, 0) (1, 5) (1, 0) (-1, 0) None None [] [] [] []) = None).
  { destruct fuel as [|[|fuel]]; [reflexivity | reflexivity |].
    destruct kite_gets_stuck as (vals & slopes & p0s & p1s & r1 & H1 & H2).
    cbn [roll_around].
    change (rolling kite 1 2 (mkRoll (0, 0) (1, 5) (1, 0) (-1, 0) None None [] [] [] []))
      with true.
    cbv iota. rewrite H1.
    destruct H2 as [Hc H2]. rewrite Hc, H2.
    apply stuck_forever. }
  unfold calc_flatness, calc_flatness_data.
  change (start_roll kite)
    with (Ok (1%nat, 2%nat, mkRoll (0, 0) (1, 5) (1, 0) (-1, 0) None None [] [] [] [])).
  cbv iota beta. rewrite H. reflexivity.
Qed.

End FlatnessFacts.

(** ** The scene: construction, seeking and batch replay *)

Section SceneFacts.

Import Np EntityModel SceneModel.

(** C8, as amended.  A new scene has one scheduled instruction, the
    empty one at frame 0 (its script is never empty), and its cursor at
    frame 0; it registers the entities of the [dict] object it is given
    (the object itself, with [entities_init] a copy of what it holds), so
    none when that object is empty, as the default object is when the
    class has just been defined. *)
Theorem Scene_init_state (w : store) (width height : Z) (resolution : float) (fps : Z)
    (ents : option loc) (background : option (list Z)) :
  let sc := Scene_init w width height resolution fps ents background in
  script sc = {[ 0 := [EmptyString] ]}
  /\ current_frame sc = 0
  /\ entities sc = match ents with
                    | Some l => l
                    | None => entities_default
                    end
  /\ entities_init sc = deepcopy_dict (w !!! entities sc)
  /\ initial_store !!! entities_default = ([] : dict).
Proof.
  cbv zeta. unfold Scene_init, add_instruction. cbn.
  rewrite lookup_empty. cbn. rewrite insert_empty.
  repeat split; reflexivity.
Qed.

(** C8 as stated fails: the script of a new scene is never empty. *)
Lemma Scene_init_script_not_empty : ~ created_empty.
Proof.
  intros H.
  destruct (H initial_store 1920 1080 272%float 60 None) as [_ Hs].
  apply (f_equal (fun m : gmap Z (list string) => m !! 0)) in Hs.
  vm_compute in Hs. discriminate Hs.
Qed.

(** Nor are its entities, for a scene constructed with the default
    arguments after another such scene was given its entities: the two
    share the default object of [__init__]. *)
Lemma Scene_init_shares_default :
  let sc := Scene_init (dicts template_scene) 1920 1080 272%float 60 None None in
  dicts template_scene !!! entities sc = [(KStr "disk", disk)]
  /\ entities_init sc = [(KStr "disk", disk)].
Proof. vm_compute. split; reflexivity. Qed.

Section Exec.

Variable exec : string -> dict -> dict * option exn.

(** C1.  Seeking backwards raises instead of resetting, as soon as the
    scene has an entity and [entities_init] has no key [0] (the aliases
    are strings): [reset] reads [self.entities_init[0]].  Nothing is
    reset and nothing is replayed. *)
Theorem backward_seek_raises (st : pystate) (frame_no : Z) :
  frame_no < current_frame (self st) ->
  the_entities st <> [] ->
  dict_get (KInt 0) (entities_init (self st)) = None ->
  set_frame_no exec frame_no false st = (st, Raise (KeyError (KInt 0))).
Proof.
  intros Hlt Hne Hget. unfold set_frame_no.
  destruct (Z.ltb_spec frame_no (current_frame (self st))) as [_ | Hge]; [| lia].
  assert (Hr : reset st = (st, Raise (KeyError (KInt 0)))).
  { unfold reset, range.
    destruct (the_entities st) as [|kv d] eqn:Hd; [congruence |].
    rewrite seqZ_cons by (cbn [List.length]; lia).
    cbn [reset_each]. rewrite Hget. reflexivity. }
  unfold mbind, stateM_bind. rewrite Hr. reflexivity.
Qed.

End Exec.

Lemma direct_seek :
  set_frame_no py_exec 1 false sliding_scene = (sliding_scene_at_1, Ok tt)
  /\ pos <$> dict_get (KStr "disk") (the_entities sliding_scene_at_1) = Some (V3 1 0 0).
Proof. split; vm_compute; reflexivity. Qed.

(** [seek(1); seek(0)] on that scene: the backward seek raises
    [KeyError: 0], so [seek(1); seek(0); seek(1)] never reaches its last
    call. *)
Lemma backward_seek_raises_witness :
  set_frame_no py_exec 0 false sliding_scene_at_1
  = (sliding_scene_at_1, Raise (KeyError (KInt 0))).
Proof.
  refine (backward_seek_raises py_exec sliding_scene_at_1 0 _ _ _).
  - vm_compute. reflexivity.
  - vm_compute. discriminate.
  - vm_compute. reflexivity.
Defined.

Section BatchReplay.

Variable exec : string -> dict -> dict * option exn.
Variable image : Type.
Variable blank_image : Z -> Z -> list Z -> image.
Variable add_to_image : Entity -> float -> Z * Z -> image -> result image.

Lemma range_empty (a : Z) : range a a = [].
Proof. unfold range. apply seqZ_nil. lia. Qed.

Lemma range_cons (a b : Z) : a < b -> range a b = a :: range (a + 1) b.
Proof.
  intros H. unfold range. rewrite seqZ_cons by lia.
  f_equal. f_equal; lia.
Qed.

Lemma range_one (a : Z) : range a (a + 1) = [a].
Proof. rewrite range_cons by lia. rewrite range_empty. reflexivity. Qed.

(** An instruction that does not raise prints nothing, and what it does
    to the entities does not depend on what was printed before. *)
Lemma execute_ok (fps i : Z) (ins : string) (d d' : dict) (out out' : list line) :
  execute exec fps i ins (d, out) = ((d', out'), Ok tt) ->
  out' = out /\ forall out2, execute exec fps i ins (d, out2) = ((d', out2), Ok tt).
Proof.
  unfold execute. cbn [fst snd].
  destruct (exec ins d) as [d1 [e |]].
  - destruct (elapsed i fps); discriminate.
  - intros H. injection H as <- <-. split; [reflexivity | intros out2; reflexivity].
Qed.

Lemma execute_all_ok (fps i : Z) (l : list string) :
  forall (d d' : dict) (out out' : list line),
    execute_all exec fps i l (d, out) = ((d', out'), Ok tt) ->
    out' = out /\ forall out2, execute_all exec fps i l (d, out2) = ((d', out2), Ok tt).
Proof.
  induction l as [|ins l IH]; intros d d' out out'.
  - cbn. intros H. injection H as <- <-. split; [reflexivity | intros; reflexivity].
  - cbn [execute_all]. unfold mbind, stateM_bind.
    destruct (execute exec fps i ins (d, out)) as [[d1 out1] [[] | e]] eqn:E; [| discriminate].
    intros H. destruct (execute_ok _ _ _ _ _ _ _ E) as [-> E2].
    destruct (IH _ _ _ _ H) as [-> H2].
    split; [reflexivity |]. intros out2. rewrite E2. apply H2.
Qed.

Lemma execute_all_app (fps i : Z) (l1 l2 : list string) (w : world) :
  execute_all exec fps i (l1 ++ l2) w
  = match execute_all exec fps i l1 w with
    | (w', Ok _) => execute_all exec fps i l2 w'
    | (w', Raise e) => (w', Raise e)
    end.
Proof.
  revert w. induction l1 as [|ins l1 IH]; intros w; [reflexivity |].
  cbn [app execute_all]. unfold mbind, stateM_bind.
  destruct (execute exec fps i ins w) as [w1 [[] | e]]; [apply IH | reflexivity].
Qed.

Lemma replay_ok (script : gmap Z (list string)) (fps : Z) (frames : list Z) :
  forall (d d' : dict) (out out' : list line),
    replay exec script fps frames (d, out) = ((d', out'), Ok tt) ->
    out' = out
    /\ forall out2, replay exec script fps frames (d, out2) = ((d', out2), Ok tt).
Proof.
  induction frames as [|i frames IH]; intros d d' out out'.
  - cbn. intros H. injection H as <- <-. split; [reflexivity | intros; reflexivity].
  - cbn [replay]. unfold mbind, stateM_bind.
    destruct (script !! i) as [l |].
    + destruct (execute_all exec fps i l (d, out)) as [[d1 out1] [[] | e]] eqn:E;
        [| discriminate].
      intros H. destruct (execute_all_ok _ _ _ _ _ _ _ E) as [-> E2].
      destruct (IH _ _ _ _ H) as [-> H2].
      split; [reflexivity |]. intros out2. rewrite E2. apply H2.
    + cbn. intros H. destruct (IH _ _ _ _ H) as [-> H2].
      split; [reflexivity |]. intros out2. apply H2.
Qed.



(** A forward seek whose replay does not raise stores the replayed
    entities and moves the cursor. *)
Lemma seek_forward_ok (s : pystate) (n : Z) (d' : dict) :
  current_frame (self s) <= n ->
  replay exec (script (self s)) (fps (self s)) (range (current_frame (self s)) n)
         (the_entities s, stdout s) = ((d', stdout s), Ok tt) ->
  set_frame_no exec n false s
  = (mkState (<[entities (self s) := d']> (dicts s))
             (with_current_frame n (self s)) (stdout s), Ok tt).
Proof.
  intros Hle Hr. unfold set_frame_no.
  destruct (Z.ltb_spec n (current_frame (self s))) as [Hlt | _]; [lia |].
  unfold mbind at 1, stateM_bind at 1. cbn [mret stateM_ret].
  unfold mbind at 1, stateM_bind at 1.
  unfold replay_scene. rewrite Hr.
  unfold mbind at 1, stateM_bind at 1. reflexivity.
Qed.








End BatchReplay.




(** With [fps = 0] the report itself fails: printing the time divides by
    [fps], the call raises [ZeroDivisionError] and the report stops after
    the frame number. *)
Lemma get_frames_zero_fps :
  exists sF,
    get_frames py_exec display_list no_entity draw_entity 0 (Some 10) true
      still_ghost_scene = (sF, Raise ZeroDivisionError)
    /\ stdout sF = [Getting 0 10; Failed; FrameNo 5].
Proof. eexists. split; vm_compute; reflexivity. Qed.

(** A frame that cannot be drawn ends [get_frames] too, with the
    exception of the drawing and no report: the frame [start], whatever
    backend draws it. *)
Lemma get_frames_drawing_raises (exec : string -> dict -> dict * option exn)
    (image : Type) (blank_image : Z -> Z -> list Z -> image)
    (add_to_image : Entity -> float -> Z * Z -> image -> result image)
    (st s1 : pystate) (start_frame end_frame : Z) (e : exn) :
  start_frame <= end_frame ->
  set_frame_no exec start_frame false st = (s1, Ok tt) ->
  capture_frame image blank_image add_to_image s1 = Raise e ->
  get_frames exec image blank_image add_to_image start_frame (Some end_frame) false st
  = (s1, Raise e).
Proof.
  intros Hle Hseek Hdraw. unfold get_frames.
  rewrite (range_cons start_frame (end_frame + 1)) by lia. cbn [frames_loop].
  unfold mbind at 1, stateM_bind at 1. cbn [andb].
  unfold mbind at 1, stateM_bind at 1. rewrite Hseek.
  unfold mbind at 1, stateM_bind at 1. rewrite Hdraw. reflexivity.
Qed.


End SceneFacts.

(* ===================================================================== *)
(** * Further properties of the scene *)
(* ===================================================================== *)

Section SceneMore.

Import Np EntityModel SceneModel SceneOps.

(** ** Dictionaries *)

Lemma key_eqb_eq (a b : key) : key_eqb a b = true <-> a = b.
Proof.
  destruct a as [s | i], b as [t | j]; cbn.
  - rewrite String.eqb_eq. split; congruence.
  - split; discriminate.
  - split; discriminate.
  - rewrite Z.eqb_eq. split; congruence.
Qed.

Lemma key_eqb_refl (a : key) : key_eqb a a = true.
Proof. apply key_eqb_eq. reflexivity. Qed.

Lemma key_eqb_neq (a b : key) : a <> b -> key_eqb a b = false.
Proof.
  intros H. destruct (key_eqb a b) eqn:E; [| reflexivity].
  apply key_eqb_eq in E. contradiction.
Qed.

Lemma dict_get_set_eq (k : key) (v : Entity) (d : dict) :
  dict_get k (dict_set k v d) = Some v.
Proof.
  induction d as [|[k0 v0] d IH]; cbn.
  - rewrite key_eqb_refl. reflexivity.
  - destruct (key_eqb k k0) eqn:E; cbn; rewrite E; [reflexivity | exact IH].
Qed.

Lemma dict_get_set_ne (k k' : key) (v : Entity) (d : dict) :
  k <> k' -> dict_get k' (dict_set k v d) = dict_get k' d.
Proof.
  intros Hne. induction d as [|[k0 v0] d IH]; cbn.
  - rewrite key_eqb_neq by congruence. reflexivity.
  - destruct (key_eqb k k0) eqn:E; cbn.
    + apply key_eqb_eq in E. subst k0.
      rewrite key_eqb_neq by congruence. reflexivity.
    + destruct (key_eqb k' k0); [reflexivity | exact IH].
Qed.

Lemma dict_update_other (k : key) (new : dict) :
  forall d, ~ In k (List.map fst new) -> dict_get k (dict_update d new) = dict_get k d.
Proof.
  unfold dict_update. induction new as [|[k0 e0] new IH]; intros d Hin; [reflexivity |].
  cbn in Hin |- *. rewrite IH by tauto.
  apply dict_get_set_ne. intros ->. tauto.
Qed.

Lemma dict_update_new (k : key) (e : Entity) (new : dict) :
  forall d, List.NoDup (List.map fst new) -> In (k, e) new ->
            dict_get k (dict_update d new) = Some e.
Proof.
  induction new as [|[k0 e0] new IH]; intros d Hnd Hin; [destruct Hin |].
  cbn in Hnd. apply List.NoDup_cons_iff in Hnd as [Hnotin Hnd].
  destruct Hin as [Heq | Hin].
  - injection Heq as -> ->.
    change (dict_update d ((k, e) :: new)) with (dict_update (dict_set k e d) new).
    rewrite dict_update_other by exact Hnotin. apply dict_get_set_eq.
  - change (dict_update d ((k0, e0) :: new)) with (dict_update (dict_set k0 e0 d) new).
    apply IH; assumption.
Qed.

(** ** [add_entities] registers *)

(** X1.  After [add_entities(new_entities)] every alias of [new_entities]
    resolves to its entity, in the entities of the scene and in the snapshot
    [entities_init] alike, and every other alias resolves as before; the
    script and the cursor are untouched. *)
Theorem add_entities_registers (st : pystate) (new_entities : dict) :
  List.NoDup (List.map fst new_entities) ->
  let st' := fst (add_entities new_entities st) in
  (forall k e, In (k, e) new_entities ->
               dict_get k (the_entities st') = Some e
               /\ dict_get k (entities_init (self st')) = Some e)
  /\ (forall k, ~ In k (List.map fst new_entities) ->
                dict_get k (the_entities st') = dict_get k (the_entities st)
                /\ dict_get k (entities_init (self st'))
                   = dict_get k (entities_init (self st)))
  /\ script (self st') = script (self st)
  /\ current_frame (self st') = current_frame (self st).
Proof.
  intros Hnd st'.
  assert (He : the_entities st' = dict_update (the_entities st) new_entities).
  { unfold st', add_entities, the_entities. cbn. apply lookup_total_insert_eq. }
  assert (Hi : entities_init (self st')
               = dict_update (entities_init (self st)) (deepcopy_dict new_entities)).
  { reflexivity. }
  assert (Hcopy : deepcopy_dict new_entities = new_entities).
  { unfold deepcopy_dict, deepcopy. rewrite <- (List.map_id new_entities) at 2.
    apply List.map_ext. intros [k e]. reflexivity. }
  rewrite Hcopy in Hi. rewrite He, Hi.
  split; [| split; [| split; reflexivity]].
  - intros k e Hin. split; apply dict_update_new; assumption.
  - intros k Hin. split; apply dict_update_other; assumption.
Qed.

Lemma add_entities_registers_witness :
  dict_get (KStr "disk") (the_entities template_scene) = Some disk
  /\ dict_get (KStr "disk") (entities_init (self template_scene)) = Some disk.
Proof.
  refine (proj1 (add_entities_registers
                   (mkState initial_store
                      (Scene_init initial_store 1920 1080 272%float 60 None None) [])
                   [(KStr "disk", disk)] _) (KStr "disk") disk _).
  - repeat constructor. intros [].
  - left. reflexivity.
Defined.

End SceneMore.

Section ResetMore.

Import Np EntityModel SceneModel SceneOps.

Lemma restored_other (init : dict) (k : key) (indices : list Z) :
  forall d, (forall i, In i indices -> k <> KInt i) ->
            dict_get k (restored init indices d) = dict_get k d.
Proof.
  unfold restored. induction indices as [|i indices IH]; intros d Hk; [reflexivity |].
  cbn [List.fold_left]. rewrite IH by (intros j Hj; apply Hk; right; exact Hj).
  destruct (dict_get (KInt i) init); [| reflexivity].
  apply dict_get_set_ne. intros E. exact (Hk i (or_introl eq_refl) (eq_sym E)).
Qed.

Lemma restored_index (init : dict) (i : Z) (indices : list Z) :
  forall d, In i indices ->
            (forall j, In j indices -> dict_get (KInt j) init <> None) ->
            dict_get (KInt i) (restored init indices d) = dict_get (KInt i) init.
Proof.
  induction indices as [|j indices IH]; intros d Hin Hall; [destruct Hin |].
  change (restored init (j :: indices) d)
    with (restored init indices
            (match dict_get (KInt j) init with
             | Some e => dict_set (KInt j) e d
             | None => d
             end)).
  destruct (List.in_dec Z.eq_dec i indices) as [Hi | Hi].
  - apply IH; [exact Hi | intros k Hk; apply Hall; right; exact Hk].
  - destruct Hin as [-> | Hin]; [| contradiction].
    rewrite restored_other by (intros k Hk E; injection E as ->; contradiction).
    destruct (dict_get (KInt i) init) as [e |] eqn:E.
    + apply dict_get_set_eq.
    + exfalso. exact (Hall i (or_introl eq_refl) E).
Qed.

Lemma reset_each_ok (indices : list Z) :
  forall st, (forall i, In i indices -> dict_get (KInt i) (entities_init (self st)) <> None) ->
    exists st', reset_each indices st = (st', Ok tt)
                /\ self st' = self st /\ stdout st' = stdout st
                /\ the_entities st'
                   = restored (entities_init (self st)) indices (the_entities st).
Proof.
  induction indices as [|i indices IH]; intros st Hall.
  - exists st. repeat split; reflexivity.
  - cbn [reset_each].
    destruct (dict_get (KInt i) (entities_init (self st))) as [e |] eqn:E;
      [| exfalso; exact (Hall i (or_introl eq_refl) E)].
    set (st1 := set_entities (dict_set (KInt i) (deepcopy e) (the_entities st)) st).
    destruct (IH st1) as (st' & Hr & Hself & Hout & Hent).
    { intros j Hj. apply Hall. right. exact Hj. }
    exists st'. split; [exact Hr |]. split; [exact Hself |]. split; [exact Hout |].
    rewrite Hent. unfold restored. cbn [List.fold_left]. cbn [st1 set_entities self].
    rewrite E. f_equal. unfold the_entities, st1, set_entities. cbn.
    apply lookup_total_insert_eq.
Qed.

Lemma in_range (a b i : Z) : In i (range a b) <-> a <= i < b.
Proof.
  unfold range. rewrite <- list_elem_of_In, elem_of_seqZ. lia.
Qed.

(** X2.  When [entities_init] has every integer [0 .. len(entities) - 1] for
    a key, [reset] returns: the cursor is at frame 0, the entity under each
    of these integers is the one of the snapshot, and the entities under
    every other key, the string aliases among them, are left as the script
    made them. *)
Theorem reset_restores_integer_keys (st : pystate) :
  (forall i, 0 <= i < Z.of_nat (List.length (the_entities st)) ->
             dict_get (KInt i) (entities_init (self st)) <> None) ->
  exists st',
    reset st = (st', Ok tt)
    /\ current_frame (self st') = 0
    /\ entities_init (self st') = entities_init (self st)
    /\ (forall i, 0 <= i < Z.of_nat (List.length (the_entities st)) ->
                  dict_get (KInt i) (the_entities st')
                  = dict_get (KInt i) (entities_init (self st)))
    /\ (forall k, (forall i, k <> KInt i) ->
                  dict_get k (the_entities st') = dict_get k (the_entities st)).
Proof.
  intros Hall. unfold reset.
  set (indices := range 0 (Z.of_nat (List.length (the_entities st)))).
  destruct (reset_each_ok indices st) as (st1 & Hr & Hself & Hout & Hent).
  { intros i Hi. apply Hall. apply in_range. exact Hi. }
  rewrite Hr. eexists. split; [reflexivity |].
  assert (He : the_entities (set_self (with_current_frame 0 (self st1)) st1)
               = the_entities st1) by reflexivity.
  cbn [self set_self with_current_frame current_frame entities_init].
  rewrite He, Hent, Hself.
  split; [reflexivity |]. split; [reflexivity |]. split.
  - intros i Hi. apply restored_index.
    + apply in_range. exact Hi.
    + intros j Hj. apply Hall. apply in_range. exact Hj.
  - intros k Hk. apply restored_other. intros i _. apply Hk.
Qed.

Lemma reset_restores_integer_keys_witness :
  exists st',
    reset numbered_scene = (st', Ok tt)
    /\ current_frame (self st') = 0
    /\ entities_init (self st') = [(KInt 0, disk)]
    /\ (forall i, 0 <= i < 1 ->
                  dict_get (KInt i) (the_entities st') = dict_get (KInt i) [(KInt 0, disk)])
    /\ (forall k, (forall i, k <> KInt i) ->
                  dict_get k (the_entities st') = dict_get k (the_entities numbered_scene)).
Proof.
  refine (reset_restores_integer_keys numbered_scene _).
  intros i Hi. change (Z.of_nat (List.length (the_entities numbered_scene))) with 1 in Hi.
  replace i with 0 by lia. discriminate.
Defined.

Lemma reset_each_app (l1 l2 : list Z) (st : pystate) :
  reset_each (l1 ++ l2) st
  = match reset_each l1 st with
    | (st', Ok _) => reset_each l2 st'
    | (st', Raise e) => (st', Raise e)
    end.
Proof.
  revert st. induction l1 as [|i l1 IH]; intros st; [reflexivity |].
  cbn [app reset_each].
  destruct (dict_get (KInt i) (entities_init (self st))); [apply IH | reflexivity].
Qed.

Lemma range_split (a b c : Z) : a <= b <= c -> range a c = range a b ++ range b c.
Proof.
  intros H. unfold range.
  replace (c - a) with ((b - a) + (c - b)) by lia.
  rewrite seqZ_app by lia. do 2 f_equal. lia.
Qed.

(** X3.  [reset] stops at the first integer below [len(entities)] that is no
    key of [entities_init] and raises [KeyError] for it: the entities under
    the integers before it are restored by then, the cursor is not moved. *)
Theorem reset_raises_at_first_missing (st : pystate) (i : Z) :
  0 <= i < Z.of_nat (List.length (the_entities st)) ->
  dict_get (KInt i) (entities_init (self st)) = None ->
  (forall j, 0 <= j < i -> dict_get (KInt j) (entities_init (self st)) <> None) ->
  exists st',
    reset st = (st', Raise (KeyError (KInt i)))
    /\ self st' = self st
    /\ the_entities st'
       = restored (entities_init (self st)) (range 0 i) (the_entities st).
Proof.
  intros Hi Hmiss Hbefore. unfold reset.
  rewrite (range_split 0 i (Z.of_nat (List.length (the_entities st)))) by lia.
  rewrite (range_cons i) by lia.
  rewrite reset_each_app.
  destruct (reset_each_ok (range 0 i) st) as (st1 & Hr & Hself & Hout & Hent).
  { intros j Hj. apply Hbefore. apply in_range. exact Hj. }
  rewrite Hr. cbn [reset_each]. rewrite Hself, Hmiss.
  exists st1. repeat split; assumption.
Qed.

Lemma reset_raises_at_first_missing_witness :
  exists st',
    reset sliding_scene_at_1 = (st', Raise (KeyError (KInt 0)))
    /\ self st' = self sliding_scene_at_1
    /\ the_entities st'
       = restored (entities_init (self sliding_scene_at_1)) (range 0 0)
           (the_entities sliding_scene_at_1).
Proof.
  refine (reset_raises_at_first_missing sliding_scene_at_1 0 _ _ _).
  - vm_compute. split; [discriminate | reflexivity].
  - vm_compute. reflexivity.
  - intros j Hj. lia.
Defined.

End ResetMore.

Section ReplayMore.

Import Np EntityModel SceneModel SceneOps.

Variable exec : string -> dict -> dict * option exn.

Lemma replay_app (script : gmap Z (list string)) (fps : Z) (l1 l2 : list Z) (w : world) :
  replay exec script fps (l1 ++ l2) w
  = match replay exec script fps l1 w with
    | (w', Ok _) => replay exec script fps l2 w'
    | (w', Raise e) => (w', Raise e)
    end.
Proof.
  revert w. induction l1 as [|i l1 IH]; intros w; [reflexivity |].
  cbn [app replay]. unfold mbind, stateM_bind.
  destruct (match script !! i with
            | Some instructions => execute_all exec fps i instructions
            | None => mret tt
            end w) as [w1 [[] | e]]; [apply IH | reflexivity].
Qed.

Lemma replay_ext (s s' : gmap Z (list string)) (fps : Z) (frames : list Z) :
  (forall i, In i frames -> s !! i = s' !! i) ->
  forall w, replay exec s fps frames w = replay exec s' fps frames w.
Proof.
  induction frames as [|i frames IH]; intros Hagree w; [reflexivity |].
  cbn [replay]. unfold mbind, stateM_bind.
  rewrite (Hagree i (or_introl eq_refl)).
  destruct (match s' !! i with
            | Some instructions => execute_all exec fps i instructions
            | None => mret tt
            end w) as [w1 [[] | e]]; [| reflexivity].
  apply IH. intros j Hj. apply Hagree. right. exact Hj.
Qed.

(** X4.  An instruction added to a frame runs after the instructions the
    frame already has, and only if none of them raises; the other frames
    keep their instructions. *)
Theorem add_instruction_runs_last (sc : Scene) (frame_no : Z) (instruction : string)
    (fps : Z) (w : world) :
  replay exec (script (add_instruction frame_no instruction sc)) fps [frame_no] w
  = match replay exec (script sc) fps [frame_no] w with
    | (w', Ok _) => execute exec fps frame_no instruction w'
    | (w', Raise e) => (w', Raise e)
    end
  /\ (forall i, i <> frame_no ->
                script (add_instruction frame_no instruction sc) !! i = script sc !! i).
Proof.
  split.
  - unfold add_instruction. cbn [script with_script replay].
    rewrite lookup_insert_eq. unfold mbind, stateM_bind.
    destruct (script sc !! frame_no) as [l |].
    + rewrite execute_all_app.
      destruct (execute_all exec fps frame_no l w) as [w1 [[] | e]]; [| reflexivity].
      cbn [execute_all]. unfold mbind, stateM_bind. cbn [mret stateM_ret].
      destruct (execute exec fps frame_no instruction w1) as [w2 [[] | e]]; reflexivity.
    + cbn [app execute_all]. unfold mbind, stateM_bind. cbn [mret stateM_ret].
      destruct (execute exec fps frame_no instruction w) as [w2 [[] | e]]; reflexivity.
  - intros i Hi. unfold add_instruction. cbn [script with_script].
    apply lookup_insert_ne. congruence.
Qed.

Lemma reset_each_rescript (s' : gmap Z (list string)) (indices : list Z) :
  forall st, reset_each indices (rescript s' st)
             = (rescript s' (fst (reset_each indices st)), snd (reset_each indices st)).
Proof.
  induction indices as [|i indices IH]; intros st; [reflexivity |].
  cbn [reset_each]. change (entities_init (self (rescript s' st)))
    with (entities_init (self st)).
  destruct (dict_get (KInt i) (entities_init (self st))); [| reflexivity].
  apply (IH (set_entities (dict_set (KInt i) (deepcopy e) (the_entities st)) st)).
Qed.

Lemma reset_rescript (s' : gmap Z (list string)) (st : pystate) :
  reset (rescript s' st) = (rescript s' (fst (reset st)), snd (reset st)).
Proof.
  unfold reset. change (the_entities (rescript s' st)) with (the_entities st).
  rewrite reset_each_rescript.
  destruct (reset_each _ st) as [st1 [[] | e]]; reflexivity.
Qed.

Lemma reset_each_script (indices : list Z) :
  forall st, script (self (fst (reset_each indices st))) = script (self st).
Proof.
  induction indices as [|i indices IH]; intros st; [reflexivity |].
  cbn [reset_each].
  destruct (dict_get (KInt i) (entities_init (self st))); [| reflexivity].
  rewrite IH. reflexivity.
Qed.

Lemma reset_script (st : pystate) :
  script (self (fst (reset st))) = script (self st).
Proof.
  unfold reset.
  pose proof (reset_each_script (range 0 (Z.of_nat (List.length (the_entities st)))) st) as H.
  destruct (reset_each _ st) as [st1 [[] | e]]; exact H.
Qed.

Lemma reset_cursor (st st1 : pystate) :
  reset st = (st1, Ok tt) -> current_frame (self st1) = 0.
Proof.
  unfold reset. destruct (reset_each _ st) as [st2 [[] | e]]; [| discriminate].
  intros H. injection H as <-. reflexivity.
Qed.

Lemma set_frame_no_steps (frame_no : Z) (display : bool) (st : pystate) :
  set_frame_no exec frame_no display st
  = match (if frame_no <? current_frame (self st) then reset else mret tt) st with
    | (st1, Ok _) =>
        match replay_scene exec frame_no st1 with
        | (st2, Ok _) =>
            (if display then raise (NameError "img") else mret tt)
              (set_self (with_current_frame frame_no (self st2)) st2)
        | (st2, Raise e) => (st2, Raise e)
        end
    | (st1, Raise e) => (st1, Raise e)
    end.
Proof.
  unfold set_frame_no, mbind, stateM_bind.
  destruct ((if frame_no <? current_frame (self st) then reset else mret tt) st)
    as [st1 [[] | e]]; [| reflexivity].
  destruct (replay_scene exec frame_no st1) as [st2 [[] | e]]; reflexivity.
Qed.

Lemma replay_scene_rescript (s' : gmap Z (list string)) (frame_no : Z) (st : pystate) :
  (forall i, i < frame_no -> script (self st) !! i = s' !! i) ->
  replay_scene exec frame_no (rescript s' st)
  = (rescript s' (fst (replay_scene exec frame_no st)),
     snd (replay_scene exec frame_no st)).
Proof.
  intros Hagree. unfold replay_scene.
  change (self (rescript s' st)) with (with_script s' (self st)).
  cbn [script with_script fps current_frame entities].
  change (the_entities (rescript s' st)) with (the_entities st).
  change (stdout (rescript s' st)) with (stdout st).
  change (dicts (rescript s' st)) with (dicts st).
  rewrite <- (replay_ext (script (self st)) s').
  2:{ intros i Hi. apply Hagree. apply in_range in Hi. lia. }
  destruct (replay exec (script (self st)) (fps (self st))
              (range (current_frame (self st)) frame_no)
              (the_entities st, stdout st)) as [[d out] r].
  reflexivity.
Qed.

(** [set_frame_no(n)] replays the frames below [n] only: with another
    script that has the same instructions at every frame below [n] it
    does the same to the entities, the output and the cursor, and raises
    the same. *)
Lemma seek_rescript (st : pystate) (s' : gmap Z (list string))
    (frame_no : Z) (display : bool) :
  (forall i, i < frame_no -> script (self st) !! i = s' !! i) ->
  set_frame_no exec frame_no display (rescript s' st)
  = (rescript s' (fst (set_frame_no exec frame_no display st)),
     snd (set_frame_no exec frame_no display st)).
Proof.
  intros Hagree. rewrite !set_frame_no_steps.
  change (current_frame (self (rescript s' st))) with (current_frame (self st)).
  assert (Hfirst :
    (if frame_no <? current_frame (self st) then reset else mret tt) (rescript s' st)
    = (rescript s' (fst ((if frame_no <? current_frame (self st)
                          then reset else mret tt) st)),
       snd ((if frame_no <? current_frame (self st) then reset else mret tt) st))
    /\ script (self (fst ((if frame_no <? current_frame (self st)
                           then reset else mret tt) st))) = script (self st)).
  { destruct (frame_no <? current_frame (self st)).
    - split; [apply reset_rescript | apply reset_script].
    - split; reflexivity. }
  destruct Hfirst as [Hfirst Hs1]. rewrite Hfirst. clear Hfirst.
  destruct ((if frame_no <? current_frame (self st) then reset else mret tt) st)
    as [st1 [[] | e]]; cbn [fst snd] in *; [| reflexivity].
  rewrite replay_scene_rescript by (rewrite Hs1; exact Hagree).
  destruct (replay_scene exec frame_no st1) as [st2 [[] | e]]; cbn [fst snd];
    [| reflexivity].
  destruct display; reflexivity.
Qed.

End ReplayMore.

Section SeekMore.

Import Np EntityModel SceneModel SceneOps.

Variable exec : string -> dict -> dict * option exn.
Variable image : Type.
Variable blank_image : Z -> Z -> list Z -> image.
Variable add_to_image : Entity -> float -> Z * Z -> image -> result image.

Lemma range_app (a b c : Z) : a <= b <= c -> range a c = range a b ++ range b c.
Proof.
  intros H. unfold range.
  replace (c - a) with ((b - a) + (c - b)) by lia.
  rewrite seqZ_app by lia. do 2 f_equal; lia.
Qed.

Lemma seek_ok_cursor (frame_no : Z) (st st' : pystate) :
  set_frame_no exec frame_no false st = (st', Ok tt) ->
  current_frame (self st') = frame_no.
Proof.
  rewrite set_frame_no_steps.
  destruct ((if frame_no <? current_frame (self st) then reset else mret tt) st)
    as [st1 [[] | e]]; [| discriminate].
  destruct (replay_scene exec frame_no st1) as [st2 [[] | e]]; [| discriminate].
  intros H. injection H as <-. reflexivity.
Qed.

(** A forward seek that returns has replayed the frames from the cursor
    to the target without a failure. *)
Lemma seek_forward_inv (st st' : pystate) (n : Z) :
  current_frame (self st) <= n ->
  set_frame_no exec n false st = (st', Ok tt) ->
  exists d',
    replay exec (script (self st)) (fps (self st)) (range (current_frame (self st)) n)
           (the_entities st, stdout st) = ((d', stdout st), Ok tt)
    /\ st' = mkState (<[entities (self st) := d']> (dicts st))
                     (with_current_frame n (self st)) (stdout st).
Proof.
  intros Hle. rewrite set_frame_no_steps.
  destruct (Z.ltb_spec n (current_frame (self st))) as [Hlt | _]; [lia |].
  cbn [mret stateM_ret]. unfold replay_scene.
  destruct (replay exec (script (self st)) (fps (self st))
              (range (current_frame (self st)) n) (the_entities st, stdout st))
    as [[d out] [[] | e]] eqn:E; [| discriminate].
  destruct (replay_ok exec _ _ _ _ _ _ _ E) as [-> _].
  intros H. injection H as <-. exists d. split; reflexivity.
Qed.

Lemma seek_two_steps (st st1 st2 : pystate) (a b : Z) :
  current_frame (self st) <= a -> a <= b ->
  set_frame_no exec a false st = (st1, Ok tt) ->
  set_frame_no exec b false st1 = (st2, Ok tt) ->
  set_frame_no exec b false st = (st2, Ok tt).
Proof.
  intros Ha Hb H1 H2.
  pose proof (range_app (current_frame (self st)) a b (conj Ha Hb)) as Hsplit.
  destruct (seek_forward_inv _ _ _ Ha H1) as (d1 & R1 & ->).
  cbn [self current_frame with_current_frame] in H2.
  apply seek_forward_inv in H2; [| cbn; exact Hb].
  destruct H2 as (d2 & R2 & ->).
  cbn [self current_frame with_current_frame script fps stdout dicts entities] in *.
  unfold the_entities in R2 at 1. cbn [self dicts entities with_current_frame] in R2.
  rewrite lookup_total_insert_eq in R2.
  rewrite insert_insert_eq.
  apply seek_forward_ok; [lia |].
  rewrite Hsplit, replay_app, R1. exact R2.
Qed.

Lemma seek_one_step (st st2 : pystate) (a b : Z) :
  current_frame (self st) <= a -> a <= b ->
  set_frame_no exec b false st = (st2, Ok tt) ->
  exists st1, set_frame_no exec a false st = (st1, Ok tt)
              /\ set_frame_no exec b false st1 = (st2, Ok tt).
Proof.
  intros Ha Hb H.
  pose proof (range_app (current_frame (self st)) a b (conj Ha Hb)) as Hsplit.
  destruct (seek_forward_inv _ _ _ (Z.le_trans _ _ _ Ha Hb) H) as (d2 & R & ->).
  rewrite Hsplit, replay_app in R.
  destruct (replay exec (script (self st)) (fps (self st))
              (range (current_frame (self st)) a) (the_entities st, stdout st))
    as [[d1 out1] [[] | e]] eqn:R1; [| discriminate].
  destruct (replay_ok exec _ _ _ _ _ _ _ R1) as [-> _].
  exists (mkState (<[entities (self st) := d1]> (dicts st))
                  (with_current_frame a (self st)) (stdout st)).
  split; [apply seek_forward_ok; assumption |].
  rewrite (seek_forward_ok exec _ b d2).
  - cbn [self dicts stdout entities with_current_frame].
    rewrite insert_insert_eq. reflexivity.
  - cbn. exact Hb.
  - cbn [self current_frame with_current_frame script fps stdout].
    unfold the_entities. cbn [self dicts entities with_current_frame].
    rewrite lookup_total_insert_eq. exact R.
Qed.

(** X6.  Seeking forward in two steps is seeking forward in one: with the
    cursor at or before [a] and [a <= b], [set_frame_no(a)] followed by
    [set_frame_no(b)] returns exactly when [set_frame_no(b)] does, and
    leaves the same scene. *)
Theorem forward_seeks_compose (st : pystate) (a b : Z) :
  current_frame (self st) <= a -> a <= b ->
  forall st2,
    (exists st1, set_frame_no exec a false st = (st1, Ok tt)
                 /\ set_frame_no exec b false st1 = (st2, Ok tt))
    <-> set_frame_no exec b false st = (st2, Ok tt).
Proof.
  intros Ha Hb st2. split.
  - intros (st1 & H1 & H2). exact (seek_two_steps st st1 st2 a b Ha Hb H1 H2).
  - apply seek_one_step; assumption.
Qed.

(** X7.  [set_frame_no] with [display=True] never returns: where the call
    without [display] returns, it has done the same to the scene and then
    raises the [NameError] of the name [img], which the method reads and
    never binds. *)
Theorem seek_display_raises (st : pystate) (frame_no : Z) :
  exists st' e,
    set_frame_no exec frame_no true st = (st', Raise e)
    /\ forall st1, set_frame_no exec frame_no false st = (st1, Ok tt) ->
                   st' = st1 /\ e = NameError "img".
Proof.
  rewrite !set_frame_no_steps.
  destruct ((if frame_no <? current_frame (self st) then reset else mret tt) st)
    as [st1 [[] | e]].
  - destruct (replay_scene exec frame_no st1) as [st2 [[] | e]].
    + eexists _, _. split; [reflexivity |].
      intros st3 H. injection H as <-. split; reflexivity.
    + eexists _, _. split; [reflexivity |]. intros st3 H. discriminate H.
  - eexists _, _. split; [reflexivity |]. intros st3 H. discriminate H.
Qed.

Lemma frames_loop_steps (i : Z) (rest : list Z) (end_frame : Z) (status : bool)
    (acc : list image) (st : pystate) :
  frames_loop exec image blank_image add_to_image (i :: rest) end_frame status acc st
  = match set_frame_no exec i false
            (if status && ((i mod 10 =? 0) || (i =? end_frame))
             then mkState (dicts st) (self st) (stdout st ++ [Getting i end_frame])
             else st) with
    | (st1, Ok _) =>
        match capture_frame image blank_image add_to_image st1 with
        | Ok img =>
            frames_loop exec image blank_image add_to_image rest end_frame status
              (acc ++ [img]) st1
        | Raise e => (st1, Raise e)
        end
    | (st1, Raise e) => (st1, Raise e)
    end.
Proof.
  cbn [frames_loop]. unfold mbind, stateM_bind.
  destruct (status && ((i mod 10 =? 0) || (i =? end_frame)));
    (destruct (set_frame_no exec i false _) as [st1 [[] | e]]; [| reflexivity]);
    destruct (capture_frame image blank_image add_to_image st1); reflexivity.
Qed.

Lemma frames_loop_ok (end_frame : Z) (status : bool) (indices : list Z) :
  forall (acc frames : list image) (st st' : pystate),
    frames_loop exec image blank_image add_to_image indices end_frame status acc st
    = (st', Ok frames) ->
    List.length frames = (List.length acc + List.length indices)%nat
    /\ current_frame (self st') = List.last indices (current_frame (self st)).
Proof.
  induction indices as [|i rest IH]; intros acc frames st st'.
  - cbn. intros H. injection H as <- <-. split; [lia | reflexivity].
  - rewrite frames_loop_steps.
    destruct (set_frame_no exec i false _) as [s1 [[] | e]] eqn:E; [| discriminate].
    destruct (capture_frame image blank_image add_to_image s1) as [img | e];
      [| discriminate].
    intros H. apply IH in H. destruct H as [Hlen Hcur].
    rewrite length_app in Hlen. cbn [List.length] in *.
    split; [lia |].
    rewrite Hcur. apply seek_ok_cursor in E. rewrite E.
    destruct rest as [|j rest']; [reflexivity |].
    cbn [List.last]. clear. revert j. induction rest' as [|k r IHr]; intros j;
      [reflexivity |]. cbn [List.last] in *. apply IHr.
Qed.

(** X8.  [get_frames] that returns, returns one frame for each frame number
    from [start_frame] to the end frame, both included, and leaves the
    cursor of the scene at the end frame; the end frame is the greatest key
    of the script when the argument is left out. *)
Theorem get_frames_count (st st' : pystate) (start_frame : Z) (end_frame : option Z)
    (status : bool) (frames : list image) :
  get_frames exec image blank_image add_to_image start_frame end_frame status st
  = (st', Ok frames) ->
  exists e,
    match end_frame with
    | Some e' => e = e'
    | None => last_frame (script (self st)) = Ok e
    end
    /\ Z.of_nat (List.length frames) = Z.max 0 (e + 1 - start_frame)
    /\ (start_frame <= e -> current_frame (self st') = e)
    /\ (e < start_frame -> st' = st).
Proof.
  unfold get_frames.
  destruct (match end_frame with
            | Some e => Ok e
            | None => last_frame (script (self st))
            end) as [e | err] eqn:Eend; [| discriminate].
  intros H. exists e. split.
  { destruct end_frame as [e' |]; [injection Eend as ->; reflexivity | exact Eend]. }
  split; [| split].
  - apply frames_loop_ok in H. destruct H as [Hlen _].
    rewrite Hlen. cbn [List.length]. unfold range. rewrite length_seqZ. lia.
  - intros Hle. apply frames_loop_ok in H. destruct H as [_ Hcur].
    rewrite Hcur. rewrite (range_app start_frame e (e + 1)) by lia.
    rewrite range_one. apply last_last.
  - intros Hlt. unfold range in H. rewrite seqZ_nil in H by lia.
    cbn in H. injection H as <- _. reflexivity.
Qed.

Lemma frames_loop_app (l1 l2 : list Z) (end_frame : Z) (status : bool) :
  forall (acc : list image) (st : pystate),
    frames_loop exec image blank_image add_to_image (l1 ++ l2) end_frame status acc st
    = match frames_loop exec image blank_image add_to_image l1 end_frame status acc st with
      | (st', Ok frames) =>
          frames_loop exec image blank_image add_to_image l2 end_frame status frames st'
      | (st', Raise e) => (st', Raise e)
      end.
Proof.
  induction l1 as [|i l1 IH]; intros acc st; [reflexivity |].
  cbn [app]. rewrite !frames_loop_steps.
  destruct (set_frame_no exec i false _) as [st1 [[] | e]]; [| reflexivity].
  destruct (capture_frame image blank_image add_to_image st1); [apply IH | reflexivity].
Qed.

(** The frames a loop adds do not depend on the frames it starts
    from. *)
Lemma frames_loop_acc (end_frame : Z) (status : bool) (indices : list Z) :
  forall (acc : list image) (st : pystate),
    frames_loop exec image blank_image add_to_image indices end_frame status acc st
    = match frames_loop exec image blank_image add_to_image indices end_frame status [] st
      with
      | (st', Ok new) => (st', Ok (acc ++ new))
      | (st', Raise e) => (st', Raise e)
      end.
Proof.
  induction indices as [|i rest IH]; intros acc st.
  - cbn. rewrite app_nil_r. reflexivity.
  - rewrite !frames_loop_steps.
    destruct (set_frame_no exec i false _) as [st1 [[] | e]]; [| reflexivity].
    destruct (capture_frame image blank_image add_to_image st1) as [img | e];
      [| reflexivity].
    rewrite (IH (acc ++ [img])). rewrite (IH ([] ++ [img])).
    destruct (frames_loop exec image blank_image add_to_image rest end_frame status [] st1)
      as [st' [new | e]]; [| reflexivity].
    rewrite <- app_assoc. reflexivity.
Qed.

(** After a loop over the frames [b .. a - 1] that returned, seeking
    further forward does what it does from the state the loop started
    from. *)
Lemma loop_then_seek (st0 : pystate) (end_frame a : Z) (n : nat) :
  forall (b : Z) (cur sp : pystate) (acc frames : list image),
    Z.to_nat (a - b) = n -> b <= a ->
    current_frame (self st0) <= b ->
    (forall i s2, b <= i ->
       set_frame_no exec i false cur = (s2, Ok tt)
       <-> set_frame_no exec i false st0 = (s2, Ok tt)) ->
    frames_loop exec image blank_image add_to_image (range b a) end_frame false acc cur
    = (sp, Ok frames) ->
    forall i s2, a <= i ->
      set_frame_no exec i false sp = (s2, Ok tt)
      <-> set_frame_no exec i false st0 = (s2, Ok tt).
Proof.
  induction n as [|n IH]; intros b cur sp acc frames Hn Hba Hcur Hequiv Hloop.
  - assert (a = b) as -> by lia. unfold range in Hloop.
    rewrite seqZ_nil in Hloop by lia. cbn in Hloop. injection Hloop as <- _.
    exact Hequiv.
  - assert (Hlt : b < a) by lia.
    unfold range in Hloop. rewrite seqZ_cons in Hloop by lia.
    rewrite frames_loop_steps in Hloop. cbn [andb] in Hloop.
    destruct (set_frame_no exec b false cur) as [sb [[] | e]] eqn:Hb; [| discriminate].
    destruct (capture_frame image blank_image add_to_image sb) as [img | e];
      [| discriminate].
    assert (Hb0 : set_frame_no exec b false st0 = (sb, Ok tt)).
    { apply (Hequiv b sb); [lia | exact Hb]. }
    replace (Z.pred (a - b)) with (a - Z.succ b) in Hloop by lia.
    refine (IH (Z.succ b) sb sp _ frames _ _ _ _ Hloop); [lia | lia | lia |].
    intros i s2 Hi. split.
    + intros H. apply (seek_two_steps st0 sb s2 b i); [lia | lia | exact Hb0 | exact H].
    + intros H. destruct (seek_one_step st0 s2 b i) as (s1 & H1 & H2); [lia | lia | exact H |].
      rewrite Hb0 in H1. injection H1 as <-. exact H2.
Qed.

(** X9.  Rendering from a later frame gives the frames that rendering from
    an earlier frame gives from there on: for a scene whose cursor is at or
    before [a0 <= a], when [get_frames(a0, end, status=False)] returns,
    [get_frames(a, end, status=False)] returns its frames without the first
    [a - a0]. *)
Theorem get_frames_suffix (st st1 : pystate) (a0 a : Z) (end_frame : option Z)
    (frames : list image) :
  current_frame (self st) <= a0 -> a0 <= a ->
  get_frames exec image blank_image add_to_image a0 end_frame false st = (st1, Ok frames) ->
  exists st1',
    get_frames exec image blank_image add_to_image a end_frame false st
    = (st1', Ok (List.skipn (Z.to_nat (a - a0)) frames)).
Proof.
  intros Hcur Ha. unfold get_frames.
  destruct (match end_frame with
            | Some e => Ok e
            | None => last_frame (script (self st))
            end) as [e | err]; [| discriminate].
  intros H. destruct (Z.le_gt_cases a e) as [Hae | Hea].
  - rewrite (range_app a0 a (e + 1)) in H by lia.
    rewrite frames_loop_app in H.
    destruct (frames_loop exec image blank_image add_to_image (range a0 a) e false [] st)
      as [sp [frp | err]] eqn:Hprefix; [| discriminate].
    pose proof (frames_loop_ok e false _ _ _ _ _ Hprefix) as [Hlen _].
    cbn [List.length] in Hlen. unfold range in Hlen. rewrite length_seqZ in Hlen.
    pose proof (loop_then_seek st e a (Z.to_nat (a - a0)) a0 st sp [] frp
                  eq_refl Ha Hcur (fun i s2 _ => iff_refl _) Hprefix) as Hequiv.
    rewrite (range_cons a (e + 1)) in H |- * by lia.
    rewrite frames_loop_steps in H. rewrite frames_loop_steps. cbn [andb] in H |- *.
    destruct (set_frame_no exec a false sp) as [sa [[] | err]] eqn:Hsa; [| discriminate].
    rewrite (proj1 (Hequiv a sa (Z.le_refl a)) Hsa).
    destruct (capture_frame image blank_image add_to_image sa) as [img | err];
      [| discriminate].
    rewrite frames_loop_acc in H. rewrite frames_loop_acc.
    destruct (frames_loop exec image blank_image add_to_image (range (a + 1) (e + 1)) e
                false [] sa) as [sF [new | err]]; [| discriminate].
    injection H as <- <-. exists sF. do 2 f_equal.
    replace (Z.to_nat (a - a0)) with (List.length frp) by lia.
    rewrite <- (app_assoc frp), drop_app_length. reflexivity.
  - exists st. unfold range at 1. rewrite seqZ_nil by lia. cbn [frames_loop].
    pose proof (frames_loop_ok e false _ _ _ _ _ H) as [Hlen _].
    cbn [List.length] in Hlen. unfold range in Hlen. rewrite length_seqZ in Hlen.
    rewrite drop_ge by lia. reflexivity.
Qed.

End SeekMore.

Section SeekExamples.

Import Np EntityModel SceneModel SceneOps.

Lemma forward_seeks_compose_witness :
  set_frame_no py_exec 3 false sliding_scene
  = (fst (set_frame_no py_exec 3 false sliding_scene_at_1), Ok tt).
Proof.
  apply (proj1 (forward_seeks_compose py_exec sliding_scene 1 3
                  ltac:(vm_compute; discriminate) ltac:(lia) _)).
  exists sliding_scene_at_1. split; vm_compute; reflexivity.
Defined.

Lemma get_frames_suffix_witness :
  exists st1',
    get_frames py_exec display_list no_entity draw_entity 2 (Some 4) false ghost_scene
    = (st1',
       Ok (List.skipn (Z.to_nat (2 - 0))
             (match snd (get_frames py_exec display_list no_entity draw_entity 0 (Some 4)
                           false ghost_scene) with
              | Ok frames => frames
              | Raise _ => []
              end))).
Proof.
  apply (get_frames_suffix py_exec display_list no_entity draw_entity ghost_scene
           (fst (get_frames py_exec display_list no_entity draw_entity 0 (Some 4) false
                   ghost_scene)) 0 2 (Some 4)).
  - vm_compute. discriminate.
  - lia.
  - vm_compute. reflexivity.
Defined.

Lemma get_frames_count_witness :
  exists e,
    last_frame (script (self ghost_scene)) = Ok e
    /\ Z.of_nat (List.length
         (match snd (get_frames py_exec display_list no_entity draw_entity 2 None false
                       ghost_scene) with
          | Ok frames => frames
          | Raise _ => []
          end)) = Z.max 0 (e + 1 - 2)
    /\ (2 <= e -> current_frame (self (fst (get_frames py_exec display_list no_entity
                                             draw_entity 2 None false ghost_scene))) = e)
    /\ (e < 2 -> fst (get_frames py_exec display_list no_entity draw_entity 2 None false
                        ghost_scene) = ghost_scene).
Proof.
  apply (get_frames_count py_exec display_list no_entity draw_entity ghost_scene
           _ 2 None false _).
  vm_compute. reflexivity.
Defined.

End SeekExamples.

Section ScriptKeys.

Import Np EntityModel SceneModel SceneOps.

Lemma fold_max_greatest (ks : list Z) :
  forall k, In (List.fold_left Z.max ks k) (k :: ks)
            /\ forall x, In x (k :: ks) -> x <= List.fold_left Z.max ks k.
Proof.
  induction ks as [|j ks IH]; intros k.
  - cbn. split; [left; reflexivity |]. intros x [-> | []]. lia.
  - cbn [List.fold_left]. destruct (IH (Z.max k j)) as [Hin Hle]. split.
    + destruct Hin as [Hm | Hin].
      * rewrite <- Hm. destruct (Z.max_spec k j) as [[_ ->] | [_ ->]];
          [right; left; reflexivity | left; reflexivity].
      * right. right. exact Hin.
    + intros x [-> | [-> | Hx]].
      * pose proof (Hle (Z.max x j) (or_introl eq_refl)). lia.
      * pose proof (Hle (Z.max k x) (or_introl eq_refl)). lia.
      * apply Hle. right. exact Hx.
Qed.

Lemma In_keys (s : gmap Z (list string)) (k : Z) :
  In k (List.map fst (map_to_list s)) <-> is_Some (s !! k).
Proof.
  rewrite in_map_iff. split.
  - intros [[k' v] [<- Hin]]. apply list_elem_of_In, elem_of_map_to_list in Hin.
    exists v. exact Hin.
  - intros [v Hv]. exists (k, v). split; [reflexivity |].
    apply list_elem_of_In, elem_of_map_to_list. exact Hv.
Qed.

(** [max(self.script.keys())] is a frame of the script and no frame of
    the script is after it; it raises, a [ValueError], only for a script
    without frames. *)
Lemma last_frame_greatest (s : gmap Z (list string)) :
  match last_frame s with
  | Ok m => is_Some (s !! m) /\ forall k, is_Some (s !! k) -> k <= m
  | Raise e => s = ∅ /\ e = ValueError "max() arg is an empty sequence"
  end.
Proof.
  unfold last_frame.
  destruct (List.map fst (map_to_list s)) as [|k ks] eqn:E.
  - split; [| reflexivity].
    apply map_to_list_empty_iff. destruct (map_to_list s); [reflexivity | discriminate].
  - destruct (fold_max_greatest ks k) as [Hin Hle]. rewrite <- E in Hin, Hle. split.
    + apply In_keys. exact Hin.
    + intros x Hx. apply Hle. apply In_keys. exact Hx.
Qed.

Lemma last_frame_unique (s : gmap Z (list string)) (m : Z) :
  is_Some (s !! m) -> (forall k, is_Some (s !! k) -> k <= m) -> last_frame s = Ok m.
Proof.
  intros Hm Hle. pose proof (last_frame_greatest s) as H.
  destruct (last_frame s) as [m' | e].
  - destruct H as [Hm' Hle']. f_equal.
    pose proof (Hle _ Hm'). pose proof (Hle' _ Hm). lia.
  - destruct H as [-> _]. rewrite lookup_empty in Hm. destruct Hm as [? Hm]. discriminate.
Qed.

(** X10.  A scene never loses its last frame: after [add_instruction(f,
    ...)] the last frame is [f] or the last frame before, whichever is
    later. *)
Theorem add_instruction_last_frame (sc : Scene) (frame_no m : Z) (instruction : string) :
  last_frame (script sc) = Ok m ->
  last_frame (script (add_instruction frame_no instruction sc)) = Ok (Z.max frame_no m).
Proof.
  intros Hm. pose proof (last_frame_greatest (script sc)) as H. rewrite Hm in H.
  destruct H as [Hin Hle].
  apply last_frame_unique.
  - unfold add_instruction. cbn [script with_script].
    destruct (Z.max_spec frame_no m) as [[Hlt ->] | [_ ->]].
    + destruct (Z.eq_dec m frame_no) as [-> | Hne]; [lia |].
      rewrite lookup_insert_ne by congruence. exact Hin.
    + rewrite lookup_insert_eq. eexists. reflexivity.
  - intros k. unfold add_instruction. cbn [script with_script].
    destruct (Z.eq_dec k frame_no) as [-> | Hne].
    + intros _. lia.
    + rewrite lookup_insert_ne by congruence. intros Hk. apply Hle in Hk. lia.
Qed.

Lemma add_instruction_last_frame_witness :
  last_frame (script (add_instruction 5 slide_ghost (self sliding_scene)))
  = Ok (Z.max 5 0).
Proof.
  apply (add_instruction_last_frame (self sliding_scene) 5 0 slide_ghost).
  vm_compute. reflexivity.
Defined.

End ScriptKeys.

(* ===================================================================== *)
(** * Further properties of the entities *)
(* ===================================================================== *)

Section EntityMore.

Import Np EntityModel EntityOps.
Local Open Scope float_scope.

Lemma attach_lookup_ne (self l k : loc) (h : heap) :
  k <> self ->
  attach self l h !! k
  = if decide (k = l) then with_parent (Some self) <$> h !! k else h !! k.
Proof.
  intros Hk. unfold attach. destruct (decide (k = l)) as [-> | Hne].
  - rewrite lookup_alter_eq, lookup_alter_ne by congruence. reflexivity.
  - rewrite !lookup_alter_ne by congruence. reflexivity.
Qed.

Lemma attach_lookup_self (self l : loc) (h : heap) :
  attach self l h !! self
  = (fun e => let e1 := with_components (components e ++ [l]) e in
              if decide (self = l) then with_parent (Some self) e1 else e1)
      <$> h !! self.
Proof.
  unfold attach. destruct (decide (self = l)) as [<- | Hne].
  - rewrite !lookup_alter_eq. destruct (h !! self); reflexivity.
  - rewrite lookup_alter_ne, lookup_alter_eq by congruence. reflexivity.
Qed.

Lemma attach_all_lookup_ne (self k : loc) (ls : list loc) :
  k <> self ->
  forall h, attach_all self ls h !! k
            = if decide (k ∈ ls) then with_parent (Some self) <$> h !! k else h !! k.
Proof.
  intros Hk. induction ls as [|l ls IH]; intros h.
  - cbn. destruct (decide (k ∈ [])) as [Hin | _]; [| reflexivity].
    apply elem_of_nil in Hin. destruct Hin.
  - change (attach_all self (l :: ls) h) with (attach_all self ls (attach self l h)).
    rewrite IH, attach_lookup_ne by exact Hk.
    destruct (decide (k = l)) as [-> | Hne].
    + destruct (decide (l ∈ l :: ls)) as [_ | Hn]; [| exfalso; apply Hn; left].
      destruct (decide (l ∈ ls)); [| reflexivity].
      destruct (h !! l); reflexivity.
    + destruct (decide (k ∈ ls)) as [Hin | Hn];
        destruct (decide (k ∈ l :: ls)) as [Hin' | Hn']; try reflexivity.
      * exfalso. apply Hn'. right. exact Hin.
      * exfalso. apply elem_of_cons in Hin'. destruct Hin'; [congruence | contradiction].
Qed.

Lemma attach_all_lookup_self (self : loc) (ls : list loc) :
  forall h, attach_all self ls h !! self
            = (fun e => let e1 := with_components (components e ++ ls) e in
                        if decide (self ∈ ls) then with_parent (Some self) e1 else e1)
                <$> h !! self.
Proof.
  induction ls as [|l ls IH]; intros h.
  - cbn. destruct (h !! self) as [[] |]; cbn; [| reflexivity].
    rewrite app_nil_r. reflexivity.
  - change (attach_all self (l :: ls) h) with (attach_all self ls (attach self l h)).
    rewrite IH, attach_lookup_self.
    destruct (h !! self) as [e |]; [| reflexivity]. cbn [fmap option_fmap option_map].
    f_equal. destruct e as [o v c s p ps orr cs].
    destruct (decide (self = l)) as [<- | Hne].
    + destruct (decide (self ∈ self :: ls)) as [_ | Hn]; [| exfalso; apply Hn; left].
      unfold with_parent, with_components. cbn. rewrite <- app_assoc. cbn.
      destruct (decide (self ∈ ls)); reflexivity.
    + unfold with_parent, with_components. cbn. rewrite <- app_assoc. cbn.
      destruct (decide (self ∈ ls)) as [Hin | Hn];
        destruct (decide (self ∈ l :: ls)) as [Hin' | Hn']; try reflexivity.
      * exfalso. apply Hn'. right. exact Hin.
      * exfalso. apply elem_of_cons in Hin'. destruct Hin'; [congruence | contradiction].
Qed.

(** X12.  [add_components] on entities only (nested in iterables or not):
    the call returns; the entities are appended to the components of [self]
    in the order of the arguments; each of them has [self] for its parent
    and is otherwise as before; no other entity is changed, so an entity
    that had another parent stays in that parent's list of components. *)
Theorem add_components_attaches (self : loc) (args : list arg) (h : heap)
    (good : list loc) (e : Entity) :
  leaves (AIterable args) = List.map inl good ->
  h !! self = Some e ->
  exists h',
    add_components self args h = (h', None)
    /\ h' !! self
       = Some (let e1 := with_components (components e ++ good) e in
               if decide (self ∈ good) then with_parent (Some self) e1 else e1)
    /\ forall k, k <> self ->
         h' !! k = if decide (k ∈ good) then with_parent (Some self) <$> h !! k
                   else h !! k.
Proof.
  intros Hl He. exists (attach_all self good h).
  split; [apply add_components_accepts; exact Hl |]. split.
  - rewrite attach_all_lookup_self, He. reflexivity.
  - intros k Hk. apply attach_all_lookup_ne. exact Hk.
Qed.

Lemma add_components_attaches_witness :
  exists h',
    add_components 1%positive [AIterable [AEntity 2%positive]] two_nodes = (h', None)
    /\ h' !! 1%positive
       = Some (let e1 := with_components (components (point_at 0 0 0) ++ [2%positive])
                           (point_at 0 0 0) in
               if decide (1%positive ∈ [2%positive])
               then with_parent (Some 1%positive) e1 else e1)
    /\ forall k, k <> 1%positive ->
         h' !! k = if decide (k ∈ [2%positive])
                   then with_parent (Some 1%positive) <$> two_nodes !! k
                   else two_nodes !! k.
Proof.
  apply (add_components_attaches 1%positive [AIterable [AEntity 2%positive]] two_nodes
           [2%positive] (point_at 0 0 0)); reflexivity.
Defined.

Lemma gpos_from_step (d : nat) (h : heap) (l p : loc) (e pe : Entity) (v : vec3) :
  h !! l = Some e -> parent e = Some p -> h !! p = Some pe ->
  gpos_from (S d) h l v = gpos_from d h p (vadd (pos pe) (mat_vec (ori pe) v)).
Proof.
  intros Hl Hp Hpe. cbn [gpos_from]. rewrite (deref_some h l e Hl).
  change (match parent e with
          | Some p => pe ← deref h p; gpos_from d h p (vadd (pos pe) (mat_vec (ori pe) v))
          | None => Ok v
          end = gpos_from d h p (vadd (pos pe) (mat_vec (ori pe) v))).
  rewrite Hp, (deref_some h p pe Hpe). reflexivity.
Qed.

Lemma gori_from_step (d : nat) (h : heap) (l p : loc) (e : Entity) :
  h !! l = Some e -> parent e = Some p ->
  gori_from (S d) h l = (g ← gori_from d h p; Ok (mat_mul (ori e) g)).
Proof.
  intros Hl Hp. cbn [gori_from]. rewrite (deref_some h l e Hl).
  change (match parent e with
          | Some p => g ← gori_from d h p; Ok (mat_mul (ori e) g)
          | None => Ok identity3
          end = (g ← gori_from d h p; Ok (mat_mul (ori e) g))).
  rewrite Hp. reflexivity.
Qed.

Lemma get_opacity_from_step (d : nat) (h : heap) (l p : loc) (e : Entity) :
  h !! l = Some e -> parent e = Some p ->
  get_opacity_from (S d) h l = (g ← get_opacity_from d h p; Ok (opacity e * g)).
Proof.
  intros Hl Hp. cbn [get_opacity_from]. rewrite (deref_some h l e Hl).
  change (match parent e with
          | Some p => g ← get_opacity_from d h p; Ok (opacity e * g)
          | None => Ok (opacity e)
          end = (g ← get_opacity_from d h p; Ok (opacity e * g))).
  rewrite Hp. reflexivity.
Qed.







Lemma gori_from_root_ori (r : loc) (er : Entity) (m : mat3) (h : heap) :
  h !! r = Some er -> parent er = None ->
  forall (d : nat) (l : loc),
    l <> r ->
    gori_from d (<[r := with_ori m er]> h) l = gori_from d h l.
Proof.
  intros Hr Hp. induction d as [|d IH]; intros l Hl; [reflexivity |].
  cbn [gori_from]. unfold deref. rewrite lookup_insert_ne by congruence.
  destruct (h !! l) as [e |]; [| reflexivity].
  cbn [mbind result_bind].
  change (match parent e with
          | Some p => g ← gori_from d (<[r := with_ori m er]> h) p; Ok (mat_mul (ori e) g)
          | None => Ok identity3
          end
          = match parent e with
            | Some p => g ← gori_from d h p; Ok (mat_mul (ori e) g)
            | None => Ok identity3
            end).
  destruct (parent e) as [p |]; [| reflexivity].
  destruct (decide (p = r)) as [-> | Hne].
  - destruct d as [|d']; [reflexivity |].
    rewrite (gori_from_root d' h r er Hr Hp).
    rewrite (gori_from_root d' (<[r := with_ori m er]> h) r (with_ori m er));
      [reflexivity | apply lookup_insert_eq | exact Hp].
  - rewrite IH by exact Hne. reflexivity.
Qed.

(** X14.  [gori] never reads the orientation of the entity at the top of the
    chain of parents: giving an entity without a parent another orientation
    changes the [gori] of no entity, whereas [gpos] of its components is
    taken through that orientation. *)
Theorem gori_ignores_root_ori (h : heap) (r : loc) (er : Entity) (m : mat3) :
  h !! r = Some er -> parent er = None ->
  forall l, gori (<[r := with_ori m er]> h) l = gori h l.
Proof.
  intros Hr Hp l. unfold gori. destruct (decide (l = r)) as [-> | Hne].
  - change recursion_limit with (S 999).
    rewrite (gori_from_root 999 h r er Hr Hp).
    apply (gori_from_root 999 _ r (with_ori m er)); [apply lookup_insert_eq | exact Hp].
  - apply gori_from_root_ori; assumption.
Qed.

Lemma gori_ignores_root_ori_witness :
  gori (<[1%positive := with_ori (M3 (V3 0 (-1) 0) (V3 1 0 0) (V3 0 0 1))
                          (with_components [2%positive] (point_at 1 2 3))]> three_deep)
       3%positive
  = gori three_deep 3%positive.
Proof.
  apply (gori_ignores_root_ori three_deep 1%positive
           (with_components [2%positive] (point_at 1 2 3))); reflexivity.
Defined.

(** A chain of parents that never reaches an entity without a parent
    ([P] holds of the node and, with every entity, of its parent, which it
    has): [gpos], [gori] and [get_opacity] raise [RecursionError],
    whatever the recursion limit is. *)
Lemma endless_chain_raises (h : heap) (P : loc -> Prop) :
  (forall x, P x -> exists e p, h !! x = Some e /\ parent e = Some p /\ P p) ->
  forall (d : nat) (l : loc) (v : vec3),
    P l ->
    gpos_from d h l v = Raise RecursionError
    /\ gori_from d h l = Raise RecursionError
    /\ get_opacity_from d h l = Raise RecursionError.
Proof.
  intros Hclosed. induction d as [|d IH]; intros l v Hl; [repeat split |].
  destruct (Hclosed l Hl) as (e & p & He & Hp & HP).
  destruct (Hclosed p HP) as (pe & pp & Hpe & _ & _).
  rewrite (gpos_from_step d h l p e pe v He Hp Hpe).
  rewrite (gori_from_step d h l p e He Hp).
  rewrite (get_opacity_from_step d h l p e He Hp).
  destruct (IH p (vadd (pos pe) (mat_vec (ori pe) v)) HP) as (-> & -> & ->).
  repeat split.
Qed.

(** X15.  A [LineContour2D] or [ArcContour2D], as its constructor leaves it,
    is its own component and its own parent (the constructor passes [[self]]
    for the components), whatever [parent] it was given; so [gpos], [gori]
    and [get_opacity] of the contour raise [RecursionError]. *)
Theorem line_contour_own_parent (self : loc) (attrs : Entity) (h : heap) :
  exists h',
    LineContour2D_init self attrs h = (h', None)
    /\ ArcContour2D_init self attrs h = (h', None)
    /\ h' !! self = Some (with_parent (Some self) (with_components [self] attrs))
    /\ gpos h' self = Raise RecursionError
    /\ gori h' self = Raise RecursionError
    /\ get_opacity h' self = Raise RecursionError.
Proof.
  set (h0 := <[self := with_components [] attrs]> h).
  exists (attach self self h0).
  assert (Hself : attach self self h0 !! self
                  = Some (with_parent (Some self) (with_components [self] attrs))).
  { rewrite attach_lookup_self. subst h0. rewrite lookup_insert_eq.
    cbn [fmap option_fmap option_map]. destruct (decide (self = self)); [| congruence].
    reflexivity. }
  split; [reflexivity |]. split; [reflexivity |]. split; [exact Hself |].
  assert (Hloop : forall d v,
             gpos_from d (attach self self h0) self v = Raise RecursionError
             /\ gori_from d (attach self self h0) self = Raise RecursionError
             /\ get_opacity_from d (attach self self h0) self = Raise RecursionError).
  { intros d v. apply (endless_chain_raises _ (fun x => x = self)); [| reflexivity].
    intros x ->. eexists _, self. split; [exact Hself |]. split; reflexivity. }
  split; [| split].
  - unfold gpos. rewrite (deref_some _ _ _ Hself). apply Hloop.
  - apply (Hloop recursion_limit zero3).
  - apply (Hloop recursion_limit zero3).
Qed.

Lemma points_of_spec (h : heap) (cs : list loc) :
  match points_of h cs with
  | Ok vertices =>
      Forall2 (fun c v => exists g, gpos h c = Ok g /\ v = V3 (vx g) (vy g) 0) cs vertices
  | Raise e =>
      exists before c after,
        cs = before ++ c :: after
        /\ gpos h c = Raise e
        /\ Forall (fun b => exists g, gpos h b = Ok g) before
  end.
Proof.
  induction cs as [|c cs IH]; [constructor |].
  cbn [points_of]. destruct (gpos h c) as [g | e] eqn:Hg; cbn [mbind result_bind].
  - destruct (points_of h cs) as [vs | e]; cbn [mbind result_bind].
    + constructor; [exists g; split; [exact Hg | reflexivity] | exact IH].
    + destruct IH as (before & c' & after & -> & Hc' & Hb).
      exists (c :: before), c', after. split; [reflexivity |]. split; [exact Hc' |].
      constructor; [exists g; exact Hg | exact Hb].
  - exists [], c, cs. split; [reflexivity |]. split; [exact Hg | constructor].
Qed.

(** X16.  [Polygon.get_points] returns one vertex for each component, in
    their order: the global [x] and [y] of the component, and 0 for [z]
    whatever the global [z] is. It raises what the first component whose
    [gpos] raises, raises. *)
Theorem get_points_planar (h : heap) (poly : loc) (e : Entity) :
  h !! poly = Some e ->
  match get_points h poly with
  | Ok vertices =>
      Forall2 (fun c v => exists g, gpos h c = Ok g /\ v = V3 (vx g) (vy g) 0)
              (components e) vertices
  | Raise err =>
      exists before c after,
        components e = before ++ c :: after
        /\ gpos h c = Raise err
        /\ Forall (fun b => exists g, gpos h b = Ok g) before
  end.
Proof.
  intros He. unfold get_points. rewrite (deref_some h poly e He).
  cbn [mbind result_bind]. apply points_of_spec.
Qed.

Lemma get_points_planar_witness :
  match get_points unit_square 1%positive with
  | Ok vertices =>
      Forall2 (fun c v => exists g, gpos unit_square c = Ok g /\ v = V3 (vx g) (vy g) 0)
              (components (with_components [2; 3; 4; 5]%positive (point_at 0 0 0)))
              vertices
  | Raise err =>
      exists before c after,
        components (with_components [2; 3; 4; 5]%positive (point_at 0 0 0))
        = before ++ c :: after
        /\ gpos unit_square c = Raise err
        /\ Forall (fun b => exists g, gpos unit_square b = Ok g) before
  end.
Proof.
  apply (get_points_planar unit_square 1%positive
           (with_components [2; 3; 4; 5]%positive (point_at 0 0 0))).
  reflexivity.
Defined.

Lemma col_set_col_same (m : mat3) (j : nat) (v : vec3) : col (set_col m j v) j = v.
Proof. destruct v; destruct j as [|[|j]]; reflexivity. Qed.

Lemma col_set_col_other (m : mat3) (i j : nat) (v : vec3) :
  (i < 3)%nat -> (j < 3)%nat -> i <> j -> col (set_col m j v) i = col m i.
Proof.
  intros Hi Hj Hne. destruct m as [[] [] []].
  destruct i as [|[|[|i]]]; destruct j as [|[|[|j]]]; try lia; reflexivity.
Qed.

(** X17.  [move(dori=q)] rotates the three axes one by one in place, and
    each rotation reads the axis as it was before the call: column [j] of
    the new orientation is the rotated column [j] of the old one. The
    position is not touched, and a [pos] or [dpos] passed with it acts as
    without [dori]. *)
Theorem move_dori_columns (e : Entity) (new_pos dpos : option vec3) (q : vec3 -> vec3)
    (j : nat) :
  (j < 3)%nat ->
  col (ori (move e new_pos dpos None (Some q))) j = q (col (ori e) j)
  /\ pos (move e new_pos dpos None (Some q)) = pos (move e new_pos dpos None None).
Proof.
  intros Hj. unfold move.
  set (e1 := match new_pos, dpos with
             | Some p, _ => with_pos p e
             | None, Some d => with_pos (vadd (pos e) d) e
             | None, None => e
             end).
  assert (Hori : ori e1 = ori e).
  { subst e1. destruct new_pos, dpos; reflexivity. }
  cbv zeta. cbn [ori pos with_ori]. rewrite Hori. split; [| reflexivity].
  destruct j as [|[|[|j]]]; [| | | lia].
  - rewrite col_set_col_other, col_set_col_other, col_set_col_same by lia. reflexivity.
  - rewrite col_set_col_other, col_set_col_same by lia.
    rewrite col_set_col_other by lia. reflexivity.
  - rewrite col_set_col_same.
    rewrite col_set_col_other, col_set_col_other by lia. reflexivity.
Qed.

Lemma move_dori_columns_witness :
  col (ori (move (point_at 1 2 3) None (Some (V3 1 0 0)) None
                 (Some (fun v => V3 (- vy v) (vx v) (vz v))))) 1
  = (fun v => V3 (- vy v) (vx v) (vz v)) (col (ori (point_at 1 2 3)) 1)
  /\ pos (move (point_at 1 2 3) None (Some (V3 1 0 0)) None
               (Some (fun v => V3 (- vy v) (vx v) (vz v))))
     = pos (move (point_at 1 2 3) None (Some (V3 1 0 0)) None None).
Proof.
  apply (move_dori_columns (point_at 1 2 3) None (Some (V3 1 0 0))
           (fun v => V3 (- vy v) (vx v) (vz v)) 1).
  lia.
Defined.

End EntityMore.

(* ===================================================================== *)
(** * Further properties of [funcs] *)
(* ===================================================================== *)

Section FloatFacts.

Local Open Scope float_scope.

Lemma nan_mul_l (x : float) : nan * x = nan.
Proof.
  apply Prim2SF_inj. rewrite mul_spec. change (Prim2SF nan) with S754_nan.
  destruct (Prim2SF x); reflexivity.
Qed.

Lemma nan_add_l (x : float) : nan + x = nan.
Proof.
  apply Prim2SF_inj. rewrite add_spec. change (Prim2SF nan) with S754_nan.
  destruct (Prim2SF x); reflexivity.
Qed.

Lemma nan_ltb_l (x : float) : (nan <? x) = false.
Proof.
  rewrite ltb_spec. change (Prim2SF nan) with S754_nan.
  destruct (Prim2SF x); reflexivity.
Qed.

Lemma nan_ltb_r (x : float) : (x <? nan) = false.
Proof.
  rewrite ltb_spec. change (Prim2SF nan) with S754_nan.
  destruct (Prim2SF x); reflexivity.
Qed.

Lemma eqb_leb (x : float) : (x =? x) = true -> (x <=? x) = true.
Proof.
  rewrite FloatAxioms.eqb_spec, FloatAxioms.leb_spec. unfold SFeqb, SFleb.
  destruct (SFcompare (Prim2SF x) (Prim2SF x)) as [[| |] |]; congruence.
Qed.

Lemma eqb_not_nan (x : float) : (x =? x) = true -> is_nan x = false.
Proof. unfold is_nan. intros ->. reflexivity. Qed.

End FloatFacts.

Section FuncsMore.

Import Np EntityModel Funcs.
Local Open Scope float_scope.

Lemma nan_dot3 (y : float) (w : vec3) : dot3 (V3 nan nan y) w = nan.
Proof. unfold dot3. cbn [vx vy vz]. rewrite !nan_mul_l, !nan_add_l. reflexivity. Qed.

Lemma edge_step_nan (y : float) (pg : vec3) (st : float * float) (edge : vec3 * vec3) :
  edge_step (V3 nan nan nan) (V3 nan nan y) pg st edge = st.
Proof.
  unfold edge_step. cbv zeta. rewrite !nan_dot3, !nan_mul_l, !nan_add_l.
  rewrite nan_ltb_r, !nan_ltb_l. reflexivity.
Qed.

(** X18.  With the zero vector for the direction, [dist_to_poly] returns
    [+inf], "no forward intersection", for every polygon and every point, a
    point inside the polygon too: normalizing the direction gives NaN, and
    no comparison with NaN holds. *)
Theorem dist_to_poly_zero_direction (h : heap) (poly point : loc)
    (vertices : list vec3) (pg : vec3) :
  get_points h poly = Ok vertices ->
  gpos h point = Ok pg ->
  dist_to_poly h poly point zero3 = Ok inf.
Proof.
  intros Hv Hp. unfold dist_to_poly. rewrite Hv. cbn [mbind result_bind].
  destruct vertices as [|v0 rest]; [reflexivity |].
  rewrite Hp. cbn [mbind result_bind].
  change (ray_axis zero3) with (V3 nan nan nan).
  change (ray_normal zero3) with (V3 nan nan 0).
  assert (Hfold : forall es st,
             List.fold_left (edge_step (V3 nan nan nan) (V3 nan nan 0) pg) es st = st).
  { induction es as [|e es IH]; intros st; [reflexivity |].
    cbn [List.fold_left]. rewrite edge_step_nan. apply IH. }
  rewrite Hfold. reflexivity.
Qed.

Lemma dist_to_poly_zero_direction_witness :
  dist_to_poly unit_square 1%positive 7%positive zero3 = Ok inf.
Proof.
  apply (dist_to_poly_zero_direction unit_square 1%positive 7%positive
           square_vertices (V3 0.25 0 0)); vm_compute; reflexivity.
Defined.

Variable np_cos : float -> float.
Variable np_exp : float -> float.

Lemma linspace_length (a b : float) (n : nat) : List.length (linspace a b n) = n.
Proof.
  destruct n as [|[|k]]; [reflexivity | reflexivity |].
  cbn [linspace]. cbn [List.length]. rewrite length_app, length_map, length_seq.
  cbn. lia.
Qed.

Lemma profile_shape_length (profile : string) (n : nat) :
  List.length (profile_shape np_cos np_exp profile n) = n.
Proof.
  unfold profile_shape.
  repeat match goal with
         | |- context [if ?b then _ else _] => destruct b
         end; rewrite ?length_map; apply linspace_length.
Qed.

Lemma span_length (start end_ : list float) (n_elems : Z) (profile : string) :
  List.length (span np_cos np_exp start end_ n_elems profile)
  = Z.to_nat (Z.max 1 n_elems).
Proof.
  unfold span, outer_from. rewrite length_map.
  destruct (Z.leb_spec n_elems 1) as [Hle | Hgt].
  - cbn. lia.
  - unfold round_end_points. rewrite !length_map, profile_shape_length. lia.
Qed.

(** X19.  [span] returns [max(1, n_elems)] rows, whatever the profile, and
    each row has the length of [start] and [end]: the animation functions
    take the number of frames of a transition from it. *)
Theorem span_rows (start end_ : list float) (n_elems : Z) (profile : string) :
  List.length start = List.length end_ ->
  List.length (span np_cos np_exp start end_ n_elems profile)
  = Z.to_nat (Z.max 1 n_elems)
  /\ Forall (fun row => List.length row = List.length start)
            (span np_cos np_exp start end_ n_elems profile).
Proof.
  intros Hlen. split; [apply span_length |]. unfold span, outer_from.
  apply Forall_forall. intros row Hrow. apply list_elem_of_In, in_map_iff in Hrow.
  destruct Hrow as [s [<- _]].
  rewrite length_map, length_combine, length_map, length_combine. lia.
Qed.

End FuncsMore.

Section FuncsExamples.

Import Np EntityModel Funcs.
Local Open Scope float_scope.

Lemma span_rows_witness :
  List.length (span (fun x => x) (fun x => x) [0; 0; 0] [1; 0.5; 0] 60 "sigmoid")
  = Z.to_nat (Z.max 1 60)
  /\ Forall (fun row => List.length row = List.length [0; 0; 0])
            (span (fun x => x) (fun x => x) [0; 0; 0] [1; 0.5; 0] 60 "sigmoid").
Proof.
  apply (span_rows (fun x => x) (fun x => x) [0; 0; 0] [1; 0.5; 0] 60 "sigmoid").
  reflexivity.
Defined.

End FuncsExamples.

(* ===================================================================== *)
(** * Further properties of [calc_flatness] *)
(* ===================================================================== *)

Section FlatnessMore.

Import Np Flatness.
Local Open Scope float_scope.

Lemma assess_top_first (r : roll) (point : vec2) (rest : list vec2) :
  array_equal point (p0 r) = false ->
  array_equal point (p1 r) = true -> p1_dir r = None ->
  assess_all r (mkTables (p0_dir r) (p1_dir r) [] [] [] []) (point :: rest)
  = Raise (UnboundLocalError "p1_dir").
Proof.
  intros H0 H1 Hdir. cbn [assess_all]. unfold assess.
  cbn [p0_dirs t_p0_dir p1_dirs t_p1_dir].
  rewrite H0, H1, Hdir. reflexivity.
Qed.

Lemma roll_around_raises (fuel : nat) (points : list vec2) (n0 n1 : nat) (r : roll)
    (e : exn) :
  rolling points n0 n1 r = true ->
  roll_once points r = Raise e ->
  roll_around fuel points n0 n1 r = None
  \/ roll_around fuel points n0 n1 r = Some (Raise e).
Proof.
  intros Hr He. destruct fuel as [|fuel]; cbn [roll_around]; rewrite Hr;
    [left; reflexivity | right; rewrite He; reflexivity].
Qed.

Lemma first_anchor_no_value (fuel : nat) (point : vec2) (rest : list vec2) :
  let points := point :: rest in
  array_equal point (nth2 (argmin (List.map snd points)) points)
  || array_equal point (nth2 (argmax (List.map snd points)) points) = true ->
  forall v, calc_flatness fuel points <> Some (Ok v).
Proof.
  cbv zeta. intros Hfirst v.
  unfold calc_flatness, calc_flatness_data, start_roll.
  set (points := point :: rest) in *.
  set (n0 := argmin (List.map snd points)) in *.
  set (n1 := argmax (List.map snd points)) in *.
  set (r := mkRoll (nth2 n0 points) (nth2 n1 points) (1, 0) (-1, 0)
                   None None [] [] [] []).
  destruct (rolling points n0 n1 r) eqn:Hr.
  - assert (He : exists e, roll_once points r = Raise e).
    { change (exists e, roll_once (point :: rest) r = Raise e). unfold roll_once.
      destruct (array_equal point (nth2 n0 points)) eqn:E0.
      - rewrite (assess_anchor_first r point rest E0 eq_refl). eexists. reflexivity.
      - cbn [orb] in Hfirst.
        rewrite (assess_top_first r point rest E0 Hfirst eq_refl). eexists. reflexivity. }
    destruct He as [e He].
    destruct (roll_around_raises fuel points n0 n1 r e Hr He) as [-> | ->]; discriminate.
  - assert (Hstop : roll_around fuel points n0 n1 r = Some (Ok r)).
    { destruct fuel; cbn [roll_around]; rewrite Hr; reflexivity. }
    rewrite Hstop. cbn. discriminate.
Qed.

(** X20.  [calc_flatness] returns a number only for an array whose first
    point is neither the point with the least [y] nor the point with the
    greatest [y] that the search starts from: with one of them first, the
    call raises or does not stop. *)
Theorem calc_flatness_first_point (fuel : nat) (points : list vec2) (v : float) :
  calc_flatness fuel points = Some (Ok v) ->
  exists (point : vec2) (rest : list vec2),
    points = point :: rest
    /\ array_equal point (nth2 (argmin (List.map snd points)) points) = false
    /\ array_equal point (nth2 (argmax (List.map snd points)) points) = false.
Proof.
  intros H. destruct points as [|point rest]; [discriminate H |].
  exists point, rest. split; [reflexivity |].
  pose proof (first_anchor_no_value fuel point rest) as Hno. cbv zeta in Hno.
  destruct (array_equal point
              (nth2 (argmin (List.map snd (point :: rest))) (point :: rest))) eqn:E0.
  { exfalso. apply (Hno eq_refl v). exact H. }
  destruct (array_equal point
              (nth2 (argmax (List.map snd (point :: rest))) (point :: rest))) eqn:E1.
  { exfalso. apply (Hno eq_refl v). exact H. }
  split; reflexivity.
Qed.

Lemma calc_flatness_first_point_witness :
  exists (point : vec2) (rest : list vec2),
    (5, 0.5) :: rectangle = point :: rest
    /\ array_equal point
         (nth2 (argmin (List.map snd ((5, 0.5) :: rectangle))) ((5, 0.5) :: rectangle))
       = false
    /\ array_equal point
         (nth2 (argmax (List.map snd ((5, 0.5) :: rectangle))) ((5, 0.5) :: rectangle))
       = false.
Proof.
  apply (calc_flatness_first_point 10 ((5, 0.5) :: rectangle) 1).
  vm_compute. reflexivity.
Defined.

Lemma argmin_from_level (y0 : float) (l : list float) :
  (y0 <=? y0) = true -> Forall (fun y => y = y0) l ->
  forall best i, argmin_from y0 best i l = best.
Proof.
  intros Hy. induction 1 as [|y l -> _ IH]; intros best i; [reflexivity |].
  cbn [argmin_from]. rewrite Hy. cbn [negb]. apply IH.
Qed.

Lemma argmax_from_level (y0 : float) (l : list float) :
  (y0 <=? y0) = true -> Forall (fun y => y = y0) l ->
  forall best i, argmax_from y0 best i l = best.
Proof.
  intros Hy. induction 1 as [|y l -> _ IH]; intros best i; [reflexivity |].
  cbn [argmax_from]. rewrite Hy. cbn [negb]. apply IH.
Qed.

(** X21.  Points that all have the same [y] (a single point too) have
    flatness 0, but [calc_flatness] raises on them: the lowest and the
    highest point are the same point, the loop is not entered, and [np.min]
    is taken of an empty array. *)
Theorem calc_flatness_level_points (fuel : nat) (x0 y0 : float) (rest : list vec2) :
  (x0 =? x0) = true -> (y0 =? y0) = true ->
  Forall (fun q : vec2 => snd q = y0) rest ->
  calc_flatness fuel ((x0, y0) :: rest)
  = Some (Raise (ValueError "zero-size array to reduction operation minimum")).
Proof.
  intros Hx Hy Hrest.
  assert (Hys : Forall (fun y => y = y0) (List.map snd rest)).
  { apply Forall_map. exact Hrest. }
  unfold calc_flatness, calc_flatness_data, start_roll.
  cbn [List.map snd]. unfold argmin, argmax.
  rewrite (eqb_not_nan y0 Hy).
  rewrite (argmin_from_level y0 _ (eqb_leb y0 Hy) Hys).
  rewrite (argmax_from_level y0 _ (eqb_leb y0 Hy) Hys).
  change (nth2 0 ((x0, y0) :: rest)) with (x0, y0).
  assert (Hr : rolling ((x0, y0) :: rest) 0 0
                 (mkRoll (x0, y0) (x0, y0) (1, 0) (-1, 0) None None [] [] [] []) = false).
  { unfold rolling. cbn [p0 p1]. change (nth2 0 ((x0, y0) :: rest)) with (x0, y0).
    unfold array_equal. cbn [fst snd]. rewrite Hx, Hy. reflexivity. }
  destruct fuel; cbn [roll_around]; rewrite Hr; reflexivity.
Qed.

Lemma calc_flatness_level_points_witness :
  calc_flatness 10 [(0, 2); (1, 2); (5, 2)]
  = Some (Raise (ValueError "zero-size array to reduction operation minimum")).
Proof.
  apply (calc_flatness_level_points 10 0 2 [(1, 2); (5, 2)]).
  - reflexivity.
  - reflexivity.
  - repeat constructor.
Defined.

End FlatnessMore.

(* ===================================================================== *)
(** * Further properties of the contours *)
(* ===================================================================== *)

Section ContourMore.

Import Np Contour ContourOps.
Local Open Scope float_scope.

Variable rng : Type.
Variable np_random_seed : Z -> result rng.
Variable np_random_dirichlet : list float -> stateM rng (list float).
Variable np_random_uniform : float -> float -> nat -> stateM rng (list float).
Variable np_cos : float -> float.
Variable np_sin : float -> float.

Local Abbreviation segs :=
  (segments rng np_random_seed np_random_dirichlet np_cos np_sin).
Local Abbreviation stk :=
  (stack rng np_random_seed np_random_dirichlet np_cos np_sin).
Local Abbreviation jag :=
  (jagged_points rng np_random_seed np_random_dirichlet np_random_uniform np_cos np_sin).

Lemma same_outcome_snd {A : Type} (r1 r2 : rng * result A) :
  same_outcome r1 r2 -> snd r1 = snd r2.
Proof.
  destruct r1 as [s [v | e]]; cbn; [intros -> | intros [s' ->]]; reflexivity.
Qed.

Lemma same_outcome_bind {A B : Type} (m1 m2 : rng * result A) (k : A -> stateM rng B) :
  same_outcome m1 m2 ->
  same_outcome
    (match m1 with (s, Ok v) => k v s | (s, Raise e) => (s, Raise e) end)
    (match m2 with (s, Ok v) => k v s | (s, Raise e) => (s, Raise e) end).
Proof.
  destruct m1 as [s [v | e]]; cbn.
  - intros ->. destruct (k v s) as [s2 [v2 | e2]]; cbn; [reflexivity | eexists; reflexivity].
  - intros [s' ->]. eexists. reflexivity.
Qed.

Lemma seeded_same_outcome {A : Type} (seed : Z) (k : stateM rng A) (g1 g2 : rng) :
  same_outcome ((_ ← seed_global rng np_random_seed seed; k) g1)
               ((_ ← seed_global rng np_random_seed seed; k) g2).
Proof.
  unfold mbind, stateM_bind, seed_global.
  destruct (np_random_seed seed) as [g | e]; cbn.
  - destruct (k g) as [s [v | e]]; cbn; [reflexivity | eexists; reflexivity].
  - eexists. reflexivity.
Qed.

Lemma segments_contour (j : float) (n s : Z) (cs : list Contour2D) :
  segs (Contour j n s cs) = stk cs [] [].
Proof. reflexivity. Qed.

(** The segments of a contour with a line or an arc do not depend on the
    state of the generator, and leave it in a state that does not depend
    on it: the first line or arc seeds the generator.  A contour without
    lines and arcs never reads the generator. *)
Lemma segments_reseed (c : Contour2D) :
  (has_segment c = true -> forall g1 g2, same_outcome (segs c g1) (segs c g2))
  /\ (has_segment c = false -> forall g, segs c g = (g, Ok ([], []))).
Proof.
  revert c. fix IH 1. intros [j n s cs | j n s a b | j n s ctr rad a1 a2].
  - rewrite segments_contour. cbn [has_segment].
    assert (Hstack :
      forall pts nrms,
        (List.existsb has_segment cs = true ->
         forall g1 g2, same_outcome (stk cs pts nrms g1) (stk cs pts nrms g2))
        /\ (List.existsb has_segment cs = false ->
            forall g, stk cs pts nrms g = (g, Ok (pts, nrms)))).
    { induction cs as [|c cs IHcs]; intros pts nrms.
      - split; [discriminate | intros _ g; reflexivity].
      - destruct (IH c) as [Hyes Hno]. cbn [List.existsb stack].
        unfold mbind, stateM_bind.
        destruct (has_segment c) eqn:Hc; cbn [orb].
        + split; [| discriminate]. intros _ g1 g2.
          apply (same_outcome_bind (segs c g1) (segs c g2)
                   (fun pn => stk cs (pts ++ fst pn) (nrms ++ snd pn))).
          apply Hyes. reflexivity.
        + split.
          * intros Hcs g1 g2. rewrite !(Hno eq_refl). cbn [fst snd].
            apply (IHcs (pts ++ []) (nrms ++ [])). exact Hcs.
          * intros Hcs g. rewrite (Hno eq_refl). cbn [fst snd].
            rewrite (proj2 (IHcs (pts ++ []) (nrms ++ [])) Hcs), !app_nil_r.
            reflexivity. }
    apply Hstack.
  - split; [| discriminate]. intros _ g1 g2. cbn [segments]. unfold line_segments.
    apply seeded_same_outcome.
  - split; [| discriminate]. intros _ g1 g2. cbn [segments]. unfold arc_segments.
    apply seeded_same_outcome.
Qed.

(** X22.  The [seed] (and the [n_points]) of a contour made of other
    contours has no effect on its jagged points: the lines and arcs below it
    seed the generator again, each with its own seed, before the offsets are
    drawn. For any two seeds that [np.random.seed] accepts the points, or
    the exception, are the same. *)
Theorem composite_seed_unused (j : float) (n1 n2 s1 s2 : Z) (cs : list Contour2D)
    (g1 g2 : rng) :
  has_segment (Contour j n1 s1 cs) = true ->
  np_random_seed s1 = Ok g1 -> np_random_seed s2 = Ok g2 ->
  forall g g', snd (jag (Contour j n1 s1 cs) g) = snd (jag (Contour j n2 s2 cs) g').
Proof.
  intros Hseg H1 H2 g g'. apply same_outcome_snd.
  unfold jagged_points. cbn [get_seed get_jaggedness].
  unfold mbind at 1 4, stateM_bind at 1 4, seed_global. rewrite H1, H2.
  rewrite !segments_contour.
  unfold mbind at 1 3, stateM_bind at 1 3.
  apply (same_outcome_bind (stk cs [] [] g1) (stk cs [] [] g2)
           (fun pn => offsets ← np_random_uniform (- j) j (List.length (fst pn));
                      lift (o ← zero_ends offsets; offset_points (fst pn) o (snd pn)))).
  rewrite <- !(segments_contour j n1 s1 cs).
  apply (proj1 (segments_reseed (Contour j n1 s1 cs)) Hseg).
Qed.

(** X23.  A contour without lines and arcs below it, as [Contour2D()] is,
    has no jagged points: when the seed is accepted and the generator
    returns the zero offsets it is asked for, [jagged_points] raises
    [IndexError] at [offsets[0] = [0]]. *)
Theorem empty_contour_raises (c : Contour2D) (g0 g1 g : rng) :
  has_segment c = false ->
  np_random_seed (get_seed c) = Ok g0 ->
  np_random_uniform (- get_jaggedness c) (get_jaggedness c) 0 g0 = (g1, Ok []) ->
  jag c g = (g1, Raise IndexError).
Proof.
  intros Hseg Hseed Huni. unfold jagged_points.
  unfold mbind at 1, stateM_bind at 1, seed_global. rewrite Hseed.
  unfold mbind at 1, stateM_bind at 1.
  rewrite (proj2 (segments_reseed c) Hseg). cbn [fst snd List.length].
  unfold mbind at 1, stateM_bind at 1. rewrite Huni. reflexivity.
Qed.

Lemma cumsum_from_length (l : list float) :
  forall acc, List.length (cumsum_from acc l) = List.length l.
Proof.
  induction l as [|x l IH]; intros acc; [reflexivity |]. cbn. rewrite IH. reflexivity.
Qed.

Lemma cumsum_length (l : list float) : List.length (cumsum l) = List.length l.
Proof. destruct l as [|x l]; [reflexivity |]. cbn. rewrite cumsum_from_length. reflexivity. Qed.

Lemma removelast_snoc_length {A : Type} (rest : list A) :
  forall z y : A, List.length (removelast (z :: rest) ++ [y]) = S (List.length rest).
Proof.
  induction rest as [|x rest IH]; intros z y; [reflexivity |].
  change (removelast (z :: x :: rest)) with (z :: removelast (x :: rest)).
  cbn [app List.length]. f_equal. apply IH.
Qed.

Lemma zero_ends_length (offsets : list float) :
  offsets <> [] ->
  exists o, zero_ends offsets = Ok o /\ List.length o = List.length offsets.
Proof.
  destruct offsets as [|x rest]; [congruence |]. intros _.
  eexists. split; [reflexivity |]. apply removelast_snoc_length.
Qed.

Lemma offset_points_length (points : list vec2) :
  forall (offsets : list float) (normals : list vec2),
    List.length offsets = List.length points ->
    List.length normals = List.length points ->
    exists r, offset_points points offsets normals = Ok r
              /\ List.length r = List.length points.
Proof.
  induction points as [|p ps IH]; intros [|o os] [|n ns] Ho Hn; try discriminate.
  - exists []. split; reflexivity.
  - cbn in Ho, Hn. destruct (IH os ns) as [r [Hr Hlen]]; [lia | lia |].
    cbn [offset_points]. rewrite Hr. eexists. split; [reflexivity |].
    cbn. rewrite Hlen. reflexivity.
Qed.

Section WellBehaved.

(** The generator as numpy's is: [np.random.seed] accepts the seeds that
    [accepted] holds of, [dirichlet] returns as many values as it is
    given parameters and [uniform] as many as it is asked for. *)
Variable accepted : Z -> bool.
Hypothesis seed_accepted :
  forall s, accepted s = true -> exists g, np_random_seed s = Ok g.
Hypothesis dirichlet_draws :
  forall alpha g, exists g' d,
    np_random_dirichlet alpha g = (g', Ok d) /\ List.length d = List.length alpha.
Hypothesis uniform_draws :
  forall lo hi k g, exists g' u,
    np_random_uniform lo hi k g = (g', Ok u) /\ List.length u = k.

Lemma spaces_length (n_points : Z) (g : rng) :
  (1 <= n_points)%Z ->
  exists g' sp, spaces rng np_random_dirichlet n_points g = (g', Ok sp)
                /\ List.length sp = Z.to_nat n_points.
Proof.
  intros Hn. unfold spaces.
  destruct (Z.ltb_spec (n_points - 1) 0) as [Hlt | _]; [lia |].
  unfold mbind, stateM_bind.
  destruct (dirichlet_draws (List.repeat (10 * 1) (Z.to_nat (n_points - 1))) g)
    as (g' & d & -> & Hlen).
  eexists _, _. split; [reflexivity |].
  cbn [List.length]. rewrite Hlen, repeat_length. lia.
Qed.

Lemma leaf_segments_length (c : Contour2D) (g : rng) :
  match c with Contour _ _ _ _ => False | _ => True end ->
  segments_ok accepted c = true ->
  exists g' pts nrms,
    segs c g = (g', Ok (pts, nrms))
    /\ List.length pts = List.length nrms
    /\ Z.of_nat (List.length pts) = total_points c.
Proof.
  destruct c as [j n s cs | j n s a b | j n s ctr rad a1 a2]; [intros [] | |];
    intros _ Hok; cbn [segments_ok] in Hok; apply andb_true_iff in Hok;
    destruct Hok as [Hn Hs]; apply Z.leb_le in Hn;
    destruct (seed_accepted s Hs) as [g0 Hg0];
    destruct (spaces_length n g0 Hn) as (g' & sp & Hsp & Hlen);
    cbn [segments total_points].
  - unfold line_segments, mbind, stateM_bind, seed_global. rewrite Hg0, Hsp.
    eexists _, _, _. split; [reflexivity |].
    rewrite length_map, cumsum_length, repeat_length, Hlen. split; [reflexivity | lia].
  - unfold arc_segments, mbind, stateM_bind, seed_global. rewrite Hg0, Hsp.
    eexists _, _, _. split; [reflexivity |].
    rewrite !length_map, cumsum_length, Hlen. split; [reflexivity | lia].
Qed.

Lemma segments_length (c : Contour2D) :
  segments_ok accepted c = true ->
  forall g, exists g' pts nrms,
    segs c g = (g', Ok (pts, nrms))
    /\ List.length pts = List.length nrms
    /\ Z.of_nat (List.length pts) = total_points c.
Proof.
  revert c. fix IH 1. intros [j n s cs | j n s a b | j n s ctr rad a1 a2] Hok g.
  - rewrite segments_contour. cbn [segments_ok total_points] in *.
    assert (Hstack :
      forall pts0 nrms0 g,
        List.length pts0 = List.length nrms0 ->
        exists g' pts nrms,
          stk cs pts0 nrms0 g = (g', Ok (pts, nrms))
          /\ List.length pts = List.length nrms
          /\ Z.of_nat (List.length pts)
             = (Z.of_nat (List.length pts0)
                + List.fold_right (fun c acc => total_points c + acc) 0 cs)%Z).
    { clear g. induction cs as [|c cs IHcs]; intros pts0 nrms0 g H0.
      - eexists _, _, _. split; [reflexivity |]. split; [exact H0 | cbn; lia].
      - cbn [List.forallb] in Hok. apply andb_true_iff in Hok. destruct Hok as [Hc Hcs].
        destruct (IH c Hc g) as (g1 & p1 & n1 & E1 & Hl1 & Ht1).
        cbn [stack List.fold_right]. unfold mbind, stateM_bind. rewrite E1.
        cbn [fst snd].
        destruct (IHcs Hcs (pts0 ++ p1) (nrms0 ++ n1) g1) as (g2 & p2 & n2 & E2 & Hl2 & Ht2).
        { rewrite !length_app. lia. }
        exists g2, p2, n2. split; [exact E2 |]. split; [exact Hl2 |].
        rewrite Ht2, length_app. lia. }
    destruct (Hstack [] [] g eq_refl) as (g' & pts & nrms & E & Hl & Ht).
    exists g', pts, nrms. split; [exact E |]. split; [exact Hl |].
    rewrite Ht. cbn. lia.
  - apply leaf_segments_length; [exact I | exact Hok].
  - apply leaf_segments_length; [exact I | exact Hok].
Qed.

(** X24.  With a generator that draws as many values as it is asked for:
    [jagged_points] of a contour whose lines and arcs have each at least one
    point and a seed that is accepted returns, and it returns one point for
    every point of its lines and arcs. *)
Theorem jagged_points_rows (c : Contour2D) (g : rng) :
  segments_ok accepted c = true ->
  accepted (get_seed c) = true ->
  (0 < total_points c)%Z ->
  exists g' points,
    jag c g = (g', Ok points) /\ Z.of_nat (List.length points) = total_points c.
Proof.
  intros Hok Hseed Hpos. unfold jagged_points.
  destruct (seed_accepted _ Hseed) as [g0 Hg0].
  unfold mbind at 1, stateM_bind at 1, seed_global. rewrite Hg0.
  destruct (segments_length c Hok g0) as (g1 & pts & nrms & E & Hl & Ht).
  unfold mbind at 1, stateM_bind at 1. rewrite E. cbn [fst snd].
  destruct (uniform_draws (- get_jaggedness c) (get_jaggedness c) (List.length pts) g1)
    as (g2 & u & Eu & Hu).
  unfold mbind at 1, stateM_bind at 1. rewrite Eu.
  destruct (zero_ends_length u) as (o & Eo & Ho).
  { destruct u; [cbn in Hu; lia | discriminate]. }
  destruct (offset_points_length pts o nrms) as (r & Er & Hr); [lia | lia |].
  exists g2, r. unfold lift. rewrite Eo. cbn [mbind result_bind]. rewrite Er.
  split; [reflexivity | lia].
Qed.

End WellBehaved.

End ContourMore.

Section ContourExamples.

Import Np Contour ContourOps.
Local Open Scope float_scope.

Lemma composite_seed_unused_witness :
  snd (jagged_points unit toy_seed toy_dirichlet toy_uniform (fun x => x) (fun x => x)
         (two_segments 0) tt)
  = snd (jagged_points unit toy_seed toy_dirichlet toy_uniform (fun x => x) (fun x => x)
           (Contour 4 30 12345 [LineContour 3 4 0 (100, -50) (300, -50);
                                ArcContour 5 3 7 (300, -100) 50 0 1]) tt).
Proof.
  apply (composite_seed_unused unit toy_seed toy_dirichlet toy_uniform
           (fun x => x) (fun x => x) 4 2 30 0 12345 _ tt tt); reflexivity.
Defined.

Lemma empty_contour_raises_witness :
  jagged_points unit toy_seed toy_dirichlet toy_uniform (fun x => x) (fun x => x)
    (Contour 0 30 0 []) tt
  = (tt, Raise IndexError).
Proof.
  apply (empty_contour_raises unit toy_seed toy_dirichlet toy_uniform
           (fun x => x) (fun x => x) (Contour 0 30 0 []) tt tt tt); reflexivity.
Defined.

Lemma jagged_points_rows_witness :
  exists g' points,
    jagged_points unit toy_seed toy_dirichlet toy_uniform (fun x => x) (fun x => x)
      (two_segments 0) tt = (g', Ok points)
    /\ Z.of_nat (List.length points) = total_points (two_segments 0).
Proof.
  apply (jagged_points_rows unit toy_seed toy_dirichlet toy_uniform
           (fun x => x) (fun x => x) (fun s => (0 <=? s) && (s <? 2 ^ 32))%Z).
  - intros s Hs. exists tt. unfold toy_seed. rewrite Hs. reflexivity.
  - intros alpha g. eexists _, _. split; [reflexivity |]. apply length_map.
  - intros lo hi k g. eexists _, _. split; [reflexivity |]. apply repeat_length.
  - reflexivity.
  - reflexivity.
  - reflexivity.
Defined.

End ContourExamples.

(* ===================================================================== *)
(** * The last frame of the script *)
(* ===================================================================== *)

Section LastFrame.

Import Np EntityModel SceneModel SceneOps.

Variable exec : string -> dict -> dict * option exn.
Variable image : Type.
Variable blank_image : Z -> Z -> list Z -> image.
Variable add_to_image : Entity -> float -> Z * Z -> image -> result image.

Lemma replay_scene_script (frame_no : Z) (st : pystate) :
  script (self (fst (replay_scene exec frame_no st))) = script (self st).
Proof.
  unfold replay_scene.
  destruct (replay exec (script (self st)) (fps (self st))
              (range (current_frame (self st)) frame_no) (the_entities st, stdout st))
    as [[d out] r].
  reflexivity.
Qed.

Lemma seek_script (frame_no : Z) (display : bool) (st : pystate) :
  script (self (fst (set_frame_no exec frame_no display st))) = script (self st).
Proof.
  rewrite set_frame_no_steps.
  assert (H1 : script (self (fst ((if frame_no <? current_frame (self st)
                                   then reset else mret tt) st))) = script (self st)).
  { destruct (frame_no <? current_frame (self st)); [apply reset_script | reflexivity]. }
  destruct ((if frame_no <? current_frame (self st) then reset else mret tt) st)
    as [st1 [[] | e]]; cbn [fst] in H1; [| exact H1].
  pose proof (replay_scene_script frame_no st1) as H2.
  destruct (replay_scene exec frame_no st1) as [st2 [[] | e]]; cbn [fst] in H2 |- *;
    [| congruence].
  destruct display; cbn; congruence.
Qed.

Lemma frames_loop_rescript (s' : gmap Z (list string)) (m end_frame : Z) (status : bool)
    (indices : list Z) :
  Forall (fun i => i <= m) indices ->
  forall (acc : list image) (st : pystate),
    (forall k, k < m -> script (self st) !! k = s' !! k) ->
    frames_loop exec image blank_image add_to_image indices end_frame status acc
      (rescript s' st)
    = (rescript s' (fst (frames_loop exec image blank_image add_to_image indices
                           end_frame status acc st)),
       snd (frames_loop exec image blank_image add_to_image indices end_frame status
              acc st)).
Proof.
  induction 1 as [|i indices Hi _ IH]; intros acc st Hagree; [reflexivity |].
  rewrite !frames_loop_steps.
  set (st0 := if status && ((i mod 10 =? 0) || (i =? end_frame))
              then mkState (dicts st) (self st) (stdout st ++ [Getting i end_frame])
              else st).
  assert (H0 : (if status && ((i mod 10 =? 0) || (i =? end_frame))
                then mkState (dicts (rescript s' st)) (self (rescript s' st))
                       (stdout (rescript s' st) ++ [Getting i end_frame])
                else rescript s' st) = rescript s' st0).
  { subst st0. destruct (status && ((i mod 10 =? 0) || (i =? end_frame))); reflexivity. }
  rewrite H0.
  assert (Hs0 : script (self st0) = script (self st)).
  { subst st0. destruct (status && ((i mod 10 =? 0) || (i =? end_frame))); reflexivity. }
  rewrite (seek_rescript exec st0 s' i false)
    by (intros k Hk; rewrite Hs0; apply Hagree; lia).
  pose proof (seek_script i false st0) as Hs.
  destruct (set_frame_no exec i false st0) as [st1 [[] | e]]; cbn [fst snd] in *;
    [| reflexivity].
  change (capture_frame image blank_image add_to_image (rescript s' st1))
    with (capture_frame image blank_image add_to_image st1).
  destruct (capture_frame image blank_image add_to_image st1) as [img | e];
    [| reflexivity].
  apply IH. intros k Hk. rewrite Hs, Hs0. apply Hagree. exact Hk.
Qed.

Lemma get_frames_rescript (st : pystate) (s' : gmap Z (list string))
    (start_frame m : Z) (status : bool) :
  last_frame (script (self st)) = Ok m ->
  last_frame s' = Ok m ->
  (forall k, k < m -> script (self st) !! k = s' !! k) ->
  get_frames exec image blank_image add_to_image start_frame None status (rescript s' st)
  = (rescript s'
       (fst (get_frames exec image blank_image add_to_image start_frame None status st)),
     snd (get_frames exec image blank_image add_to_image start_frame None status st)).
Proof.
  intros Hm Hm' Hagree. unfold get_frames.
  change (script (self (rescript s' st))) with s'.
  rewrite Hm, Hm'.
  apply (frames_loop_rescript _ m).
  - apply Forall_forall. intros i Hi. apply list_elem_of_In, in_range in Hi. lia.
  - exact Hagree.
Qed.

Lemma last_frame_insert (s : gmap Z (list string)) (m : Z) (instructions : list string) :
  last_frame s = Ok m -> last_frame (<[m := instructions]> s) = Ok m.
Proof.
  intros Hm. pose proof (last_frame_greatest s) as H. rewrite Hm in H.
  destruct H as [_ Hle]. apply last_frame_unique.
  - rewrite lookup_insert_eq. eexists. reflexivity.
  - intros k. destruct (Z.eq_dec k m) as [-> | Hne]; [intros _; lia |].
    rewrite lookup_insert_ne by congruence. apply Hle.
Qed.

(** X5.  An instruction added at the frame [n] or at a later frame makes no
    difference to [set_frame_no(n)]: the call changes the entities, the
    output and the cursor as without it, and raises the same; seeking to a
    frame replays the frames before it only. *)
Theorem seek_ignores_later_instructions (st : pystate) (frame_no f : Z) (display : bool)
    (instruction : string) :
  frame_no <= f ->
  set_frame_no exec frame_no display
    (set_self (add_instruction f instruction (self st)) st)
  = (set_self (add_instruction f instruction
                 (self (fst (set_frame_no exec frame_no display st))))
       (fst (set_frame_no exec frame_no display st)),
     snd (set_frame_no exec frame_no display st)).
Proof.
  intros Hf.
  change (set_self (add_instruction f instruction (self st)) st)
    with (rescript (script (add_instruction f instruction (self st))) st).
  rewrite seek_rescript.
  - f_equal. unfold rescript, add_instruction.
    rewrite (seek_script frame_no display st). reflexivity.
  - intros i Hi. unfold add_instruction. cbn [script with_script].
    symmetry. apply lookup_insert_ne. lia.
Qed.

(** X11.  [get_frames()] never runs the instructions of the last frame of
    the script: seeking to a frame replays the frames before it only, and
    the last frame sought is the last frame of the script. Whatever the
    instructions [instructions] of that frame are, the frames returned, the
    output, the entities, the cursor and the exception are the same. *)
Theorem last_frame_never_runs (st : pystate) (start_frame m : Z) (status : bool)
    (instructions : list string) :
  last_frame (script (self st)) = Ok m ->
  get_frames exec image blank_image add_to_image start_frame None status
    (rescript (<[m := instructions]> (script (self st))) st)
  = (rescript (<[m := instructions]> (script (self st)))
       (fst (get_frames exec image blank_image add_to_image start_frame None status st)),
     snd (get_frames exec image blank_image add_to_image start_frame None status st)).
Proof.
  intros Hm. apply (get_frames_rescript st _ start_frame m status Hm).
  - apply last_frame_insert. exact Hm.
  - intros k Hk. symmetry. apply lookup_insert_ne. lia.
Qed.

End LastFrame.

Section LastFrameExamples.

Import Np EntityModel SceneModel SceneOps.

Lemma seek_ignores_later_instructions_witness :
  set_frame_no py_exec 5 false
    (set_self (add_instruction 5 slide_ghost (self sliding_scene)) sliding_scene)
  = (set_self (add_instruction 5 slide_ghost
                 (self (fst (set_frame_no py_exec 5 false sliding_scene))))
       (fst (set_frame_no py_exec 5 false sliding_scene)),
     snd (set_frame_no py_exec 5 false sliding_scene)).
Proof.
  apply (seek_ignores_later_instructions py_exec sliding_scene 5 5 false slide_ghost).
  lia.
Defined.

Lemma last_frame_never_runs_witness :
  get_frames py_exec display_list no_entity draw_entity 0 None true
    (rescript (<[5 := []]> (script (self ghost_scene))) ghost_scene)
  = (rescript (<[5 := []]> (script (self ghost_scene)))
       (fst (get_frames py_exec display_list no_entity draw_entity 0 None true ghost_scene)),
     snd (get_frames py_exec display_list no_entity draw_entity 0 None true ghost_scene)).
Proof.
  apply (last_frame_never_runs py_exec display_list no_entity draw_entity
           ghost_scene 0 5 true []).
  vm_compute. reflexivity.
Defined.

End LastFrameExamples.

(* ===================================================================== *)
(** * Properties of [animation] *)
(* ===================================================================== *)

Section AnimationMore.

Import Np EntityModel Funcs SceneModel SceneOps Animation.

Lemma nframes_positive (duration : pynum) (fps n : Z) :
  nframes duration fps = Done n -> 1 <= n.
Proof.
  unfold nframes. destruct (times duration fps) as [v | |]; [| discriminate ..].
  cbn [mbind outcome_bind]. destruct (py_int v) as [k | |]; [| discriminate ..].
  cbn [mbind outcome_bind]. intros H. injection H as <-. lia.
Qed.

Lemma add_instruction_lookup (sc : Scene) (f k : Z) (instruction : string) :
  script (add_instruction f instruction sc) !! k
  = if decide (k = f) then Some (default [] (script sc !! k) ++ [instruction])
    else script sc !! k.
Proof.
  unfold add_instruction. cbn [script with_script].
  destruct (decide (k = f)) as [-> | Hne].
  - rewrite lookup_insert_eq. destruct (script sc !! f); reflexivity.
  - apply lookup_insert_ne. congruence.
Qed.

Lemma add_instruction_fps (sc : Scene) (f : Z) (instruction : string) :
  fps (add_instruction f instruction sc) = fps sc.
Proof. reflexivity. Qed.

(** The last frame after instructions have been added at the frames
    from [lo] to [hi]. *)
Lemma last_frame_extended (s s' : gmap Z (list string)) (m lo hi : Z) :
  last_frame s = Ok m -> lo <= hi ->
  (forall k, lo <= k <= hi -> is_Some (s' !! k)) ->
  (forall k, ~ lo <= k <= hi -> s' !! k = s !! k) ->
  last_frame s' = Ok (Z.max m hi).
Proof.
  intros Hm Hlh Hin Hout. pose proof (last_frame_greatest s) as H. rewrite Hm in H.
  destruct H as [Hmem Hle]. apply last_frame_unique.
  - destruct (Z.max_spec m hi) as [[Hlt ->] | [Hge ->]].
    + apply Hin. lia.
    + destruct (decide (lo <= m <= hi)) as [Hmid | Hmid]; [apply Hin; exact Hmid |].
      rewrite Hout by exact Hmid. exact Hmem.
  - intros k Hk. destruct (decide (lo <= k <= hi)) as [Hmid | Hmid]; [lia |].
    rewrite Hout in Hk by exact Hmid. apply Hle in Hk. lia.
Qed.

(** X25.  [pause] adds one frame, with the empty instruction, [nframes]
    frames after the last frame of the script, and changes no other frame:
    the script ends [max(1, int(duration * fps))] frames later. *)
Theorem pause_advances (sc : Scene) (duration : pynum) (n m : Z) :
  nframes duration (fps sc) = Done n ->
  last_frame (script sc) = Ok m ->
  exists sc',
    pause sc duration = Done sc'
    /\ last_frame (script sc') = Ok (m + n)
    /\ script sc' !! (m + n) = Some [EmptyString]
    /\ forall k, k <> m + n -> script sc' !! k = script sc !! k.
Proof.
  intros Hn Hm. pose proof (nframes_positive _ _ _ Hn) as Hpos.
  pose proof (last_frame_greatest (script sc)) as H. rewrite Hm in H.
  destruct H as [_ Hle].
  assert (Hnew : script sc !! (m + n) = None).
  { destruct (script sc !! (m + n)) as [l |] eqn:E; [| reflexivity].
    assert (m + n <= m) by (apply Hle; eexists; exact E). lia. }
  exists (add_instruction (m + n) EmptyString sc).
  unfold pause. rewrite Hn, Hm. cbn [mbind outcome_bind of_result].
  split; [reflexivity |]. split; [| split].
  - replace (m + n) with (Z.max m (m + n)) at 2 by lia.
    apply (last_frame_extended (script sc) _ m (m + n) (m + n) Hm); [lia | |].
    + intros k Hk. rewrite add_instruction_lookup.
      destruct (decide (k = m + n)); [eexists; reflexivity | lia].
    + intros k Hk. rewrite add_instruction_lookup.
      destruct (decide (k = m + n)); [lia | reflexivity].
  - rewrite add_instruction_lookup, Hnew.
    destruct (decide (m + n = m + n)); [reflexivity | congruence].
  - intros k Hk. rewrite add_instruction_lookup.
    destruct (decide (k = m + n)); [congruence | reflexivity].
Qed.

Lemma sweep_lookup (fs : Z) (cmd : string) (indices : list Z) :
  NoDup indices ->
  forall (sc : Scene) (k : Z),
    script (sweep fs cmd indices sc) !! k
    = if decide (k - fs ∈ indices)
      then Some (default [] (script sc !! k) ++ [cmd])
      else script sc !! k.
Proof.
  induction 1 as [|i indices Hi Hnd IH]; intros sc k.
  - cbn. destruct (decide (k - fs ∈ [])) as [Hin | _]; [| reflexivity].
    apply elem_of_nil in Hin. destruct Hin.
  - change (sweep fs cmd (i :: indices) sc)
      with (sweep fs cmd indices (add_instruction (fs + i) cmd sc)).
    rewrite IH, add_instruction_lookup.
    destruct (decide (k = fs + i)) as [-> | Hne].
    + replace (fs + i - fs) with i by lia.
      destruct (decide (i ∈ indices)) as [Hin | _]; [contradiction |].
      destruct (decide (i ∈ i :: indices)) as [_ | Hn]; [reflexivity |].
      exfalso. apply Hn. left.
    + destruct (decide (k - fs ∈ indices)) as [Hin | Hn];
        destruct (decide (k - fs ∈ i :: indices)) as [Hin' | Hn']; try reflexivity.
      * exfalso. apply Hn'. right. exact Hin.
      * exfalso. apply elem_of_cons in Hin'. destruct Hin' as [Heq | Hin']; [lia | contradiction].
Qed.

Lemma range_NoDup (a b : Z) : NoDup (range a b).
Proof. unfold range. apply NoDup_seqZ. Qed.

Lemma elem_of_range (a b k : Z) : k ∈ range a b <-> a <= k < b.
Proof. unfold range. rewrite elem_of_seqZ. lia. Qed.

(** X26.  [sweep_cmd] appends the command to each of the [nframes] frames
    from [frame_start] on, after the instructions they have, and to no other
    frame; the script then ends at the later of its last frame and
    [frame_start + nframes - 1]. Appended at the end ([t_start = -1]), the
    first command goes into the last frame the script has, so the script
    grows by [nframes - 1] frames. *)
Theorem sweep_cmd_frames (sc : Scene) (duration t_start : pynum) (cmd : string)
    (n fs m : Z) :
  nframes duration (fps sc) = Done n ->
  frame_start sc t_start = Done fs ->
  last_frame (script sc) = Ok m ->
  exists sc',
    sweep_cmd sc duration cmd t_start = Done sc'
    /\ (forall k, fs <= k < fs + n ->
          script sc' !! k = Some (default [] (script sc !! k) ++ [cmd]))
    /\ (forall k, ~ fs <= k < fs + n -> script sc' !! k = script sc !! k)
    /\ last_frame (script sc') = Ok (Z.max m (fs + n - 1))
    /\ (appends t_start = true -> fs = m).
Proof.
  intros Hn Hfs Hm. pose proof (nframes_positive _ _ _ Hn) as Hpos.
  exists (sweep fs cmd (range 0 n) sc).
  unfold sweep_cmd. rewrite Hn, Hfs. cbn [mbind outcome_bind].
  split; [reflexivity |].
  assert (Hin : forall k, fs <= k < fs + n ->
            script (sweep fs cmd (range 0 n) sc) !! k
            = Some (default [] (script sc !! k) ++ [cmd])).
  { intros k Hk. rewrite (sweep_lookup fs cmd _ (range_NoDup 0 n)).
    destruct (decide (k - fs ∈ range 0 n)) as [_ | Hno]; [reflexivity |].
    exfalso. apply Hno. apply elem_of_range. lia. }
  assert (Hout : forall k, ~ fs <= k < fs + n ->
            script (sweep fs cmd (range 0 n) sc) !! k = script sc !! k).
  { intros k Hk. rewrite (sweep_lookup fs cmd _ (range_NoDup 0 n)).
    destruct (decide (k - fs ∈ range 0 n)) as [Hyes | _]; [| reflexivity].
    exfalso. apply Hk. apply elem_of_range in Hyes. lia. }
  split; [exact Hin |]. split; [exact Hout |]. split.
  - apply (last_frame_extended (script sc) _ m fs (fs + n - 1) Hm); [lia | |].
    + intros k Hk. rewrite Hin by lia. eexists. reflexivity.
    + intros k Hk. apply Hout. lia.
  - intros Happ. unfold frame_start in Hfs. rewrite Happ, Hm in Hfs.
    injection Hfs as <-. reflexivity.
Qed.

Section SetCmd.

Variable exec : string -> dict -> dict * option exn.
Variable image : Type.
Variable blank_image : Z -> Z -> list Z -> image.
Variable add_to_image : Entity -> float -> Z * Z -> image -> result image.

(** X27.  A command set at the end of the script ([set_cmd] with [t_start =
    -1]) is not run by [get_frames()]: it goes into the last frame the
    script has, and [get_frames()] replays the frames before the last one
    only. The frames returned, the output, the entities and the exception
    are those of the scene without the command. *)
Theorem set_cmd_at_end_never_runs (st : pystate) (cmd : string) (t_start : pynum)
    (sc' : Scene) (start_frame : Z) (status : bool) :
  0 <= fps (self st) ->
  appends t_start = true ->
  set_cmd (self st) cmd t_start = Done sc' ->
  get_frames exec image blank_image add_to_image start_frame None status
    (set_self sc' st)
  = (rescript (script sc')
       (fst (get_frames exec image blank_image add_to_image start_frame None status st)),
     snd (get_frames exec image blank_image add_to_image start_frame None status st)).
Proof.
  intros Hfps Happ Hset. unfold set_cmd, sweep_cmd, frame_start in Hset.
  rewrite Happ in Hset.
  change (nframes (PInt (-1)) (fps (self st)))
    with (Done (A := Z) (Z.max 1 (-1 * fps (self st)))) in Hset.
  replace (Z.max 1 (-1 * fps (self st))) with 1 in Hset by lia.
  destruct (last_frame (script (self st))) as [m | e] eqn:Hm; [| discriminate].
  cbn [mbind outcome_bind of_result] in Hset.
  change (range 0 1) with [0] in Hset. cbn [sweep List.fold_left] in Hset.
  injection Hset as <-. rewrite Z.add_0_r.
  change (set_self (add_instruction m cmd (self st)) st)
    with (rescript (script (add_instruction m cmd (self st))) st).
  apply (get_frames_rescript exec image blank_image add_to_image st _ start_frame m
           status Hm).
  - unfold add_instruction. cbn [script with_script]. apply last_frame_insert. exact Hm.
  - intros k Hk. rewrite add_instruction_lookup.
    destruct (decide (k = m)); [lia | reflexivity].
Qed.

End SetCmd.

Section SlideFrames.

Variable np_cos : float -> float.
Variable np_exp : float -> float.
Variable move_dpos : string -> list float -> string.

Lemma slide_steps_lookup (fs : Z) (alias : string) (rows : list (list float)) :
  forall (i : Z) (prev : list float) (sc : Scene) (k : Z),
    (fs + i <= k < fs + i + Z.of_nat (List.length rows) ->
     exists dpos,
       script (slide_steps move_dpos fs i alias prev rows sc) !! k
       = Some (default [] (script sc !! k) ++ [move_dpos alias dpos]))
    /\ (~ fs + i <= k < fs + i + Z.of_nat (List.length rows) ->
        script (slide_steps move_dpos fs i alias prev rows sc) !! k = script sc !! k).
Proof.
  induction rows as [|cur rest IH]; intros i prev sc k.
  - cbn [List.length slide_steps]. split; [lia | reflexivity].
  - cbn [slide_steps].
    destruct (IH (i + 1) cur
                (add_instruction (fs + i) (move_dpos alias (row_sub cur prev)) sc) k)
      as [Hin Hout].
    cbn [List.length]. split.
    + intros Hk. destruct (decide (k = fs + i)) as [-> | Hne].
      * rewrite Hout by lia. rewrite add_instruction_lookup.
        destruct (decide (fs + i = fs + i)); [| congruence].
        eexists. reflexivity.
      * destruct Hin as [dpos Hd]; [lia |]. exists dpos. rewrite Hd.
        rewrite add_instruction_lookup.
        destruct (decide (k = fs + i)); [congruence | reflexivity].
    + intros Hk. rewrite Hout by lia. rewrite add_instruction_lookup.
      destruct (decide (k = fs + i)); [lia | reflexivity].
Qed.

(** X28.  [slide] over one frame writes one move, at [frame_start]. Over
    [nframes > 1] frames it writes [nframes - 1] moves, one at each of the
    frames [frame_start + 1 .. frame_start + nframes - 1] after the
    instructions they have, and none at [frame_start]; no other frame is
    changed, and the script then ends at the later of its last frame and
    [frame_start + nframes - 1]. *)
Theorem slide_frames (sc : Scene) (duration t_start : pynum) (entity_alias : string)
    (slide_disp : vec3) (profile : string) (n fs m : Z) :
  nframes duration (fps sc) = Done n ->
  frame_start sc t_start = Done fs ->
  last_frame (script sc) = Ok m ->
  exists sc',
    slide np_cos np_exp move_dpos sc duration entity_alias slide_disp profile t_start
    = Done sc'
    /\ (n = 1 -> exists v, sc' = add_instruction fs (move_dpos entity_alias v) sc)
    /\ (1 < n ->
        (forall k, fs + 1 <= k <= fs + n - 1 ->
           exists dpos,
             script sc' !! k
             = Some (default [] (script sc !! k) ++ [move_dpos entity_alias dpos]))
        /\ (forall k, ~ fs + 1 <= k <= fs + n - 1 -> script sc' !! k = script sc !! k)
        /\ last_frame (script sc') = Ok (Z.max m (fs + n - 1))).
Proof.
  intros Hn Hfs Hm. pose proof (nframes_positive _ _ _ Hn) as Hpos.
  unfold slide. rewrite Hn, Hfs. cbn [mbind outcome_bind].
  pose proof (span_length np_cos np_exp [0; 0; 0]%float
                [vx slide_disp; vy slide_disp; vz slide_disp] n profile) as Hlen.
  destruct (span np_cos np_exp [0; 0; 0]%float
              [vx slide_disp; vy slide_disp; vz slide_disp] n profile)
    as [|v0 [|v1 rest]].
  - cbn in Hlen. lia.
  - cbn in Hlen. eexists. split; [reflexivity |]. split.
    + intros _. eexists. reflexivity.
    + intros Hgt. lia.
  - eexists. split; [reflexivity |]. split; [intros ->; cbn in Hlen; lia |].
    intros Hgt.
    assert (Hrows : Z.of_nat (List.length (v1 :: rest)) = n - 1).
    { cbn [List.length] in *. lia. }
    assert (Hin : forall k, fs + 1 <= k <= fs + n - 1 ->
              exists dpos,
                script (slide_steps move_dpos fs 1 entity_alias v0 (v1 :: rest) sc) !! k
                = Some (default [] (script sc !! k) ++ [move_dpos entity_alias dpos])).
    { intros k Hk.
      apply (proj1 (slide_steps_lookup fs entity_alias (v1 :: rest) 1 v0 sc k)).
      rewrite Hrows. lia. }
    assert (Hout : forall k, ~ fs + 1 <= k <= fs + n - 1 ->
              script (slide_steps move_dpos fs 1 entity_alias v0 (v1 :: rest) sc) !! k
              = script sc !! k).
    { intros k Hk.
      apply (proj2 (slide_steps_lookup fs entity_alias (v1 :: rest) 1 v0 sc k)).
      rewrite Hrows. lia. }
    split; [exact Hin |]. split; [exact Hout |].
    apply (last_frame_extended (script sc) _ m (fs + 1) (fs + n - 1) Hm); [lia | |].
    + intros k Hk. destruct (Hin k Hk) as [dpos ->]. eexists. reflexivity.
    + exact Hout.
Qed.

End SlideFrames.

End AnimationMore.

Section AnimationExamples.

Import Np EntityModel Funcs SceneModel SceneOps Animation.

Lemma pause_advances_witness :
  exists sc',
    pause template (PFloat 0.5) = Done sc'
    /\ last_frame (script sc') = Ok (0 + 30)
    /\ script sc' !! (0 + 30) = Some [EmptyString]
    /\ forall k, k <> 0 + 30 -> script sc' !! k = script template !! k.
Proof.
  apply (pause_advances template (PFloat 0.5) 30 0); vm_compute; reflexivity.
Defined.

Lemma sweep_cmd_frames_witness :
  exists sc',
    sweep_cmd template (PInt 1) slide_disk (PInt (-1)) = Done sc'
    /\ (forall k, 0 <= k < 0 + 60 ->
          script sc' !! k = Some (default [] (script template !! k) ++ [slide_disk]))
    /\ (forall k, ~ 0 <= k < 0 + 60 -> script sc' !! k = script template !! k)
    /\ last_frame (script sc') = Ok (Z.max 0 (0 + 60 - 1))
    /\ (appends (PInt (-1)) = true -> 0 = 0).
Proof.
  apply (sweep_cmd_frames template (PInt 1) (PInt (-1)) slide_disk 60 0 0);
    vm_compute; reflexivity.
Defined.

Lemma set_cmd_at_end_never_runs_witness :
  get_frames py_exec display_list no_entity draw_entity 0 None true
    (set_self (add_instruction 5 slide_disk (self ghost_scene)) ghost_scene)
  = (rescript (script (add_instruction 5 slide_disk (self ghost_scene)))
       (fst (get_frames py_exec display_list no_entity draw_entity 0 None true ghost_scene)),
     snd (get_frames py_exec display_list no_entity draw_entity 0 None true ghost_scene)).
Proof.
  apply (set_cmd_at_end_never_runs py_exec display_list no_entity draw_entity
           ghost_scene slide_disk (PInt (-1))
           (add_instruction 5 slide_disk (self ghost_scene)) 0 true).
  - vm_compute. discriminate.
  - reflexivity.
  - vm_compute. reflexivity.
Defined.

Lemma slide_frames_witness :
  exists sc',
    slide (fun x => x) (fun x => x) move_text template (PInt 1) "disk" (V3 1 0.5 0)
          "linear" (PInt (-1))
    = Done sc'
    /\ (60 = 1 -> exists v, sc' = add_instruction 0 (move_text "disk" v) template)
    /\ (1 < 60 ->
        (forall k, 0 + 1 <= k <= 0 + 60 - 1 ->
           exists dpos,
             script sc' !! k
             = Some (default [] (script template !! k) ++ [move_text "disk" dpos]))
        /\ (forall k, ~ 0 + 1 <= k <= 0 + 60 - 1 ->
              script sc' !! k = script template !! k)
        /\ last_frame (script sc') = Ok (Z.max 0 (0 + 60 - 1))).
Proof.
  apply (slide_frames (fun x => x) (fun x => x) move_text template (PInt 1) (PInt (-1))
           "disk" (V3 1 0.5 0) "linear" 60 0 0); vm_compute; reflexivity.
Defined.

End AnimationExamples.
